(** * Dataset analyzer: combination search, error statistics, reliability rating

    A shallow embedding of [src/analyzer/dataset_analyzer.py] and
    [src/analyzer/constants.py], with the parts of Python's runtime, of its
    [statistics] module, of [numpy.percentile] and of [pandas] frames that
    the analyzer calls.

    Numbers are Python [float]s, i.e. IEEE 754 binary64 values with
    round-to-nearest-even arithmetic; they are modelled by Rocq's primitive
    [float], whose operations are the same binary64 operations.  Python
    exceptions are modelled by a result type: a computation either returns a
    value ([Ok]) or raises ([Raise]). *)

From Stdlib Require Import Floats ZArith QArith List Bool Lia Permutation Sorted String.
Import ListNotations.

Set Warnings "-inexact-float".

(** ** Python runtime: exceptions and float operators *)

Module Py.

Inductive exn : Set :=
| ZeroDivisionError
| StatisticsError
| ValueError
| AttributeError
| OverflowError
| IndexError
| TypeError.

Inductive result (A : Type) : Type :=
| Ok (a : A)
| Raise (e : exn).

Arguments Ok {A} a.
Arguments Raise {A} e.

Definition bind {A B : Type} (c : result A) (k : A -> result B) : result B :=
  match c with
  | Ok a => k a
  | Raise e => Raise e
  end.

(** [for x in xs: st = body st x], stopping at the first exception. *)
Fixpoint for_each {S X : Type} (body : S -> X -> result S) (xs : list X) (st : S)
  : result S :=
  match xs with
  | [] => Ok st
  | x :: xs' => bind (body st x) (for_each body xs')
  end.

(** [x / y] on floats: Python raises on a zero divisor (either sign) instead
    of returning an infinity or a NaN. *)
Definition truediv (x y : float) : result float :=
  if (y =? 0)%float then Raise ZeroDivisionError else Ok (x / y)%float.

End Py.

Import Py.

Declare Scope py_scope.
Delimit Scope py_scope with py.
Notation "x <- c1 ;; c2" := (bind c1 (fun x => c2))
  (at level 61, c1 at next level, right associativity) : py_scope.

(** ** [DatasetAnalyzer._find_best_combination] *)

Definition combination : Type := float * float * float.

(** The three local variables the loop updates. *)
Record search_state : Type := mk_search_state {
  best_error : float;
  best_result : option float;
  best_combination : option combination
}.

(** [best_error = float("inf"); best_result = None; best_combination = None] *)
Definition initial_state : search_state :=
  {| best_error := infinity; best_result := None; best_combination := None |}.

(** [itertools.product(numbers, repeat=3)]: the first component varies
    slowest, the last one fastest. *)
Definition product3 (numbers : list float) : list combination :=
  flat_map (fun n1 =>
    flat_map (fun n2 =>
      map (fun n3 => (n1, n2, n3)) numbers) numbers) numbers.

(** The part of the loop body after the [n3 == 0] guard. *)
Definition score_and_update (target : float) (st : search_state) (c : combination)
  : result search_state :=
  let '(n1, n2, n3) := c in
  (result <- truediv (n1 * n2) n3 ;;
   quotient <- truediv (abs (result - target)) target ;;
   let error := (quotient * 100)%float in
   if (error <? best_error st)%float
   then Ok {| best_error := error;
              best_result := Some result;
              best_combination := Some (n1, n2, n3) |}
   else Ok st)%py.

Definition loop_body (target : float) (st : search_state) (c : combination)
  : result search_state :=
  let '(_, _, n3) := c in
  if (n3 =? 0)%float then Ok st (* continue *)
  else score_and_update target st c.

Definition _find_best_combination (numbers : list float) (target : float)
  : result (option float * float * option combination) :=
  (st <- for_each (loop_body target) (product3 numbers) initial_state ;;
   Ok (best_result st, best_error st, best_combination st))%py.

(** ** STEP 1 of [analyze]: the best match of every dataset *)

(** One value of the dictionary [_parse_dataset] returns. *)
Record dataset : Type := mk_dataset {
  target : float;
  numbers : list float
}.

(** [result, error, (n1, n2, n3) = self._find_best_combination(...)]:
    unpacking [None] into three names raises [TypeError]. *)
Definition best_match (data : dataset)
  : result (option float * float * combination) :=
  (found <- _find_best_combination (numbers data) (target data) ;;
   let '(result, error, best_combination) := found in
   match best_combination with
   | Some c => Ok (result, error, c)
   | None => Raise TypeError
   end)%py.

(** The loop over [datasets.items()], as far as [all_errors] goes. *)
Definition collect_errors (datasets : list (string * dataset)) : result (list float) :=
  for_each (fun all_errors item =>
              (found <- best_match (snd item) ;;
               let '(_, error, _) := found in
               Ok (all_errors ++ [error]))%py)
           datasets [].

(** ** [constants.py] *)

Module ErrorThreshold.
Definition EXCEPTIONAL : float := 1.0.
Definition SUPERIOR : float := 5.0.
Definition SATISFACTORY : float := 10.0.
End ErrorThreshold.

Module CSVIndex.
Definition SETS_COUNT : Z := 8.
Definition TARGET_ROW : nat := 3.
Definition DATA_START_ROW : nat := 6.
Definition COLUMN_STEP : nat := 2.
End CSVIndex.

Module StatisticalMetrics.
Definition Q1_PERCENTILE : Z := 25.
Definition Q3_PERCENTILE : Z := 75.
End StatisticalMetrics.

(** ** Python integers and their conversion to floats *)

Module PyInt.

(** An integer as an unrounded binary number [m * 2^0]. *)
Definition Z2SF (z : Z) : spec_float :=
  match z with
  | Z0 => S754_zero false
  | Zpos p => S754_finite false p 0
  | Zneg p => S754_finite true p 0
  end.

(** The binary64 value nearest to [a / b] (ties to even); an infinity when
    the quotient is beyond the largest float. *)
Definition round_ratio (a b : Z) : float :=
  SF2Prim (SFdiv prec emax (Z2SF a) (Z2SF b)).

(** [float(n)]: the binary64 value nearest to [n], exact below [2^53]. *)
Definition to_float (n : Z) : float :=
  SF2Prim (binary_normalize prec emax n 0 false).

(** Integers that convert to a float without rounding. *)
Definition is_small (n : Z) : bool := (Z.abs n <? 2 ^ 53)%Z.

(** [a / b] on integers (true division): the correctly rounded quotient.
    When both operands convert exactly, CPython divides the two floats;
    otherwise it rounds the exact quotient itself and raises when the
    result is beyond the largest float. *)
Definition truediv (a b : Z) : result float :=
  if (b =? 0)%Z then Raise ZeroDivisionError
  else if is_small a && is_small b then Ok (to_float a / to_float b)%float
  else
    let f := round_ratio a b in
    if is_infinity f then Raise OverflowError else Ok f.

(** [n.bit_length()] for [n >= 0]. *)
Definition bit_length (n : Z) : Z :=
  if (n =? 0)%Z then 0%Z else (Z.log2 n + 1)%Z.

End PyInt.

(** ** STEP 3 of [analyze]: error tolerance distribution *)

(** [sum(1 for e in all_errors if e < threshold)] *)
Definition count_below (threshold : float) (all_errors : list float) : Z :=
  fold_left Z.add
    (map (fun _ => 1%Z) (filter (fun e => (e <? threshold)%float) all_errors)) 0%Z.

Definition confidence_intervals (all_errors : list float) : list (float * Z) :=
  [ (ErrorThreshold.EXCEPTIONAL, count_below ErrorThreshold.EXCEPTIONAL all_errors);
    (ErrorThreshold.SUPERIOR, count_below ErrorThreshold.SUPERIOR all_errors);
    (ErrorThreshold.SATISFACTORY, count_below ErrorThreshold.SATISFACTORY all_errors) ].

(** One row of [tolerance_table], before formatting: the label, the numerator
    and denominator of ["{count}/{SETS_COUNT} datasets"], and the percentage
    [(count / len(all_errors)) * 100] that is printed with one decimal. *)
Record tolerance_row : Type := mk_tolerance_row {
  row_label : string;
  row_count : Z;
  row_sets : Z;
  row_percent : float
}.

Definition tolerance_entry (label : string) (all_errors : list float) (k : nat)
  : result tolerance_row :=
  let count := snd (nth k (confidence_intervals all_errors) (0%float, 0%Z)) in
  (fraction <- PyInt.truediv count (Z.of_nat (List.length all_errors)) ;;
   Ok {| row_label := label;
         row_count := count;
         row_sets := CSVIndex.SETS_COUNT;
         row_percent := (fraction * 100)%float |})%py.

Definition tolerance_table (all_errors : list float) : result (list tolerance_row) :=
  (r0 <- tolerance_entry "ε < 1.0%" all_errors 0 ;;
   r1 <- tolerance_entry "ε < 5.0%" all_errors 1 ;;
   r2 <- tolerance_entry "ε < 10.0%" all_errors 2 ;;
   Ok [r0; r1; r2])%py.

(** ** STEP 4 of [analyze]: reliability rating from the maximum error *)

(** The [if]/[elif] chain on [metrics["max"]]: the rating and its notes. *)
Definition reliability_rating (max_error : float) : string * string :=
  if (max_error <? ErrorThreshold.EXCEPTIONAL)%float then
    ("Exceptional"%string,
     "Demonstrates remarkable precision across all datasets"%string)
  else if (max_error <? ErrorThreshold.SUPERIOR)%float then
    ("Superior"%string, "Exhibits excellent consistency across datasets"%string)
  else if (max_error <? ErrorThreshold.SATISFACTORY)%float then
    ("Satisfactory"%string, "Meets all specified precision requirements"%string)
  else
    ("Limited"%string, "Further optimization recommended"%string).

Definition reliability (max_error : float) : string :=
  fst (reliability_rating max_error).

(** ** Python builtins used by the statistics: [min], [max], [sorted] *)

Module builtins.

(** [min(iterable)] keeps the first item and replaces it by a later item
    only when [item < current]. *)
Definition min (xs : list float) : result float :=
  match xs with
  | [] => Raise ValueError
  | x :: xs' => Ok (fold_left (fun m y => if (y <? m)%float then y else m) xs' x)
  end.

(** [max(iterable)]: replaced only when [item > current]. *)
Definition max (xs : list float) : result float :=
  match xs with
  | [] => Raise ValueError
  | x :: xs' => Ok (fold_left (fun m y => if (m <? y)%float then y else m) xs' x)
  end.

(** Insertion of [x] after every element that is not greater than it. *)
Fixpoint insert (x : float) (sorted_prefix : list float) : list float :=
  match sorted_prefix with
  | [] => [x]
  | y :: rest =>
      if (x <? y)%float then x :: y :: rest else y :: insert x rest
  end.

(** [sorted(data)]: a stable sort that compares with [<] only.  On data
    without NaN every such sort returns the same list, which is what this
    insertion sort computes.  With a NaN in the data [<] is no order and
    the list CPython returns depends on the runs and merges of its sort,
    which are not modelled: there this definition stands for the sorted
    data only up to that choice, and the results below that depend on
    the order of the sorted data assume data without NaN. *)
Definition sorted (data : list float) : list float :=
  fold_left (fun acc x => insert x acc) data [].

End builtins.

(** ** The [statistics] module of the Python standard library (CPython 3.11)

    The module converts every finite float to an exact fraction, sums the
    fractions without rounding, and rounds once at the end. *)

Module statistics.

(** The exact value [(-1)^s * m * 2^e] of a finite binary float. *)
Definition scaled (s : bool) (m : positive) (e : Z) : Q :=
  let n := if s then Zneg m else Zpos m in
  match e with
  | Zneg k => n # (2 ^ k)%positive
  | _ => (n * 2 ^ e)%Z # 1
  end.

(** [_exact_ratio(x)]: the fraction equal to [x], or nothing for an infinity
    or a NaN (the source then returns the pair [(x, None)]). *)
Definition _exact_ratio (x : float) : option Q :=
  match Prim2SF x with
  | S754_zero _ => Some 0%Q
  | S754_finite s m e => Some (scaled s m e)
  | S754_infinity _ | S754_nan => None
  end.

Definition isfinite (x : float) : bool :=
  match _exact_ratio x with Some _ => true | None => false end.

(** The exact sum [sum(Fraction(n, d) ...)] of the finite items of [data]. *)
Definition exact_sum (f : Q -> Q) (data : list float) : Q :=
  fold_left (fun acc x =>
    match _exact_ratio x with
    | Some q => (acc + f q)%Q
    | None => acc
    end) data 0%Q.

(** A running total is a fraction, or a float once an infinity or a NaN has
    been met ([partials[None]], the float sum of the non-finite items). *)
Inductive total : Type :=
| Exact (q : Q)
| Special (x : float).

Definition special_sum (data : list float) : float :=
  fold_left (fun acc x => (acc + x)%float)
    (filter (fun x => negb (isfinite x)) data) 0%float.

(** [_sum(data)]: the total and the count. *)
Definition _sum (data : list float) : total * Z :=
  let count := Z.of_nat (List.length data) in
  if forallb isfinite data
  then (Exact (exact_sum (fun q => q) data), count)
  else (Special (special_sum data), count).

(** [_ss(data)]: the exact sum of squared deviations from the mean, computed
    as [(count * sxx - sx * sx) / count], and the count. *)
Definition _ss (data : list float) : total * Z :=
  let count := Z.of_nat (List.length data) in
  if (count =? 0)%Z then (Exact 0%Q, count)
  else if forallb isfinite data
  then
    let sx := exact_sum (fun q => q) data in
    let sxx := exact_sum (fun q => q * q)%Q data in
    (Exact ((inject_Z count * sxx - sx * sx) / inject_Z count)%Q, count)
  else (Special (special_sum data), count).

(** [float(Fraction)]: fractions are kept in lowest terms, and the conversion
    is the integer true division [numerator / denominator]. *)
Definition fraction_to_float (q : Q) : result float :=
  let r := Qred q in
  PyInt.truediv (Qnum r) (Zpos (Qden r)).

(** [mean(data)].  The mean of finite floats lies between their minimum and
    their maximum, so its rounding cannot leave the float range and the
    conversion's overflow check is left out here. *)
Definition mean (data : list float) : result float :=
  let '(total, n) := _sum data in
  if (n <? 1)%Z then Raise StatisticsError
  else
    match total with
    | Exact q =>
        let r := Qred (q / inject_Z n) in
        Ok (PyInt.round_ratio (Qnum r) (Zpos (Qden r)))
    | Special x => Ok (x / PyInt.to_float n)%float
    end.

(** [median(data)]. *)
Definition median (data : list float) : result float :=
  let data := builtins.sorted data in
  let n := List.length data in
  if (n =? 0)%nat then Raise StatisticsError
  else if (n mod 2 =? 1)%nat then Ok (nth (n / 2) data 0%float)
  else
    let i := (n / 2)%nat in
    Ok ((nth (i - 1) data 0 + nth i data 0) / 2)%float.

(** [variance(data)]: the sample variance. *)
Definition variance (data : list float) : result float :=
  let '(ss, n) := _ss data in
  if (n <? 2)%Z then Raise StatisticsError
  else
    match ss with
    | Exact q => fraction_to_float (q / inject_Z (n - 1))
    | Special x => Ok (x / PyInt.to_float (n - 1))%float
    end.

(** [_integer_sqrt_of_frac_rto(n, m)]: the square root of [n/m] rounded to
    an integer, to odd: [a | (a*a*m != n)] with [a = isqrt(n // m)]. *)
Definition _integer_sqrt_of_frac_rto (n m : Z) : Z :=
  let a := Z.sqrt (n / m) in
  Z.lor a (if (a * a * m =? n)%Z then 0 else 1).

Definition _sqrt_bit_width : Z := 2 * 53 + 3.

(** [_float_sqrt_of_frac(n, m)]: the square root of [n/m] as a float. *)
Definition _float_sqrt_of_frac (n m : Z) : result float :=
  let q := ((PyInt.bit_length n - PyInt.bit_length m - _sqrt_bit_width) / 2)%Z in
  if (0 <=? q)%Z then
    PyInt.truediv
      (Z.shiftl (_integer_sqrt_of_frac_rto n (Z.shiftl m (2 * q))) q) 1
  else
    PyInt.truediv
      (_integer_sqrt_of_frac_rto (Z.shiftl n (-2 * q)) m) (Z.shiftl 1 (- q)).

(** [stdev(data)]: the square root of the sample variance.  With an
    infinity or a NaN in the data [mss] is a float, and reading its
    [numerator] raises [AttributeError]. *)
Definition stdev (data : list float) : result float :=
  let '(ss, n) := _ss data in
  if (n <? 2)%Z then Raise StatisticsError
  else
    match ss with
    | Exact q =>
        let mss := Qred (q / inject_Z (n - 1)) in
        _float_sqrt_of_frac (Qnum mss) (Zpos (Qden mss))
    | Special _ => Raise AttributeError
    end.

End statistics.

(** ** [numpy.percentile] with its default method, linear interpolation *)

Module np.

(** [np.floor(x)] followed by the conversion to an index. *)
Definition floor (x : float) : Z :=
  match Prim2SF x with
  | S754_finite s m e =>
      let n := if s then Zneg m else Zpos m in
      match e with
      | Zneg k => Z.shiftr n (Zpos k)
      | _ => (n * 2 ^ e)%Z
      end
  | _ => 0%Z
  end.

(** [arr[i]], where a negative index counts from the end. *)
Definition take (arr : list float) (i : Z) : float :=
  let n := Z.of_nat (List.length arr) in
  nth (Z.to_nat (if (i <? 0)%Z then n + i else i)) arr nan.

(** [_lerp(a, b, t)] *)
Definition _lerp (a b t : float) : float :=
  let diff_b_a := (b - a)%float in
  if (0.5 <=? t)%float then (b - diff_b_a * (1 - t))%float
  else (a + diff_b_a * t)%float.

(** [np.percentile(a, q)] for a list [a] and a single percentage [q].  The
    array is only partitioned by numpy; the elements it reads are those a
    full sort puts at the two neighbouring ranks.  A NaN anywhere in the
    array makes the result NaN. *)
Definition percentile (a : list float) (q : Z) : result float :=
  let values_count := Z.of_nat (List.length a) in
  if (values_count =? 0)%Z then Raise IndexError
  else
    let quantile := (PyInt.to_float q / 100)%float in
    let virtual_index := (PyInt.to_float (values_count - 1) * quantile)%float in
    let above := (PyInt.to_float (values_count - 1) <=? virtual_index)%float in
    let below := (virtual_index <? 0)%float in
    let previous_index :=
      if below then 0%Z else if above then (-1)%Z else floor virtual_index in
    let next_index :=
      if below then 0%Z else if above then (-1)%Z else (floor virtual_index + 1)%Z in
    let arr := builtins.sorted a in
    if existsb is_nan a then Ok nan
    else
      let previous := take arr previous_index in
      let next := take arr next_index in
      let gamma := (virtual_index - PyInt.to_float previous_index)%float in
      Ok (_lerp previous next gamma).

End np.

(** ** [DatasetAnalyzer._calculate_statistical_metrics] *)

(** The returned dictionary, one field per key. *)
Module metrics.
Record t : Type := mk {
  mean : float;
  median : float;
  std_dev : float;
  variance : float;
  min : float;
  max : float;
  range : float;
  q1 : float;
  q3 : float;
  iqr : float
}.
End metrics.

(** The dictionary display evaluates its values in order, so the first
    library call that raises decides the exception. *)
Definition _calculate_statistical_metrics (errors : list float) : result metrics.t :=
  (mean <- statistics.mean errors ;;
   median <- statistics.median errors ;;
   std_dev <- statistics.stdev errors ;;
   variance <- statistics.variance errors ;;
   min <- builtins.min errors ;;
   max <- builtins.max errors ;;
   range_max <- builtins.max errors ;;
   range_min <- builtins.min errors ;;
   q1 <- np.percentile errors StatisticalMetrics.Q1_PERCENTILE ;;
   q3 <- np.percentile errors StatisticalMetrics.Q3_PERCENTILE ;;
   iqr_q3 <- np.percentile errors StatisticalMetrics.Q3_PERCENTILE ;;
   iqr_q1 <- np.percentile errors StatisticalMetrics.Q1_PERCENTILE ;;
   Ok {| metrics.mean := mean;
         metrics.median := median;
         metrics.std_dev := std_dev;
         metrics.variance := variance;
         metrics.min := min;
         metrics.max := max;
         metrics.range := (range_max - range_min)%float;
         metrics.q1 := q1;
         metrics.q3 := q3;
         metrics.iqr := (iqr_q3 - iqr_q1)%float |})%py.

Module DisplaySettings.
Definition DECIMAL_PLACES : nat := 2.
Definition SCIENTIFIC_NOTATION_PLACES : nat := 2.
Definition ERROR_DECIMAL_PLACES : nat := 4.
End DisplaySettings.

Module DisplayStrings.
Definition SET_PREFIX : string := "Set ".
Definition TARGET_VALUES_HEADER : string := "TARGET VALUES".
Definition AVAILABLE_NUMBERS_HEADER : string := "AVAILABLE NUMBERS".
End DisplayStrings.

(** ** Python runtime: [range], [chr], dictionaries, formatted strings *)

(** [range(start, stop, step)] for a positive [step]. *)
Definition range (start stop step : nat) : list nat :=
  map (fun k => start + k * step)%nat
      (seq 0 ((stop - start + (step - 1)) / step)).

(** [chr(n)] for a code point below 256: a string of one character. *)
Definition chr (n : nat) : string := String (Ascii.ascii_of_nat n) EmptyString.

(** A [dict] with string keys, in insertion order.  [d[k] = v] replaces the
    value of a key that is present and keeps its place, and appends a new
    key at the end. *)
Fixpoint setitem {V : Type} (d : list (string * V)) (k : string) (v : V)
  : list (string * V) :=
  match d with
  | [] => [(k, v)]
  | (k', v') :: rest =>
      if String.eqb k' k then (k', v) :: rest else (k', v') :: setitem rest k v
  end.

(** The parts of an f-string: literal text, and floats with the format
    they are printed in ([:.2f], [:.2e]).  Formatting a float cannot fail,
    so the digits themselves are not computed here. *)
Inductive fragment : Type :=
| Lit (s : string)
| Fixed (places : nat) (x : float)
| Scientific (places : nat) (x : float).

Definition fstring : Type := list fragment.

(** ** The [pandas] frame the analyzer reads *)

Module pd.

(** A cell of a frame read by [read_csv]: a float (NaN for a missing
    field), an integer, or text. *)
Inductive scalar : Type :=
| Float (x : float)
| Int (n : Z)
| Str (s : string).

(** A frame is rectangular: [shape] is [(rows, columns)] and every position
    within it holds a cell. *)
Record DataFrame : Type := mk_DataFrame {
  shape : nat * nat;
  values : nat -> nat -> scalar
}.

(** [df.iloc[row, col]] for non-negative positions. *)
Definition iloc (df : DataFrame) (row col : nat) : result scalar :=
  if (row <? fst (shape df))%nat && (col <? snd (shape df))%nat
  then Ok (values df row col)
  else Raise IndexError.

(** [df.iloc[start:, col]]: the slice of rows is clipped to the frame, the
    column position is checked. *)
Definition iloc_from (df : DataFrame) (start col : nat) : result (list scalar) :=
  if (col <? snd (shape df))%nat
  then Ok (map (fun row => values df row col)
               (seq start (fst (shape df) - start)))
  else Raise IndexError.

(** [pd.notna(val)] *)
Definition notna (val : scalar) : bool :=
  match val with
  | Float x => negb (is_nan x)
  | Int _ | Str _ => true
  end.

End pd.

(** [val != ""]: only the empty text equals [""]. *)
Definition not_empty (val : pd.scalar) : bool :=
  match val with
  | pd.Str s => negb (String.eqb s "")
  | pd.Float _ | pd.Int _ => true
  end.

(** One value of [self.results]. *)
Record result_entry : Type := mk_result_entry {
  entry_target : float;
  entry_result : option float;
  entry_error : float
}.

(** What [_display_input_data] prints: the arguments of [tabulate] and the
    three numbers of the summary. *)
Record input_display : Type := mk_input_display {
  headers : list fstring;
  all_data : list (list fstring);
  number_of_sets : Z;
  numbers_per_set : nat;
  total_data_points : Z
}.

(** What [analyze] prints and stores. *)
Record report : Type := mk_report {
  input_data : input_display;
  results : list (string * result_entry);
  table_data : list (list fstring);
  all_errors : list float;
  error_metrics : metrics.t;
  stats_table : list (list fstring);
  tolerance : list tolerance_row;
  conclusion_table : list (list fstring)
}.

Section Analyzer.

(** [float(s)] for a string: the float the text denotes, or nothing when
    Python raises [ValueError]. *)
Variable float_of_str : string -> option float.

(** [float(val)] for a cell.  An integer converts to the nearest float;
    when that rounding leaves the float range Python raises
    [OverflowError] (a cell of object dtype can hold such an integer). *)
Definition float_of (val : pd.scalar) : result float :=
  match val with
  | pd.Float x => Ok x
  | pd.Int n =>
      let x := PyInt.to_float n in
      if is_infinity x then Raise OverflowError else Ok x
  | pd.Str s =>
      match float_of_str s with
      | Some x => Ok x
      | None => Raise ValueError
      end
  end.

(** ** [DatasetAnalyzer._display_input_data] *)

Definition _display_input_data (df : pd.DataFrame) : result input_display :=
  let sets := Z.to_nat CSVIndex.SETS_COUNT in
  let headers :=
    fold_left (fun headers i =>
        let set_name := chr (65 + i) in
        headers ++ [[Lit DisplayStrings.SET_PREFIX; Lit set_name]; [Lit ""]])
      (range 0 sets 1) [] in
  (target_row <-
     for_each (fun target_row i =>
         target <- pd.iloc df CSVIndex.TARGET_ROW i ;;
         x <- float_of target ;;
         Ok (target_row ++ [[Fixed DisplaySettings.DECIMAL_PLACES x]; [Lit ""]]))
       (range 0 (sets * CSVIndex.COLUMN_STEP) CSVIndex.COLUMN_STEP) [] ;;
   number_rows <-
     for_each (fun number_rows row_idx =>
         row_data <-
           for_each (fun row_data col_idx =>
               val <- pd.iloc df row_idx col_idx ;;
               if pd.notna val && not_empty val then
                 x <- float_of val ;;
                 Ok (row_data ++ [[Fixed DisplaySettings.DECIMAL_PLACES x]; [Lit ""]])
               else Ok (row_data ++ [[Lit ""]; [Lit ""]]))
             (range 0 (sets * CSVIndex.COLUMN_STEP) CSVIndex.COLUMN_STEP) [] ;;
         Ok (number_rows ++ [row_data]))
       (range CSVIndex.DATA_START_ROW (fst (pd.shape df)) 1) [] ;;
   let all_data :=
     [ [Lit DisplayStrings.TARGET_VALUES_HEADER] :: repeat [Lit ""] (sets * 2 - 1);
       target_row;
       [Lit DisplayStrings.AVAILABLE_NUMBERS_HEADER] :: repeat [Lit ""] (sets * 2 - 1) ]
     ++ number_rows in
   Ok {| headers := headers;
         all_data := all_data;
         number_of_sets := CSVIndex.SETS_COUNT;
         numbers_per_set := List.length number_rows;
         total_data_points :=
           (CSVIndex.SETS_COUNT * Z.of_nat (List.length number_rows))%Z |})%py.

(** ** [DatasetAnalyzer._parse_dataset] *)

(** The inner loop: the cells of one column that are present, as floats. *)
Definition column_numbers (column : list pd.scalar) : result (list float) :=
  for_each (fun numbers val =>
      if pd.notna val && not_empty val then
        (x <- float_of val ;; Ok (numbers ++ [x]))%py
      else Ok numbers)
    column [].

Definition _parse_dataset (df : pd.DataFrame) : result (list (string * dataset)) :=
  let sets := Z.to_nat CSVIndex.SETS_COUNT in
  for_each (fun datasets i =>
      let set_name := chr (65 + i / CSVIndex.COLUMN_STEP) in
      (cell <- pd.iloc df CSVIndex.TARGET_ROW i ;;
       target <- float_of cell ;;
       column <- pd.iloc_from df CSVIndex.DATA_START_ROW i ;;
       numbers <- column_numbers column ;;
       Ok (setitem datasets set_name {| target := target; numbers := numbers |}))%py)
    (range 0 (sets * CSVIndex.COLUMN_STEP) CSVIndex.COLUMN_STEP) [].

(** ** [DatasetAnalyzer.analyze] *)

(** The state of the loop of STEP 1: [self.results], [table_data] and
    [all_errors]. *)
Definition validation : Type :=
  (list (string * result_entry) * list (list fstring) * list float)%type.

(** The body of the loop over [datasets.items()].  Formatting [result] with
    [:.2e] raises [TypeError] when it is [None]. *)
Definition validate_dataset (st : validation) (item : string * dataset)
  : result validation :=
  let '(results, table_data, all_errors) := st in
  let '(set_name, data) := item in
  (found <- best_match data ;;
   let '(result, error, _) := found in
   let results :=
     setitem results set_name
       {| entry_target := target data;
          entry_result := result;
          entry_error := error |} in
   match result with
   | None => Raise TypeError
   | Some r =>
       let row :=
         [ [Lit DisplayStrings.SET_PREFIX; Lit set_name];
           [Scientific DisplaySettings.SCIENTIFIC_NOTATION_PLACES (target data)];
           [Scientific DisplaySettings.SCIENTIFIC_NOTATION_PLACES r];
           [Fixed DisplaySettings.ERROR_DECIMAL_PLACES error];
           [Scientific DisplaySettings.SCIENTIFIC_NOTATION_PLACES
              (abs (r - target data))] ] in
       Ok (results, table_data ++ [row], all_errors ++ [error])
   end)%py.

(** A run of [analyze] on an analyzer whose [results] are still empty, as
    [__init__] leaves them. *)
Definition analyze (df : pd.DataFrame) : result report :=
  (input_data <- _display_input_data df ;;
   datasets <- _parse_dataset df ;;
   step1 <- for_each validate_dataset datasets ([], [], []) ;;
   let '(results, table_data, all_errors) := step1 in
   metrics <- _calculate_statistical_metrics all_errors ;;
   let places := DisplaySettings.ERROR_DECIMAL_PLACES in
   let stats_table :=
     [ [ [Lit "Central Tendency"];
         [Lit "μ = "; Fixed places (metrics.mean metrics); Lit "%"];
         [Lit "M = "; Fixed places (metrics.median metrics); Lit "%"] ];
       [ [Lit "Dispersion"];
         [Lit "σ = "; Fixed places (metrics.std_dev metrics); Lit "%"];
         [Lit "σ² = "; Fixed places (metrics.variance metrics)] ];
       [ [Lit "Range"];
         [Lit "min = "; Fixed places (metrics.min metrics); Lit "%"];
         [Lit "max = "; Fixed places (metrics.max metrics); Lit "%"] ];
       [ [Lit "Quartiles"];
         [Lit "Q₁ = "; Fixed places (metrics.q1 metrics); Lit "%"];
         [Lit "Q₃ = "; Fixed places (metrics.q3 metrics); Lit "%"] ] ] in
   tolerance_table <- tolerance_table all_errors ;;
   let '(reliability, notes) := reliability_rating (metrics.max metrics) in
   let conclusion_table :=
     [ [ [Lit "Reliability Rating:"]; [Lit reliability] ];
       [ [Lit "Maximum Error (ε_max):"];
         [Fixed places (metrics.max metrics); Lit "%"] ];
       [ [Lit "Mean Error (μ_ε):"];
         [Fixed places (metrics.mean metrics); Lit "%"] ];
       [ [Lit "Standard Deviation (σ_ε):"];
         [Fixed places (metrics.std_dev metrics); Lit "%"] ];
       [ [Lit "Assessment:"]; [Lit notes] ] ] in
   Ok {| input_data := input_data;
         results := results;
         table_data := table_data;
         all_errors := all_errors;
         error_metrics := metrics;
         stats_table := stats_table;
         tolerance := tolerance_table;
         conclusion_table := conclusion_table |})%py.

End Analyzer.

(** * Specification vocabulary *)

(** ** Order keys of binary64 values

    Every float that is not a NaN gets a triple of integers whose
    lexicographic order is the order of the floats; the two zeros share one
    key. *)

Definition key (f : spec_float) : option (Z * Z * Z) :=
  match f with
  | S754_nan => None
  | S754_zero _ => Some (0, 0, 0)%Z
  | S754_infinity false => Some (2, 0, 0)%Z
  | S754_infinity true => Some (-2, 0, 0)%Z
  | S754_finite false m e => Some (1, e, Zpos m)%Z
  | S754_finite true m e => Some (-1, - e, Zneg m)%Z
  end.

Definition fkey (x : float) : option (Z * Z * Z) := key (Prim2SF x).

Definition lex_lt (a b : Z * Z * Z) : Prop :=
  let '(a1, a2, a3) := a in
  let '(b1, b2, b3) := b in
  (a1 < b1 \/ (a1 = b1 /\ (a2 < b2 \/ (a2 = b2 /\ a3 < b3))))%Z.

Definition key_lt (a b : option (Z * Z * Z)) : Prop :=
  match a, b with
  | Some a, Some b => lex_lt a b
  | _, _ => False
  end.

Definition key_eq (a b : option (Z * Z * Z)) : Prop :=
  match a, b with
  | Some (a1, a2, a3), Some (b1, b2, b3) => (a1 = b1 /\ a2 = b2 /\ a3 = b3)%Z
  | _, _ => False
  end.

Ltac key_cases :=
  unfold key_lt, key_eq, lex_lt in *;
  repeat match goal with
  | |- context [match ?k with Some _ => _ | None => _ end] =>
      destruct k as [[[? ?] ?]|]
  | H : context [match ?k with Some _ => _ | None => _ end] |- _ =>
      destruct k as [[[? ?] ?]|]
  end.

Ltac key_solve := key_cases; try discriminate; try tauto; try lia.

(** Membership in an explicit list, one case per element. *)
Ltac in_cases H := repeat (destruct H as [<-|H]); [..|destruct H].

(** Signs of binary64 values: not negative (a NaN has no sign), and
    strictly positive. *)
Definition nonneg (f : spec_float) : Prop :=
  match f with
  | S754_nan => True
  | S754_zero s | S754_infinity s | S754_finite s _ _ => s = false
  end.

Definition strictly_positive (f : spec_float) : Prop :=
  match f with
  | S754_infinity false | S754_finite false _ _ => True
  | _ => False
  end.

(** Two floats have the same value: they are the same float, or they
    compare equal with [==] (which identifies [0.0] and [-0.0]). *)
Definition same_value (x y : float) : Prop :=
  x = y \/ (x =? y)%float = true.

(** ** The search, as the specification words it *)

(** [(n1 * n2) / n3] *)
Definition formula (c : combination) : float :=
  let '(n1, n2, n3) := c in (n1 * n2 / n3)%float.

(** [|result - target| / target * 100] *)
Definition percentage_error (target : float) (c : combination) : float :=
  (abs (formula c - target) / target * 100)%float.

(** A triple is valid when its third component is not zero. *)
Definition valid (c : combination) : bool :=
  let '(_, _, n3) := c in negb (n3 =? 0)%float.

(** The update of the running best by a scored triple. *)
Definition select (target : float) (st : search_state) (c : combination)
  : search_state :=
  if (percentage_error target c <? best_error st)%float
  then {| best_error := percentage_error target c;
          best_result := Some (formula c);
          best_combination := Some c |}
  else st.

Definition pure_step (target : float) (st : search_state) (c : combination)
  : search_state :=
  if valid c then select target st c else st.

(** The search that scores every triple of a list from which the triples
    with a zero divisor have been removed beforehand. *)
Definition search_scored_only (numbers : list float) (target : float)
  : result (option float * float * option combination) :=
  (st <- for_each (score_and_update target) (filter valid (product3 numbers))
           initial_state ;;
   Ok (best_result st, best_error st, best_combination st))%py.

(** The loop invariant once the triples [seen] have been processed. *)
Record search_inv (target : float) (seen : list combination) (st : search_state)
  : Prop := {
  inv_minimal : forall c, In c seen -> valid c = true ->
    (percentage_error target c <? best_error st)%float = false;
  inv_best :
    match best_combination st with
    | Some c => exists pre post,
        seen = pre ++ c :: post /\ valid c = true /\
        best_error st = percentage_error target c /\
        best_result st = Some (formula c) /\
        (best_error st <? infinity)%float = true /\
        (forall t, In t pre -> valid t = true ->
           (percentage_error target t =? best_error st)%float = false)
    | None => best_error st = infinity /\ best_result st = None
    end
}.

Definition best_is_valid (st : search_state) : Prop :=
  match best_combination st with
  | Some c => valid c = true
  | None => True
  end.

(** The returned error is not negative and no valid triple of the product
    has a strictly smaller percentage error. *)
Definition minimal_nonnegative (numbers : list float) (target : float) : Prop :=
  exists r e c,
    _find_best_combination numbers target = Ok (r, e, c) /\
    (0 <=? e)%float = true /\
    forall n1 n2 n3, In n1 numbers -> In n2 numbers -> In n3 numbers ->
      (n3 =? 0)%float = false ->
      (percentage_error target (n1, n2, n3) <? e)%float = false.

(** [c], met after the triples [pre] and before the triples [post], is the
    first valid triple of the product whose percentage error is minimal. *)
Definition first_minimal (numbers : list float) (target : float)
  (pre : list combination) (c : combination) (post : list combination) : Prop :=
  product3 numbers = pre ++ c :: post /\
  valid c = true /\
  (forall t, In t (product3 numbers) -> valid t = true ->
     (percentage_error target t <? percentage_error target c)%float = false) /\
  (forall t, In t pre -> valid t = true ->
     (percentage_error target t =? percentage_error target c)%float = false).

(** A later valid triple has the same percentage error as [c]. *)
Definition tied (target : float) (c : combination) (post : list combination)
  : Prop :=
  exists t, In t post /\ valid t = true /\
    (percentage_error target t =? percentage_error target c)%float = true.

(** Whenever several valid triples share the minimal error, the first of
    them is the returned combination. *)
Definition ties_go_to_first (numbers : list float) (target : float) : Prop :=
  forall pre c post,
    first_minimal numbers target pre c post -> tied target c post ->
    exists r e, _find_best_combination numbers target = Ok (r, e, Some c).

(** A call ends with an exception. *)
Definition signals_error {A : Type} (r : result A) : Prop :=
  exists e, r = Raise e.

(** ** Statistics, as the specification words them *)

(** The exact values of the finite items of [data]. *)
Definition values (data : list float) : list Q :=
  flat_map (fun x => match statistics._exact_ratio x with
                     | Some q => [q]
                     | None => []
                     end) data.

Definition Qsum (l : list Q) : Q := fold_right Qplus 0%Q l.

(** The mean [sum(x) / n] as an exact fraction. *)
Definition sample_mean (data : list float) : Q :=
  (Qsum (values data) / inject_Z (Z.of_nat (List.length data)))%Q.

Definition squared_deviation (c q : Q) : Q := ((q - c) * (q - c))%Q.

(** The sample variance [sum((x - mean)^2) / (n - 1)] as an exact fraction. *)
Definition sample_variance (data : list float) : Q :=
  (Qsum (map (squared_deviation (sample_mean data)) (values data))
   / inject_Z (Z.of_nat (List.length data) - 1))%Q.

Local Open Scope float_scope.

(** The float square root of a fraction, as [stdev] takes it. *)
Definition sqrt_of_fraction (q : Q) : result float :=
  let r := Qred q in statistics._float_sqrt_of_frac (Qnum r) (Zpos (Qden r)).

(** The example list of the docstring and of the specification. *)
Definition example_errors : list float := [1.2; 2.3; 0.8; 1.5].

(** The figures the specification gives for the example list, read with
    [==] on floats. *)
Definition example_figures : Prop :=
  exists m, _calculate_statistical_metrics example_errors = Ok m /\
    (metrics.mean m =? 1.45)%float = true /\
    (metrics.min m =? 0.8)%float = true /\
    (metrics.max m =? 2.3)%float = true /\
    (metrics.range m =? 1.5)%float = true.

(** The order of keys, and of floats through their keys. *)
Definition key_le (a b : option (Z * Z * Z)) : Prop := key_lt a b \/ a = b.

Definition fle (x y : float) : Prop := key_le (fkey x) (fkey y).

Definition no_nan (l : list float) : Prop := Forall (fun x => fkey x <> None) l.

(** Two library calls end alike: with floats of the same key, or with the
    same exception. *)
Definition same_key_result (r r' : result float) : Prop :=
  match r, r' with
  | Ok a, Ok a' => fkey a = fkey a'
  | Raise e, Raise e' => e = e'
  | _, _ => False
  end.

(** Every statistic of [m] has the same value as that of [m']. *)
Definition same_metrics (m m' : metrics.t) : Prop :=
  same_value (metrics.mean m) (metrics.mean m') /\
  same_value (metrics.median m) (metrics.median m') /\
  same_value (metrics.std_dev m) (metrics.std_dev m') /\
  same_value (metrics.variance m) (metrics.variance m') /\
  same_value (metrics.min m) (metrics.min m') /\
  same_value (metrics.max m) (metrics.max m') /\
  same_value (metrics.range m) (metrics.range m') /\
  same_value (metrics.q1 m) (metrics.q1 m') /\
  same_value (metrics.q3 m) (metrics.q3 m') /\
  same_value (metrics.iqr m) (metrics.iqr m').

(** Two calls end alike: with records of the same values, or with the same
    exception. *)
Definition same_outcome (r r' : result metrics.t) : Prop :=
  match r, r' with
  | Ok m, Ok m' => same_metrics m m'
  | Raise e, Raise e' => e = e'
  | _, _ => False
  end.

Ltac same_key_cases H r r' a a' :=
  destruct r as [a|?], r' as [a'|?]; cbn [same_key_result] in H;
  try contradiction; cbn [bind]; [|subst; reflexivity].

(** The sample formulas hold for [errors]: a record is returned and its
    dispersion statistics are the sample ones. *)
Definition sample_formulas (errors : list float) : Prop :=
  exists m, _calculate_statistical_metrics errors = Ok m /\
    statistics.fraction_to_float (sample_variance errors) = Ok (metrics.variance m) /\
    sqrt_of_fraction (sample_variance errors) = Ok (metrics.std_dev m) /\
    metrics.range m = (metrics.max m - metrics.min m)%float /\
    metrics.iqr m = (metrics.q3 m - metrics.q1 m)%float.

(** No item is the negative zero [-0.0]. *)
Definition no_negative_zero (l : list float) : Prop :=
  Forall (fun x => x <> (-0)%float) l.

(** The two calls end in exactly the same way, float for float. *)
Definition identical_metrics (errors errors' : list float) : Prop :=
  _calculate_statistical_metrics errors = _calculate_statistical_metrics errors'.

(** Two finite values whose sample variance is beyond the float range. *)
Definition opposite_extremes : list float := [-1e308; 1e308]%float.

(** The two zeros, in both orders. *)
Definition zero_first : list float := [0; -0]%float.
Definition negative_zero_first : list float := [-0; 0]%float.

(** ** The search, seen from the pool *)

(** Two pools hold the same numbers, whatever their order and however often
    each number occurs. *)
Definition same_members (l l' : list float) : Prop := forall x, In x l <-> In x l'.

(** Two searches end alike as far as the error goes: both raise the same
    exception, or both return, with errors of the same value, and a
    combination in both or in neither. *)
Definition same_best_error
  (r r' : result (option float * float * option combination)) : Prop :=
  match r, r' with
  | Ok (_, e, c), Ok (_, e', c') => same_value e e' /\ (c = None <-> c' = None)
  | Raise x, Raise x' => x = x'
  | _, _ => False
  end.

(** Not positive: the sign bit is set, or the float is a NaN. *)
Definition nonpos (f : spec_float) : Prop :=
  match f with
  | S754_nan => True
  | S754_zero s | S754_infinity s | S754_finite s _ _ => s = true
  end.

Definition strictly_negative (f : spec_float) : Prop :=
  match f with
  | S754_infinity true | S754_finite true _ _ => True
  | _ => False
  end.

(** ** The frame, as the analyzer reads it *)

(** The names of the eight sets, in the order of their columns. *)
Definition set_names : list string :=
  ["A"; "B"; "C"; "D"; "E"; "F"; "G"; "H"]%string.

(** A cell counts as a number of its set: it is neither missing nor the
    empty text. *)
Definition present (val : pd.scalar) : bool := pd.notna val && not_empty val.

(** The cells of column [col] from [DATA_START_ROW] on. *)
Definition data_cells (df : pd.DataFrame) (col : nat) : list pd.scalar :=
  map (fun row => pd.values df row col)
      (seq CSVIndex.DATA_START_ROW (fst (pd.shape df) - CSVIndex.DATA_START_ROW)).

(** A frame from its rows; a position outside the rows holds a missing
    value. *)
Definition frame_of_rows (columns : nat) (rows : list (list pd.scalar)) : pd.DataFrame :=
  {| pd.shape := (List.length rows, columns);
     pd.values := fun row col => nth col (nth row rows []) (pd.Float nan) |}.

(** A small file as [read_csv] returns it: headings, the targets in row 3,
    the numbers from row 6 on, an empty column after every set; set B lacks
    its second number and set C has text cells. *)
Definition example_rows : list (list pd.scalar) :=
  let gap := pd.Float nan in
  let heading := pd.Str "Set" in
  let row (a b c : pd.scalar) (rest : float) :=
    [a; gap; b; gap; c; gap; pd.Float rest; gap; pd.Float rest; gap;
     pd.Float rest; gap; pd.Float rest; gap; pd.Float rest] in
  [ row heading heading heading nan;
    row gap gap gap nan;
    row (pd.Str "Target") (pd.Str "Target") (pd.Str "Target") nan;
    row (pd.Float 1) (pd.Int 4) (pd.Str "2.5") 10;
    row gap gap gap nan;
    row (pd.Str "Numbers") (pd.Str "Numbers") (pd.Str "Numbers") nan;
    row (pd.Float 2) (pd.Float 3) (pd.Str "10") 4;
    row (pd.Float 5) gap (pd.Str "2.5") 5;
    row (pd.Float 10) (pd.Float 5) (pd.Int 4) 8 ].

Definition example_frame : pd.DataFrame := frame_of_rows 15 example_rows.

(** The same file cut after its third row. *)
Definition short_frame : pd.DataFrame := frame_of_rows 15 (firstn 3 example_rows).

(** The dictionary [_parse_dataset] returns on the example. *)
Definition example_datasets : list (string * dataset) :=
  [ ("A", mk_dataset 1 [2; 5; 10]); ("B", mk_dataset 4 [3; 5]);
    ("C", mk_dataset 2.5 [10; 2.5; 4]); ("D", mk_dataset 10 [4; 5; 8]);
    ("E", mk_dataset 10 [4; 5; 8]); ("F", mk_dataset 10 [4; 5; 8]);
    ("G", mk_dataset 10 [4; 5; 8]); ("H", mk_dataset 10 [4; 5; 8]) ]%string.

(** The numbers a table shows in column [col]: the floats of its cells
    that are one formatted float. *)
Definition shown_numbers (rows : list (list fstring)) (col : nat) : list float :=
  flat_map (fun row => match nth col row [] with
                       | [Fixed _ x] => [x]
                       | _ => []
                       end) rows.

(** The texts of the example and the floats Python reads them as. *)
Definition example_float_of_str (s : string) : option float :=
  if String.eqb s "2.5" then Some 2.5%float
  else if String.eqb s "10" then Some 10%float
  else None.

(** Two frames of the same height, both with the eight set columns, that
    hold the same cells wherever the analyzer reads: the target row and the
    rows from [DATA_START_ROW] on, in the set columns. *)
Definition same_read_cells (df df' : pd.DataFrame) : Prop :=
  fst (pd.shape df) = fst (pd.shape df') /\
  (14 < snd (pd.shape df))%nat /\ (14 < snd (pd.shape df'))%nat /\
  forall row k, (k < 8)%nat ->
    row = CSVIndex.TARGET_ROW \/ (CSVIndex.DATA_START_ROW <= row)%nat ->
    pd.values df row (2 * k) = pd.values df' row (2 * k).

(** The example with the rows 4 and 5, the heading rows and every separator
    column filled with a number, and with a sixteenth column. *)
Definition example_frame_annotated : pd.DataFrame :=
  {| pd.shape := (9%nat, 16%nat);
     pd.values := fun row col =>
       if Nat.even col && (col <? 15)%nat
          && ((row =? CSVIndex.TARGET_ROW)%nat || (CSVIndex.DATA_START_ROW <=? row)%nat)
       then pd.values example_frame row col
       else pd.Float 7 |}.

(** The example with an integer beyond the float range as the first
    number of set A. *)
Definition overflowing_frame : pd.DataFrame :=
  {| pd.shape := pd.shape example_frame;
     pd.values := fun row col =>
       if (row =? CSVIndex.DATA_START_ROW)%nat && (col =? 0)%nat
       then pd.Int (10 ^ 400)
       else pd.values example_frame row col |}.

Section FrameSpec.

Variable float_of_str : string -> option float.

(** One iteration of [_parse_dataset], without the dictionary. *)
Definition parse_column (df : pd.DataFrame) (i : nat) : result dataset :=
  (cell <- pd.iloc df CSVIndex.TARGET_ROW i ;;
   target <- float_of float_of_str cell ;;
   column <- pd.iloc_from df CSVIndex.DATA_START_ROW i ;;
   numbers <- column_numbers float_of_str column ;;
   Ok {| target := target; numbers := numbers |})%py.

(** [float(val)] returns. *)
Definition converts (val : pd.scalar) : Prop :=
  exists x, float_of float_of_str val = Ok x.

(** The frame has the target row and the eight set columns, and every cell
    the analyzer converts is a number. *)
Definition readable (df : pd.DataFrame) : Prop :=
  (CSVIndex.TARGET_ROW < fst (pd.shape df))%nat /\
  (14 < snd (pd.shape df))%nat /\
  forall k, (k < 8)%nat ->
    converts (pd.values df CSVIndex.TARGET_ROW (2 * k)) /\
    forall row, (CSVIndex.DATA_START_ROW <= row < fst (pd.shape df))%nat ->
      present (pd.values df row (2 * k)) = true ->
      converts (pd.values df row (2 * k)).

(** [float(val)] raises [x] on a cell the analyzer converts: the target of
    a set, or a cell of a set column from row 6 on that is neither missing
    nor empty. *)
Definition unconvertible (df : pd.DataFrame) (x : exn) : Prop :=
  exists row k,
    (k < 8)%nat /\ (row < fst (pd.shape df))%nat /\
    (row = CSVIndex.TARGET_ROW \/
     (CSVIndex.DATA_START_ROW <= row)%nat /\
     present (pd.values df row (2 * k)) = true) /\
    float_of float_of_str (pd.values df row (2 * k)) = Raise x.

(** The target of one set, as [_display_input_data] reads it. *)
Definition target_value (df : pd.DataFrame) (i : nat) : result float :=
  (cell <- pd.iloc df CSVIndex.TARGET_ROW i ;; float_of float_of_str cell)%py.

(** One cell of the table of available numbers: its number when it is
    present. *)
Definition shown_cell (df : pd.DataFrame) (row col : nat) : result (option float) :=
  (val <- pd.iloc df row col ;;
   if pd.notna val && not_empty val
   then x <- float_of float_of_str val ;; Ok (Some x)
   else Ok None)%py.

Definition cell_text (shown : option float) : list fstring :=
  match shown with
  | Some x => [[Fixed DisplaySettings.DECIMAL_PLACES x]; [Lit ""]]
  | None => [[Lit ""]; [Lit ""]]
  end.

(** One row of the table of available numbers. *)
Definition display_row (df : pd.DataFrame) (row : nat) : result (list fstring) :=
  for_each (fun row_data col =>
      bind (shown_cell df row col) (fun shown => Ok (row_data ++ cell_text shown)))
    [0; 2; 4; 6; 8; 10; 12; 14]%nat [].

End FrameSpec.

(** ** STEP 1 of [analyze], one dataset at a time *)

(** The result and the error of one dataset, as the loop body uses them. *)
Definition scored (data : dataset) : result (float * float) :=
  (found <- best_match data ;;
   let '(result, error, _) := found in
   match result with
   | Some r => Ok (r, error)
   | None => Raise TypeError
   end)%py.

(** The update of [self.results], [table_data] and [all_errors] by one
    dataset with its result and error. *)
Definition record_dataset (st : validation) (item : string * dataset)
  (scored : float * float) : validation :=
  let '(results, table_data, all_errors) := st in
  let '(r, error) := scored in
  (setitem results (fst item)
     {| entry_target := target (snd item);
        entry_result := Some r;
        entry_error := error |},
   table_data ++
     [ [ [Lit DisplayStrings.SET_PREFIX; Lit (fst item)];
         [Scientific DisplaySettings.SCIENTIFIC_NOTATION_PLACES (target (snd item))];
         [Scientific DisplaySettings.SCIENTIFIC_NOTATION_PLACES r];
         [Fixed DisplaySettings.ERROR_DECIMAL_PLACES error];
         [Scientific DisplaySettings.SCIENTIFIC_NOTATION_PLACES
            (abs (r - target (snd item)))] ] ],
   all_errors ++ [error]).

(** What [self.results] holds for a dataset: its target, the result of a
    triple of its numbers, and the percentage error of that triple, which
    no triple with a nonzero divisor undercuts. *)
Definition best_of (data : dataset) (entry : result_entry) : Prop :=
  entry_target entry = target data /\
  (entry_error entry <? infinity)%float = true /\
  (exists n1 n2 n3,
     In n1 (numbers data) /\ In n2 (numbers data) /\ In n3 (numbers data) /\
     (n3 =? 0)%float = false /\
     entry_result entry = Some (n1 * n2 / n3)%float /\
     entry_error entry
     = (abs (n1 * n2 / n3 - target data) / target data * 100)%float) /\
  forall n1 n2 n3,
    In n1 (numbers data) -> In n2 (numbers data) -> In n3 (numbers data) ->
    (n3 =? 0)%float = false ->
    (percentage_error (target data) (n1, n2, n3) <? entry_error entry)%float = false.

(** ** [analyze], stage by stage *)

Section AnalyzeSpec.
Variable float_of_str : string -> option float.


End AnalyzeSpec.

(** The thresholds of the three rows of the tolerance table. *)
Definition thresholds : list float :=
  [ErrorThreshold.EXCEPTIONAL; ErrorThreshold.SUPERIOR; ErrorThreshold.SATISFACTORY].

(** * Proofs *)

Local Open Scope float_scope.

(** ** The order of floats *)

Lemma SFcompare_key (x y : spec_float) :
  match SFcompare x y with
  | None => key x = None \/ key y = None
  | Some Lt => key_lt (key x) (key y)
  | Some Eq => key_eq (key x) (key y)
  | Some Gt => key_lt (key y) (key x)
  end.
Proof.
  destruct x as [sx|sx| |sx mx ex], y as [sy|sy| |sy my ey]; cbn [SFcompare key];
    auto; try (destruct sx); try (destruct sy); cbn; auto; try lia.
  all: change (Pos.compare_cont Eq mx my) with (Pos.compare mx my).
  all: destruct (Z.compare_spec ex ey); cbn; try lia.
  all: destruct (Pos.compare_spec mx my); cbn; try lia.
  all: subst; auto.
Qed.

Lemma ltb_key (x y : float) : (x <? y)%float = true <-> key_lt (fkey x) (fkey y).
Proof.
  rewrite FloatAxioms.ltb_spec. unfold SFltb, fkey.
  generalize (SFcompare_key (Prim2SF x) (Prim2SF y)).
  destruct (SFcompare (Prim2SF x) (Prim2SF y)) as [[]|]; intros H; split; intros H';
    try discriminate; try reflexivity; try assumption; exfalso.
  - key_solve.
  - key_solve.
  - destruct H as [H|H]; rewrite H in H'; key_solve.
Qed.

Lemma eqb_key (x y : float) : (x =? y)%float = true <-> key_eq (fkey x) (fkey y).
Proof.
  rewrite FloatAxioms.eqb_spec. unfold SFeqb, fkey.
  generalize (SFcompare_key (Prim2SF x) (Prim2SF y)).
  destruct (SFcompare (Prim2SF x) (Prim2SF y)) as [[]|]; intros H; split; intros H';
    try discriminate; try reflexivity; try assumption; exfalso.
  - key_solve.
  - key_solve.
  - destruct H as [H|H]; rewrite H in H'; key_solve.
Qed.

Lemma leb_key (x y : float) :
  (x <=? y)%float = true <-> key_lt (fkey x) (fkey y) \/ key_eq (fkey x) (fkey y).
Proof.
  rewrite FloatAxioms.leb_spec. unfold SFleb, fkey.
  generalize (SFcompare_key (Prim2SF x) (Prim2SF y)).
  destruct (SFcompare (Prim2SF x) (Prim2SF y)) as [[]|]; intros H; split; intros H';
    try discriminate; try reflexivity; try tauto; exfalso.
  - key_solve.
  - destruct H as [H|H]; rewrite H in H'; key_solve.
Qed.

Lemma ltb_irrefl (x : float) : (x <? x)%float = false.
Proof.
  destruct (x <? x)%float eqn:E; [|reflexivity].
  apply ltb_key in E. key_solve.
Qed.

Lemma ltb_trans (x y z : float) :
  (x <? y)%float = true -> (y <? z)%float = true -> (x <? z)%float = true.
Proof.
  rewrite !ltb_key. intros. key_solve.
Qed.

Lemma eqb_ltb_trans (x y z : float) :
  (x =? y)%float = true -> (y <? z)%float = true -> (x <? z)%float = true.
Proof.
  rewrite !ltb_key, eqb_key. intros. key_solve.
Qed.

Lemma leb_not_ltb (a x : float) : (a <=? x)%float = true -> (x <? a)%float = false.
Proof.
  intros H. destruct (x <? a)%float eqn:E; [|reflexivity].
  apply ltb_key in E. apply leb_key in H. key_solve.
Qed.

Lemma fkey_infinity : fkey infinity = Some (2, 0, 0)%Z.
Proof. reflexivity. Qed.

Lemma fkey_zero : fkey 0 = Some (0, 0, 0)%Z.
Proof. reflexivity. Qed.

Lemma ltb_below_infinity (x y : float) : (x <? y) = true -> (x <? infinity) = true.
Proof.
  rewrite !ltb_key, fkey_infinity. unfold fkey.
  destruct (Prim2SF x) as [[]|[]| |[] ? ?], (Prim2SF y) as [[]|[]| |[] ? ?]; cbn; lia.
Qed.

Lemma ltb_total (x y : float) :
  (x <? infinity) = true -> (y <? infinity) = true ->
  (x <? y) = false -> (y <? x) = false -> (x =? y) = true.
Proof.
  intros Hx Hy Hxy Hyx. apply eqb_key.
  apply ltb_key in Hx, Hy.
  assert (~ key_lt (fkey x) (fkey y)) as Nxy by (rewrite <- ltb_key; congruence).
  assert (~ key_lt (fkey y) (fkey x)) as Nyx by (rewrite <- ltb_key; congruence).
  rewrite fkey_infinity in *. key_solve.
Qed.

Lemma binary_round_aux_nonneg (m e : Z) (l : location) :
  nonneg (binary_round_aux prec emax false m e l).
Proof.
  unfold binary_round_aux.
  destruct (shr_fexp prec emax m e l) as [mrs' e'].
  destruct (shr_fexp prec emax _ e' loc_Exact) as [mrs'' e''].
  destruct (shr_m mrs''); [reflexivity| |exact I].
  destruct (Z.leb e'' _); reflexivity.
Qed.

Lemma SFabs_nonneg (x : spec_float) : nonneg (SFabs x).
Proof. destruct x; cbn; auto. Qed.

Lemma SFdiv_nonneg (x y : spec_float) :
  nonneg x -> strictly_positive y -> nonneg (SFdiv prec emax x y).
Proof.
  destruct x as [sx|sx| |sx mx ex], y as [[]|[]| |[] my ey]; cbn [nonneg strictly_positive SFdiv];
    intros Hx Hy; try contradiction; try exact I; subst; try reflexivity.
  destruct (SFdiv_core_binary prec emax (Z.pos mx) ex (Z.pos my) ey) as [[mz ez] lz].
  apply binary_round_aux_nonneg.
Qed.

Lemma SFmul_nonneg (x y : spec_float) :
  nonneg x -> strictly_positive y -> nonneg (SFmul prec emax x y).
Proof.
  destruct x as [sx|sx| |sx mx ex], y as [[]|[]| |[] my ey]; cbn [nonneg strictly_positive SFmul];
    intros Hx Hy; try contradiction; try exact I; subst; try reflexivity.
  apply binary_round_aux_nonneg.
Qed.

Lemma positive_strictly (x : float) : (0 <? x) = true -> strictly_positive (Prim2SF x).
Proof.
  rewrite ltb_key, fkey_zero. unfold fkey.
  destruct (Prim2SF x) as [[]|[]| |[] ? ?]; cbn; try lia; auto.
Qed.

Lemma positive_nonzero (x : float) : (0 <? x) = true -> (x =? 0) = false.
Proof.
  intros H. destruct (x =? 0) eqn:E; [|reflexivity].
  apply ltb_key in H. apply eqb_key in E. rewrite fkey_zero in *. key_solve.
Qed.

Lemma nonneg_leb (x : float) :
  nonneg (Prim2SF x) -> (x <? infinity) = true -> (0 <=? x) = true.
Proof.
  rewrite leb_key, ltb_key, fkey_zero, fkey_infinity. unfold fkey.
  destruct (Prim2SF x) as [[]|[]| |[] ? ?]; cbn; intros; try discriminate; try lia; auto.
Qed.

(** ** The combination search *)

(** The end-to-end scenario of the specification. *)
Example search_2_5_10 :
  _find_best_combination [2; 5; 10] 1 = Ok (Some 1, 0, Some (2, 5, 10)).
Proof. vm_compute. reflexivity. Qed.

Lemma in_product3 (numbers : list float) (n1 n2 n3 : float) :
  In (n1, n2, n3) (product3 numbers) <-> In n1 numbers /\ In n2 numbers /\ In n3 numbers.
Proof.
  unfold product3. rewrite in_flat_map. split.
  - intros (a & Ha & H). apply in_flat_map in H as (b & Hb & H).
    apply in_map_iff in H as (c & Hc & H). injection Hc as -> -> ->. auto.
  - intros (H1 & H2 & H3). exists n1. split; [assumption|].
    apply in_flat_map. exists n2. split; [assumption|].
    apply in_map_iff. exists n3. auto.
Qed.

(** The loop on a nonzero target: no division raises, and the loop is a
    fold of [pure_step]. *)
Section SearchLoop.

Variable target : float.

Lemma search_inv_initial : search_inv target [] initial_state.
Proof.
  split; cbn.
  - intros c [].
  - auto.
Qed.

Lemma search_inv_step (seen : list combination) (st : search_state) (c : combination) :
  search_inv target seen st -> search_inv target (seen ++ [c]) (pure_step target st c).
Proof.
  intros [Hmin Hbest]. unfold pure_step, select.
  destruct (valid c) eqn:Hv; [destruct (percentage_error target c <? best_error st) eqn:Hlt|].
  - (* the triple becomes the best one *)
    split; cbn [best_error best_result best_combination].
    + intros t Ht Hvt. apply in_app_iff in Ht as [Ht|[<-|[]]].
      * destruct (percentage_error target t <? percentage_error target c) eqn:E; [|reflexivity].
        rewrite <- (Hmin t Ht Hvt). symmetry. eapply ltb_trans; eassumption.
      * apply ltb_irrefl.
    + exists seen, []. repeat split; try assumption.
      * eapply ltb_below_infinity; eassumption.
      * intros t Ht Hvt.
        destruct (percentage_error target t =? percentage_error target c) eqn:E; [|reflexivity].
        rewrite <- (Hmin t Ht Hvt). symmetry. eapply eqb_ltb_trans; eassumption.
  - (* scored, not better *)
    split.
    + intros t Ht Hvt. apply in_app_iff in Ht as [Ht|[<-|[]]]; auto.
    + destruct (best_combination st) as [c0|]; [|assumption].
      destruct Hbest as (pre & post & -> & H).
      exists pre, (post ++ [c]). split; [|assumption].
      rewrite <- app_assoc. reflexivity.
  - (* skipped *)
    split.
    + intros t Ht Hvt. apply in_app_iff in Ht as [Ht|[<-|[]]]; auto. congruence.
    + destruct (best_combination st) as [c0|]; [|assumption].
      destruct Hbest as (pre & post & -> & H).
      exists pre, (post ++ [c]). split; [|assumption].
      rewrite <- app_assoc. reflexivity.
Qed.

Lemma search_inv_fold (l seen : list combination) (st : search_state) :
  search_inv target seen st ->
  search_inv target (seen ++ l) (fold_left (pure_step target) l st).
Proof.
  revert seen st. induction l as [|c l IH]; intros seen st H; cbn [fold_left].
  - rewrite app_nil_r. assumption.
  - replace (seen ++ c :: l) with ((seen ++ [c]) ++ l) by (rewrite <- app_assoc; reflexivity).
    apply IH, search_inv_step, H.
Qed.

Lemma search_inv_final (numbers : list float) :
  search_inv target (product3 numbers)
    (fold_left (pure_step target) (product3 numbers) initial_state).
Proof. apply (search_inv_fold (product3 numbers) []), search_inv_initial. Qed.

Hypothesis target_nonzero : (target =? 0) = false.

Lemma score_and_update_nonzero (st : search_state) (c : combination) :
  valid c = true -> score_and_update target st c = Ok (select target st c).
Proof.
  destruct c as [[n1 n2] n3]. unfold valid, score_and_update, select, truediv.
  intros Hv. apply negb_true_iff in Hv. rewrite Hv. cbn [bind].
  rewrite target_nonzero. cbn [bind].
  unfold percentage_error, formula.
  destruct (_ <? _); reflexivity.
Qed.

Lemma loop_body_nonzero (st : search_state) (c : combination) :
  loop_body target st c = Ok (pure_step target st c).
Proof.
  unfold loop_body, pure_step.
  destruct (valid c) eqn:Hv.
  - rewrite <- (score_and_update_nonzero st c Hv).
    destruct c as [[n1 n2] n3]. unfold valid in Hv. apply negb_true_iff in Hv.
    rewrite Hv. reflexivity.
  - destruct c as [[n1 n2] n3]. unfold valid in Hv. apply negb_false_iff in Hv.
    rewrite Hv. reflexivity.
Qed.

Lemma for_each_nonzero (l : list combination) (st : search_state) :
  for_each (loop_body target) l st = Ok (fold_left (pure_step target) l st).
Proof.
  revert st. induction l as [|c l IH]; intros st; cbn [for_each fold_left].
  - reflexivity.
  - rewrite loop_body_nonzero. cbn [bind]. apply IH.
Qed.

Lemma find_best_combination_nonzero (numbers : list float) :
  _find_best_combination numbers target =
  let st := fold_left (pure_step target) (product3 numbers) initial_state in
  Ok (best_result st, best_error st, best_combination st).
Proof.
  unfold _find_best_combination. rewrite for_each_nonzero. reflexivity.
Qed.

End SearchLoop.

Lemma percentage_error_nonneg (target : float) (c : combination) :
  (0 <? target) = true ->
  (percentage_error target c <? infinity) = true ->
  (0 <=? percentage_error target c) = true.
Proof.
  intros Ht. apply nonneg_leb. unfold percentage_error.
  rewrite mul_spec, div_spec, abs_spec.
  apply SFmul_nonneg; [apply SFdiv_nonneg|].
  - apply SFabs_nonneg.
  - apply positive_strictly, Ht.
  - exact I.
Qed.

(** X29.  For every non-empty pool and every target above zero,
    [_find_best_combination] returns (it does not raise), the returned
    error is [>= 0], and no triple of the Cartesian product
    [numbers x numbers x numbers] with [n3 != 0] has a strictly smaller
    percentage error than the returned one. *)
Theorem find_best_combination_minimal (numbers : list float) (target : float) :
  numbers <> [] -> (0 <? target) = true -> minimal_nonnegative numbers target.
Proof.
  intros _ Ht. unfold minimal_nonnegative.
  rewrite (find_best_combination_nonzero _ (positive_nonzero _ Ht)). cbv zeta.
  destruct (search_inv_final target numbers) as [Hmin Hbest].
  set (st := fold_left _ _ _) in *.
  exists (best_result st), (best_error st), (best_combination st).
  split; [reflexivity|]. split.
  - destruct (best_combination st) as [c|].
    + destruct Hbest as (pre & post & _ & _ & He & _ & Hinf & _).
      rewrite He in *. apply percentage_error_nonneg; assumption.
    + destruct Hbest as [-> _]. reflexivity.
  - intros n1 n2 n3 H1 H2 H3 Hz. apply Hmin.
    + apply in_product3. auto.
    + cbn. rewrite Hz. reflexivity.
Qed.

Lemma find_best_combination_minimal_witness : minimal_nonnegative [2; 5; 10] 1.
Proof. apply find_best_combination_minimal; [discriminate | reflexivity]. Defined.

(** C1 (code defect).  The score [abs(result - target) / target * 100]
    divides by [target], where the example of the docstring,
    [|(99-100)/100| x 100], takes the absolute value of the quotient.  With
    the pool [[1.0]] and the target [-1.0] the only triple is scored
    [|1 - (-1)| / (-1) * 100 = -200]; the function returns this error,
    which is below zero, so the bound [error >= 0] fails there.  With the pool [[1.0, 2.0]] and the same
    target it returns the result [4.0] of the triple [(2, 2, 1)] with the
    error [-500], although the triple [(1, 1, 1)] gives [1.0], which is
    closer to the target. *)
Theorem negative_target_returns_negative_error :
  _find_best_combination [1] (-1) = Ok (Some 1, -200, Some (1, 1, 1)) /\
  (-200 <? 0) = true /\
  ~ minimal_nonnegative [1] (-1) /\
  _find_best_combination [1; 2] (-1) = Ok (Some 4, -500, Some (2, 2, 1)) /\
  (abs (1 * 1 / 1 - -1) <? abs (2 * 2 / 1 - -1)) = true.
Proof.
  split; [reflexivity|]. split; [reflexivity|]. split; [|split; reflexivity].
  intros (r & e & c & Heq & Hpos & _).
  vm_compute in Heq. injection Heq as _ <- _. vm_compute in Hpos. discriminate.
Qed.

Lemma split_same_list {A : Type} (pre pre' : list A) (c c' : A) (post post' : list A) :
  pre ++ c :: post = pre' ++ c' :: post' ->
  (pre = pre' /\ c = c' /\ post = post') \/ In c' pre \/ In c pre'.
Proof.
  revert pre'. induction pre as [|a pre IH]; intros [|a' pre'] H; cbn in H.
  - injection H as -> ->. auto.
  - injection H as -> _. right. right. left. reflexivity.
  - injection H as -> _. right. left. left. reflexivity.
  - injection H as -> H. destruct (IH _ H) as [(-> & -> & ->)|[H'|H']]; cbn; auto.
Qed.

(** C4 (amended to a minimal error below [+inf]).  For every non-empty pool
    and nonzero target, the first valid triple in product order ([n1]
    outermost, [n3] innermost) whose percentage error is minimal is the
    returned combination, with its result and its error, provided that error
    is below the initial [best_error] of [+inf]: a later triple with an equal
    error never replaces it, the comparison being strict. *)
Theorem first_minimal_returned (numbers : list float) (target : float)
  (pre : list combination) (c : combination) (post : list combination) :
  numbers <> [] -> (target =? 0) = false ->
  first_minimal numbers target pre c post ->
  (percentage_error target c <? infinity) = true ->
  _find_best_combination numbers target
  = Ok (Some (formula c), percentage_error target c, Some c).
Proof.
  intros _ Ht (Hsplit & Hv & Hmin & Hfirst) Hfin.
  rewrite (find_best_combination_nonzero _ Ht). cbv zeta.
  destruct (search_inv_final target numbers) as [Imin Ibest].
  set (st := fold_left _ _ _) in *.
  assert (In c (product3 numbers)) as Hc by (rewrite Hsplit; apply in_elt).
  destruct (best_combination st) as [c0|].
  - destruct Ibest as (pre0 & post0 & Hsplit0 & Hv0 & He & Hr & Hinf & Hfirst0).
    assert (In c0 (product3 numbers)) as Hc0 by (rewrite Hsplit0; apply in_elt).
    assert ((percentage_error target c =? percentage_error target c0) = true) as Heq.
    { apply ltb_total; try assumption.
      - rewrite <- He. assumption.
      - rewrite <- He. apply Imin; assumption.
      - apply Hmin; assumption. }
    rewrite Hsplit in Hsplit0.
    destruct (split_same_list _ _ _ _ _ _ Hsplit0) as [(_ & <- & _)|[H|H]].
    + rewrite He, Hr. reflexivity.
    + specialize (Hfirst c0 H Hv0).
      apply eqb_key in Heq. destruct (_ =? _) eqn:E in Hfirst; [discriminate|].
      assert (~ key_eq (fkey (percentage_error target c0)) (fkey (percentage_error target c)))
        by (rewrite <- eqb_key; congruence).
      exfalso. key_solve.
    + specialize (Hfirst0 c H Hv). rewrite He in Hfirst0. congruence.
  - destruct Ibest as [He _]. specialize (Imin c Hc Hv). rewrite He in Imin. congruence.
Qed.

Lemma first_minimal_returned_witness :
  _find_best_combination [2; 1] 1 = Ok (Some 1, 0, Some (2, 1, 2))
  /\ tied 1 (2, 1, 2) [(2, 1, 1); (1, 2, 2); (1, 2, 1); (1, 1, 2); (1, 1, 1)].
Proof.
  split.
  - apply (first_minimal_returned [2; 1] 1 [(2, 2, 2); (2, 2, 1)] (2, 1, 2)
             [(2, 1, 1); (1, 2, 2); (1, 2, 1); (1, 1, 2); (1, 1, 1)]).
    + discriminate.
    + reflexivity.
    + repeat split; try reflexivity; intros t Ht _; in_cases Ht; reflexivity.
    + reflexivity.
  - exists (1, 2, 2). repeat split; cbn; auto.
Defined.

(** C4 as stated fails when the shared minimal error is [+inf]: in the pool
    [[1e200, 2e200]] every product [n1 * n2] overflows, all eight triples
    have the error [+inf], none is ever below the initial [best_error], and
    no combination is returned. *)
Lemma overflowing_ties_return_none :
  ~ ([1e200; 2e200] <> [] -> (1 =? 0) = false -> ties_go_to_first [1e200; 2e200] 1).
Proof.
  intros H.
  destruct (H ltac:(discriminate) eq_refl [] (1e200, 1e200, 1e200)
              (tl (product3 [1e200; 2e200]))) as (r & e & Heq).
  - repeat split; try reflexivity; intros t Ht _.
    + vm_compute in Ht. in_cases Ht; reflexivity.
    + destruct Ht.
  - exists (1e200, 1e200, 2e200). repeat split; vm_compute; auto.
  - vm_compute in Heq. discriminate.
Qed.

Lemma loop_body_skip (target : float) (st : search_state) (c : combination) :
  valid c = false -> loop_body target st c = Ok st.
Proof.
  destruct c as [[n1 n2] n3]. cbn. intros H. apply negb_false_iff in H.
  rewrite H. reflexivity.
Qed.

Lemma loop_body_score (target : float) (st : search_state) (c : combination) :
  valid c = true -> loop_body target st c = score_and_update target st c.
Proof.
  destruct c as [[n1 n2] n3]. unfold valid, loop_body. intros H.
  apply negb_true_iff in H. rewrite H. reflexivity.
Qed.

Lemma for_each_filter_valid (target : float) (l : list combination) (st : search_state) :
  for_each (loop_body target) l st
  = for_each (score_and_update target) (filter valid l) st.
Proof.
  revert st. induction l as [|c l IH]; intros st; cbn [for_each filter]; [reflexivity|].
  destruct (valid c) eqn:Hv.
  - rewrite (loop_body_score _ _ _ Hv). cbn [for_each].
    destruct (score_and_update target st c); cbn [bind]; auto.
  - rewrite (loop_body_skip _ _ _ Hv). cbn [bind]. apply IH.
Qed.

Lemma score_and_update_valid (target : float) (st st' : search_state) (c : combination) :
  valid c = true -> best_is_valid st ->
  score_and_update target st c = Ok st' -> best_is_valid st'.
Proof.
  destruct c as [[n1 n2] n3]. unfold score_and_update, truediv. intros Hv Hst.
  destruct (n3 =? 0); cbn [bind]; [discriminate|].
  destruct (target =? 0); cbn [bind]; [discriminate|].
  destruct (_ <? _); intros H; injection H as <-; auto.
Qed.

Lemma for_each_valid (target : float) (l : list combination) (st st' : search_state) :
  best_is_valid st ->
  for_each (loop_body target) l st = Ok st' -> best_is_valid st'.
Proof.
  revert st. induction l as [|c l IH]; intros st Hst; cbn [for_each].
  - intros H. injection H as <-. assumption.
  - destruct (valid c) eqn:Hv.
    + rewrite (loop_body_score _ _ _ Hv).
      destruct (score_and_update target st c) as [st1|] eqn:E; cbn [bind]; [|discriminate].
      apply IH. eapply score_and_update_valid; eassumption.
    + rewrite (loop_body_skip _ _ _ Hv). cbn [bind]. apply IH, Hst.
Qed.

(** C3.  A triple whose third component is zero is skipped entirely: the
    loop body leaves the state as it is without dividing; the whole search
    equals the search that scores only the triples left after the zero
    divisors have been filtered out; and a returned combination never has a
    zero third component.  This holds for every pool and target. *)
Theorem zero_divisor_skipped :
  (forall target st n1 n2 n3, (n3 =? 0) = true ->
     loop_body target st (n1, n2, n3) = Ok st) /\
  (forall numbers target,
     _find_best_combination numbers target = search_scored_only numbers target) /\
  (forall numbers target r e n1 n2 n3,
     _find_best_combination numbers target = Ok (r, e, Some (n1, n2, n3)) ->
     (n3 =? 0) = false).
Proof.
  split; [|split].
  - intros target st n1 n2 n3 H. apply loop_body_skip. cbn. rewrite H. reflexivity.
  - intros numbers target. unfold _find_best_combination, search_scored_only.
    rewrite for_each_filter_valid. reflexivity.
  - intros numbers target r e n1 n2 n3. unfold _find_best_combination.
    destruct (for_each _ _ _) as [st|] eqn:E; cbn [bind]; [|discriminate].
    intros H. injection H as _ _ H.
    apply for_each_valid in E; [|exact I].
    unfold best_is_valid in E. rewrite H in E. cbn in E.
    apply negb_true_iff in E. exact E.
Qed.

Lemma zero_divisor_skipped_witness :
  loop_body 1 initial_state (1, 1, -0) = Ok initial_state.
Proof. apply (proj1 zero_divisor_skipped). reflexivity. Defined.

Lemma in_product3_valid (numbers : list float) (c : combination) :
  In c (product3 numbers) -> valid c = true ->
  existsb (fun n => negb (n =? 0)) numbers = true.
Proof.
  destruct c as [[n1 n2] n3]. intros H Hv. apply in_product3 in H as (_ & _ & H).
  apply existsb_exists. exists n3. auto.
Qed.

Lemma for_each_all_skipped (target : float) (l : list combination) (st : search_state) :
  (forall c, In c l -> valid c = false) ->
  for_each (loop_body target) l st = Ok st.
Proof.
  induction l as [|c l IH]; intros H; cbn [for_each]; [reflexivity|].
  rewrite loop_body_skip by (apply H; left; reflexivity). cbn [bind].
  apply IH. intros c' Hc'. apply H. right. assumption.
Qed.

Lemma no_nonzero_number (numbers : list float) (target : float) :
  existsb (fun n => negb (n =? 0)) numbers = false ->
  _find_best_combination numbers target = Ok (None, infinity, None).
Proof.
  intros H. unfold _find_best_combination.
  rewrite for_each_all_skipped; [reflexivity|].
  intros c Hc. destruct (valid c) eqn:Hv; [|reflexivity].
  rewrite (in_product3_valid _ _ Hc Hv) in H. discriminate.
Qed.

(** C2 (code defect).  On the all-zero pool [[0, 0, 0]] the function does
    not signal any error: it returns [(None, inf, None)]. *)
Theorem all_zero_pool_returns_none :
  _find_best_combination [0; 0; 0] 1 = Ok (None, infinity, None).
Proof. apply no_nonzero_number. reflexivity. Qed.

Lemma score_and_update_zero_target (target : float) (st : search_state) (c : combination) :
  (target =? 0) = true -> valid c = true ->
  score_and_update target st c = Raise ZeroDivisionError.
Proof.
  destruct c as [[n1 n2] n3]. unfold valid, score_and_update, truediv. intros Ht Hv.
  apply negb_true_iff in Hv. rewrite Hv. cbn [bind]. rewrite Ht. reflexivity.
Qed.

Lemma for_each_zero_target (target : float) (l : list combination) (st : search_state) :
  (target =? 0) = true ->
  (exists c, In c l /\ valid c = true) ->
  for_each (loop_body target) l st = Raise ZeroDivisionError.
Proof.
  intros Ht. induction l as [|c l IH]; intros (c' & Hin & Hv); [destruct Hin|].
  cbn [for_each]. destruct (valid c) eqn:Hc.
  - rewrite (loop_body_score _ _ _ Hc), (score_and_update_zero_target _ _ _ Ht Hc).
    reflexivity.
  - rewrite (loop_body_skip _ _ _ Hc). cbn [bind]. apply IH.
    exists c'. destruct Hin as [->|Hin]; [congruence|auto].
Qed.

Lemma zero_target_outcome (numbers : list float) (target : float) :
  (target =? 0) = true ->
  _find_best_combination numbers target
  = if existsb (fun n => negb (n =? 0)) numbers
    then Raise ZeroDivisionError
    else Ok (None, infinity, None).
Proof.
  intros Ht. destruct (existsb _ numbers) eqn:E.
  - unfold _find_best_combination. rewrite for_each_zero_target; [reflexivity|assumption|].
    apply existsb_exists in E as (n & Hn & Hnz).
    exists (n, n, n). split; [apply in_product3; auto|exact Hnz].
  - apply no_nonzero_number, E.
Qed.

(** X30.  With [target == 0] and at least one nonzero number in the pool,
    the division by [target] of the first scored triple raises
    [ZeroDivisionError]: the call ends with that exception and no error
    value, infinite or NaN, is produced. *)
Theorem zero_target_raises (numbers : list float) (target : float) :
  (target =? 0) = true ->
  (exists n, In n numbers /\ (n =? 0) = false) ->
  _find_best_combination numbers target = Raise ZeroDivisionError.
Proof.
  intros Ht (n & Hn & Hnz).
  rewrite (zero_target_outcome _ _ Ht).
  replace (existsb _ numbers) with true; [reflexivity|].
  symmetry. apply existsb_exists. exists n. rewrite Hnz. auto.
Qed.

Lemma zero_target_raises_witness :
  _find_best_combination [0; 3] 0 = Raise ZeroDivisionError.
Proof.
  apply (zero_target_raises [0; 3] 0); [reflexivity|].
  exists 3. split; [right; left; reflexivity | reflexivity].
Defined.

(** C5 (code defect).  The function has no check of the target.  With the
    pool [[0.0]] and [target == 0] every triple is skipped for its zero
    divisor, the division by the target is never reached, and the call
    returns the placeholders [(None, inf, None)]: it signals nothing and
    the error it returns is infinite.  With a nonzero number in the pool, as
    in [[0.0, 3.0]], the same target ends the call with
    [ZeroDivisionError]. *)
Theorem zero_target_returns_placeholder :
  _find_best_combination [0] 0 = Ok (None, infinity, None) /\
  ~ signals_error (_find_best_combination [0] 0) /\
  _find_best_combination [0; 3] 0 = Raise ZeroDivisionError.
Proof.
  split; [reflexivity|]. split; [|reflexivity].
  intros [e He]. vm_compute in He. discriminate.
Qed.

(** ** STEP 1 of [analyze] *)

Lemma returned_combination (numbers : list float) (target e : float)
  (c : combination) (best : option float) :
  _find_best_combination numbers target = Ok (best, e, Some c) ->
  best = Some (formula c) /\ e = percentage_error target c /\
  (e <? infinity) = true.
Proof.
  intros H. destruct (target =? 0) eqn:Ht.
  - rewrite (zero_target_outcome _ _ Ht) in H.
    destruct (existsb _ numbers); discriminate.
  - rewrite (find_best_combination_nonzero _ Ht) in H. cbv zeta in H.
    destruct (search_inv_final target numbers) as [_ Hbest].
    injection H as H1 H2 H3. rewrite H3 in Hbest.
    destruct Hbest as (_ & _ & _ & _ & He & Hr & Hinf & _).
    rewrite <- H1, <- H2. auto.
Qed.

(** The caller cannot unpack the absent combination of an all-zero pool. *)
Example best_match_all_zero :
  best_match {| target := 1; numbers := [0; 0; 0] |} = Raise TypeError.
Proof. reflexivity. Qed.

Lemma best_match_error (data : dataset) (r : option float) (e : float)
  (c : combination) :
  best_match data = Ok (r, e, c) -> (e <? infinity) = true.
Proof.
  unfold best_match.
  destruct (_find_best_combination (numbers data) (target data))
    as [[[r' e'] [c'|]]|] eqn:E; cbn [bind]; try discriminate.
  intros H. injection H as _ <- _.
  apply (returned_combination _ _ _ _ _ E).
Qed.

Lemma collect_errors_acc (datasets : list (string * dataset)) (acc errs : list float) :
  Forall (fun e => (e <? infinity) = true) acc ->
  for_each (fun all_errors item =>
              (found <- best_match (snd item) ;;
               let '(_, error, _) := found in
               Ok (all_errors ++ [error]))%py) datasets acc = Ok errs ->
  Forall (fun e => (e <? infinity) = true) errs /\
  List.length errs = (List.length acc + List.length datasets)%nat.
Proof.
  revert acc. induction datasets as [|item datasets IH]; intros acc Hacc;
    cbn [for_each List.length].
  - intros H. injection H as <-. split; [assumption|lia].
  - destruct (best_match (snd item)) as [[[r e] c]|] eqn:E; cbn [bind]; [|discriminate].
    intros H. apply IH in H as [H1 H2].
    + split; [assumption|]. rewrite H2, length_app. cbn. lia.
    + apply Forall_app. split; [assumption|].
      constructor; [|constructor]. eapply best_match_error, E.
Qed.

(** X1.  Every error that reaches the statistics is below [+inf], hence
    neither an infinity from an unassigned best nor a NaN, and there is one
    error per dataset. *)
Theorem collected_errors_below_infinity (datasets : list (string * dataset))
  (all_errors : list float) :
  collect_errors datasets = Ok all_errors ->
  Forall (fun e => (e <? infinity) = true) all_errors /\
  List.length all_errors = List.length datasets.
Proof.
  intros H. apply collect_errors_acc in H; [|constructor]. exact H.
Qed.

Lemma collected_errors_below_infinity_witness :
  Forall (fun e => (e <? infinity) = true) [0; 25] /\
  List.length [0; 25] = 2%nat.
Proof.
  apply (collected_errors_below_infinity
           [("A"%string, {| target := 1; numbers := [2; 5; 10] |});
            ("B"%string, {| target := 4; numbers := [3; 5] |})]).
  vm_compute. reflexivity.
Defined.

(** ** The reliability rating *)

Lemma leb_leb_not_ltb (b a x : float) :
  (b <=? a) = true -> (a <=? x) = true -> (x <? b) = false.
Proof.
  intros Hba Hax. destruct (x <? b) eqn:E; [|reflexivity].
  apply ltb_key in E. apply leb_key in Hba, Hax. key_solve.
Qed.

(** C7.  The rating is a total function of the maximum error with exactly
    four possible values, and its thresholds are strict: below 1.0
    Exceptional, from 1.0 and below 5.0 Superior, from 5.0 and below 10.0
    Satisfactory, from 10.0 on Limited; so 1.0 is Superior, 5.0 is
    Satisfactory and 10.0 is Limited. *)
Theorem reliability_thresholds :
  (forall x, In (reliability x)
     ["Exceptional"; "Superior"; "Satisfactory"; "Limited"]%string) /\
  (forall x, (x <? 1.0) = true -> reliability x = "Exceptional"%string) /\
  (forall x, (1.0 <=? x) = true -> (x <? 5.0) = true ->
     reliability x = "Superior"%string) /\
  (forall x, (5.0 <=? x) = true -> (x <? 10.0) = true ->
     reliability x = "Satisfactory"%string) /\
  (forall x, (10.0 <=? x) = true -> reliability x = "Limited"%string) /\
  reliability 1.0 = "Superior"%string /\
  reliability 5.0 = "Satisfactory"%string /\
  reliability 10.0 = "Limited"%string.
Proof.
  unfold reliability, reliability_rating, ErrorThreshold.EXCEPTIONAL,
    ErrorThreshold.SUPERIOR, ErrorThreshold.SATISFACTORY.
  split; [|split; [|split; [|split; [|split; [|split; [|split]]]]]];
    try reflexivity.
  - intros x. destruct (x <? 1.0); [|destruct (x <? 5.0); [|destruct (x <? 10.0)]];
      cbn; auto.
  - intros x H. rewrite H. reflexivity.
  - intros x H1 H5. rewrite (leb_not_ltb _ _ H1), H5. reflexivity.
  - intros x H5 H10.
    rewrite (leb_leb_not_ltb 1.0 5.0 x eq_refl H5), (leb_not_ltb _ _ H5), H10.
    reflexivity.
  - intros x H10.
    rewrite (leb_leb_not_ltb 1.0 10.0 x eq_refl H10),
      (leb_leb_not_ltb 5.0 10.0 x eq_refl H10), (leb_not_ltb _ _ H10).
    reflexivity.
Qed.

Lemma reliability_thresholds_witness :
  reliability 0.9999 = "Exceptional"%string /\
  reliability 4.9999 = "Superior"%string /\
  reliability 9.9999 = "Satisfactory"%string /\
  reliability infinity = "Limited"%string.
Proof.
  destruct reliability_thresholds as (_ & H1 & H2 & H3 & H4 & _).
  split; [|split; [|split]]; [apply H1 | apply H2 | apply H3 | apply H4]; reflexivity.
Defined.

(** A maximum error that is a NaN compares below no threshold. *)
Example reliability_nan : reliability nan = "Limited"%string.
Proof. reflexivity. Qed.

(** ** The error tolerance distribution *)

Lemma sum_of_ones (l : list float) (acc : Z) :
  fold_left Z.add (map (fun _ => 1%Z) l) acc = (acc + Z.of_nat (List.length l))%Z.
Proof.
  revert acc. induction l as [|x l IH]; intros acc; cbn [map fold_left List.length].
  - lia.
  - rewrite IH. lia.
Qed.

Lemma count_below_length (threshold : float) (all_errors : list float) :
  count_below threshold all_errors
  = Z.of_nat (List.length (filter (fun e => e <? threshold) all_errors)).
Proof. unfold count_below. apply sum_of_ones. Qed.

Lemma count_below_bounds (threshold : float) (all_errors : list float) :
  (0 <= count_below threshold all_errors <= Z.of_nat (List.length all_errors))%Z.
Proof.
  rewrite count_below_length.
  pose proof (filter_length_le (fun e => e <? threshold) all_errors). lia.
Qed.

Lemma truediv_small (a b : Z) :
  (0 <= a < 2 ^ 53)%Z -> (0 < b < 2 ^ 53)%Z ->
  PyInt.truediv a b = Ok (PyInt.to_float a / PyInt.to_float b).
Proof.
  intros Ha Hb. unfold PyInt.truediv, PyInt.is_small.
  replace (b =? 0)%Z with false by (symmetry; apply Z.eqb_neq; lia).
  replace (Z.abs a <? 2 ^ 53)%Z with true by (symmetry; apply Z.ltb_lt; lia).
  replace (Z.abs b <? 2 ^ 53)%Z with true by (symmetry; apply Z.ltb_lt; lia).
  reflexivity.
Qed.

Lemma tolerance_entry_ok (label : string) (all_errors : list float) (k : nat) :
  all_errors <> [] -> (Z.of_nat (List.length all_errors) < 2 ^ 53)%Z ->
  (k < 3)%nat ->
  let count := snd (nth k (confidence_intervals all_errors) (0, 0%Z)) in
  tolerance_entry label all_errors k
  = Ok {| row_label := label;
          row_count := count;
          row_sets := 8;
          row_percent :=
            PyInt.to_float count
            / PyInt.to_float (Z.of_nat (List.length all_errors)) * 100 |}.
Proof.
  intros Hne Hlen Hk count. unfold tolerance_entry. fold count.
  rewrite truediv_small; [reflexivity| |].
  - subst count. unfold confidence_intervals.
    destruct k as [|[|[|k]]]; [| | |lia]; cbn [nth snd];
      match goal with |- context [count_below ?t ?l] =>
        pose proof (count_below_bounds t l) end; lia.
  - destruct all_errors; [contradiction|]. cbn [List.length] in *. lia.
Qed.

(** C8.  For each of the thresholds 1.0, 5.0 and 10.0 the count is exactly
    the number of errors strictly below the threshold, and each count is
    expressed as the fraction [count / len(all_errors)] of the number of
    datasets, times 100; on [[0.5, 2.0, 7.0, 15.0]] the counts are 1, 2 and
    3 out of 4, i.e. 25, 50 and 75 percent.  (The printed label
    ["{count}/{SETS_COUNT} datasets"] uses the constant 8.) *)
Theorem threshold_counts :
  (forall all_errors,
     let below t := Z.of_nat (List.length (filter (fun e => e <? t) all_errors)) in
     confidence_intervals all_errors
     = [(1.0, below 1.0); (5.0, below 5.0); (10.0, below 10.0)]) /\
  (forall all_errors,
     all_errors <> [] -> (Z.of_nat (List.length all_errors) < 2 ^ 53)%Z ->
     let total := PyInt.to_float (Z.of_nat (List.length all_errors)) in
     let count k := snd (nth k (confidence_intervals all_errors) (0, 0%Z)) in
     exists s0 s1 s2,
     tolerance_table all_errors
     = Ok [ mk_tolerance_row s0 (count 0%nat) 8 (PyInt.to_float (count 0%nat) / total * 100);
            mk_tolerance_row s1 (count 1%nat) 8 (PyInt.to_float (count 1%nat) / total * 100);
            mk_tolerance_row s2 (count 2%nat) 8 (PyInt.to_float (count 2%nat) / total * 100) ]) /\
  confidence_intervals [0.5; 2.0; 7.0; 15.0] = [(1.0, 1%Z); (5.0, 2%Z); (10.0, 3%Z)] /\
  (exists s0 s1 s2,
     tolerance_table [0.5; 2.0; 7.0; 15.0]
     = Ok [ mk_tolerance_row s0 1 8 25; mk_tolerance_row s1 2 8 50;
            mk_tolerance_row s2 3 8 75 ]) /\
  List.length [0.5; 2.0; 7.0; 15.0] = 4%nat.
Proof.
  split; [|split; [|split; [|split]]].
  - intros all_errors below. unfold confidence_intervals, below.
    rewrite !count_below_length. reflexivity.
  - intros all_errors Hne Hlen total count. unfold tolerance_table.
    do 3 eexists.
    rewrite !tolerance_entry_ok by (assumption || lia). reflexivity.
  - reflexivity.
  - do 3 eexists. vm_compute. reflexivity.
  - reflexivity.
Qed.

Lemma threshold_counts_witness :
  exists s0 s1 s2,
    tolerance_table [0.5; 20.5]
    = Ok [ mk_tolerance_row s0 1 8 50; mk_tolerance_row s1 1 8 50;
           mk_tolerance_row s2 1 8 50 ].
Proof.
  destruct (proj1 (proj2 threshold_counts) [0.5; 20.5]) as (s0 & s1 & s2 & H);
    [discriminate | reflexivity |].
  exists s0, s1, s2. exact H.
Defined.

(** ** The statistics *)

(** *** A single value *)

Lemma mean_singleton (x : float) : exists m, statistics.mean [x] = Ok m.
Proof.
  unfold statistics.mean, statistics._sum. cbn [List.length Z.of_nat].
  destruct (forallb statistics.isfinite [x]); cbn; eauto.
Qed.

Lemma median_singleton (x : float) : statistics.median [x] = Ok x.
Proof. reflexivity. Qed.

Lemma stdev_singleton (x : float) : statistics.stdev [x] = Raise StatisticsError.
Proof.
  unfold statistics.stdev, statistics._ss. cbn [List.length Z.of_nat].
  destruct (forallb statistics.isfinite [x]); reflexivity.
Qed.

(** C6.  With exactly one error value the call raises [StatisticsError]
    (Python's exception for too few data points, from [statistics.stdev])
    and produces no record. *)
Theorem single_value_raises (x : float) :
  _calculate_statistical_metrics [x] = Raise StatisticsError.
Proof.
  unfold _calculate_statistical_metrics.
  destruct (mean_singleton x) as [m ->].
  rewrite median_singleton, stdev_singleton. reflexivity.
Qed.

(** *** The exact sums and the sample formulas *)

Lemma exact_sum_acc (f : Q -> Q) (data : list float) (acc : Q) :
  (fold_left (fun acc x =>
     match statistics._exact_ratio x with
     | Some q => (acc + f q)%Q
     | None => acc
     end) data acc == acc + Qsum (map f (values data)))%Q.
Proof.
  revert acc. induction data as [|x data IH]; intros acc; cbn [fold_left].
  - cbn. ring.
  - rewrite IH. unfold values at 2. cbn [flat_map]. fold (values data).
    destruct (statistics._exact_ratio x) as [q|]; cbn [app map Qsum fold_right].
    + fold (Qsum (map f (values data))). ring.
    + reflexivity.
Qed.

Lemma exact_sum_values (f : Q -> Q) (data : list float) :
  (statistics.exact_sum f data == Qsum (map f (values data)))%Q.
Proof. unfold statistics.exact_sum. rewrite exact_sum_acc. ring. Qed.

Lemma values_length (data : list float) :
  forallb statistics.isfinite data = true ->
  List.length (values data) = List.length data.
Proof.
  induction data as [|x data IH]; [reflexivity|].
  cbn [forallb]. intros H. apply andb_true_iff in H as [Hx H].
  unfold values. cbn [flat_map]. fold (values data).
  unfold statistics.isfinite in Hx.
  destruct (statistics._exact_ratio x); [|discriminate].
  cbn [app List.length]. rewrite IH by assumption. reflexivity.
Qed.

Lemma Qsum_squared_deviation (c : Q) (l : list Q) :
  (Qsum (map (squared_deviation c) l)
   == Qsum (map (fun q => q * q) l) - 2 * c * Qsum l
      + inject_Z (Z.of_nat (List.length l)) * (c * c))%Q.
Proof.
  induction l as [|q l IH].
  - cbn. ring.
  - cbn [map Qsum fold_right List.length].
    fold (Qsum (map (squared_deviation c) l)) (Qsum (map (fun q => q * q)%Q l)) (Qsum l).
    rewrite IH, Nat2Z.inj_succ. unfold Z.succ. rewrite inject_Z_plus.
    unfold squared_deviation. ring.
Qed.

Lemma sum_of_squares_identity (data : list float) :
  forallb statistics.isfinite data = true ->
  data <> [] ->
  let count := inject_Z (Z.of_nat (List.length data)) in
  ((count * statistics.exact_sum (fun q => q * q) data
    - statistics.exact_sum (fun q => q) data * statistics.exact_sum (fun q => q) data)
   / count
   == Qsum (map (squared_deviation (sample_mean data)) (values data)))%Q.
Proof.
  intros Hfin Hne count.
  rewrite Qsum_squared_deviation, !exact_sum_values, map_id, (values_length _ Hfin).
  unfold sample_mean. fold count.
  assert (~ count == 0)%Q as Hc.
  { unfold count. intros H. destruct data; [contradiction|].
    unfold Qeq in H. cbn in H. lia. }
  field. exact Hc.
Qed.

Lemma ss_finite (data : list float) :
  forallb statistics.isfinite data = true -> (2 <= List.length data)%nat ->
  exists q, statistics._ss data = (statistics.Exact q, Z.of_nat (List.length data)) /\
    (q / inject_Z (Z.of_nat (List.length data) - 1) == sample_variance data)%Q.
Proof.
  intros Hfin Hlen. unfold statistics._ss. rewrite Hfin.
  replace (Z.of_nat (List.length data) =? 0)%Z with false
    by (symmetry; apply Z.eqb_neq; lia).
  eexists. split; [reflexivity|].
  unfold sample_variance.
  rewrite sum_of_squares_identity; [reflexivity|assumption|].
  intros ->. cbn in Hlen. lia.
Qed.

Lemma ss_not_finite (data : list float) :
  forallb statistics.isfinite data = false -> (2 <= List.length data)%nat ->
  exists x, statistics._ss data = (statistics.Special x, Z.of_nat (List.length data)).
Proof.
  intros Hfin Hlen. unfold statistics._ss. rewrite Hfin.
  replace (Z.of_nat (List.length data) =? 0)%Z with false
    by (symmetry; apply Z.eqb_neq; lia).
  eexists. reflexivity.
Qed.

Lemma ss_count (data : list float) : snd (statistics._ss data) = Z.of_nat (List.length data).
Proof.
  unfold statistics._ss.
  destruct (_ =? 0)%Z; [reflexivity|]. destruct (forallb _ _); reflexivity.
Qed.

Lemma variance_finite (data : list float) :
  forallb statistics.isfinite data = true -> (2 <= List.length data)%nat ->
  statistics.variance data = statistics.fraction_to_float (sample_variance data).
Proof.
  intros Hfin Hlen. destruct (ss_finite data Hfin Hlen) as (q & Hss & Hq).
  unfold statistics.variance. rewrite Hss.
  replace (Z.of_nat (List.length data) <? 2)%Z with false
    by (symmetry; apply Z.ltb_ge; lia).
  unfold statistics.fraction_to_float. rewrite (Qred_complete _ _ Hq). reflexivity.
Qed.

Lemma stdev_finite (data : list float) :
  forallb statistics.isfinite data = true -> (2 <= List.length data)%nat ->
  statistics.stdev data = sqrt_of_fraction (sample_variance data).
Proof.
  intros Hfin Hlen. destruct (ss_finite data Hfin Hlen) as (q & Hss & Hq).
  unfold statistics.stdev. rewrite Hss.
  replace (Z.of_nat (List.length data) <? 2)%Z with false
    by (symmetry; apply Z.ltb_ge; lia).
  unfold sqrt_of_fraction. rewrite (Qred_complete _ _ Hq). reflexivity.
Qed.

Lemma stdev_not_finite (data : list float) :
  forallb statistics.isfinite data = false -> (2 <= List.length data)%nat ->
  statistics.stdev data = Raise AttributeError.
Proof.
  intros Hfin Hlen. destruct (ss_not_finite data Hfin Hlen) as (x & Hss).
  unfold statistics.stdev. rewrite Hss.
  replace (Z.of_nat (List.length data) <? 2)%Z with false
    by (symmetry; apply Z.ltb_ge; lia).
  reflexivity.
Qed.

Lemma stdev_short (data : list float) :
  (List.length data < 2)%nat -> statistics.stdev data = Raise StatisticsError.
Proof.
  intros Hlen. unfold statistics.stdev.
  pose proof (ss_count data) as Hn. destruct (statistics._ss data) as [ss n].
  cbn in Hn. subst n.
  replace (Z.of_nat (List.length data) <? 2)%Z with true
    by (symmetry; apply Z.ltb_lt; lia).
  reflexivity.
Qed.

(** *** A returned record *)

(** Inversion of a successful call. *)
Lemma metrics_ok_inv (errors : list float) (m : metrics.t) :
  _calculate_statistical_metrics errors = Ok m ->
  statistics.mean errors = Ok (metrics.mean m) /\
  statistics.median errors = Ok (metrics.median m) /\
  statistics.stdev errors = Ok (metrics.std_dev m) /\
  statistics.variance errors = Ok (metrics.variance m) /\
  builtins.min errors = Ok (metrics.min m) /\
  builtins.max errors = Ok (metrics.max m) /\
  np.percentile errors 25 = Ok (metrics.q1 m) /\
  np.percentile errors 75 = Ok (metrics.q3 m) /\
  metrics.range m = metrics.max m - metrics.min m /\
  metrics.iqr m = metrics.q3 m - metrics.q1 m.
Proof.
  unfold _calculate_statistical_metrics, StatisticalMetrics.Q1_PERCENTILE,
    StatisticalMetrics.Q3_PERCENTILE.
  destruct (statistics.mean errors); cbn [bind]; [|discriminate].
  destruct (statistics.median errors); cbn [bind]; [|discriminate].
  destruct (statistics.stdev errors); cbn [bind]; [|discriminate].
  destruct (statistics.variance errors); cbn [bind]; [|discriminate].
  destruct (builtins.min errors); cbn [bind]; [|discriminate].
  destruct (builtins.max errors); cbn [bind]; [|discriminate].
  destruct (np.percentile errors 25); cbn [bind]; [|discriminate].
  destruct (np.percentile errors 75); cbn [bind]; [|discriminate].
  intros H. injection H as <-. cbn. repeat split; reflexivity.
Qed.

Lemma metrics_ok_finite (errors : list float) (m : metrics.t) :
  _calculate_statistical_metrics errors = Ok m ->
  (2 <= List.length errors)%nat /\ forallb statistics.isfinite errors = true.
Proof.
  intros H. apply metrics_ok_inv in H as (_ & _ & Hs & _).
  assert (2 <= List.length errors)%nat as Hlen.
  { destruct (Nat.lt_ge_cases (List.length errors) 2) as [Hlt|]; [|assumption].
    rewrite (stdev_short _ Hlt) in Hs. discriminate. }
  split; [assumption|].
  destruct (forallb statistics.isfinite errors) eqn:E; [reflexivity|].
  rewrite (stdev_not_finite _ E Hlen) in Hs. discriminate.
Qed.

(** C9 (amended in the range of the example).  On [[1.2, 2.3, 0.8, 1.5]]
    the record has mean 1.45, min 0.8, max 2.3 and range [2.3 - 0.8], which in
    binary64 is 1.4999999999999998; and whenever a record is returned for a
    list, the list has at least two values, [variance] is the sample variance
    (denominator [n - 1]) rounded to a float, [std_dev] the float square root
    of that same fraction, [range] is [max - min] and [iqr] is [q3 - q1]. *)
Theorem metrics_example_and_formulas :
  (exists m, _calculate_statistical_metrics example_errors = Ok m /\
     metrics.mean m = 1.45 /\ metrics.min m = 0.8 /\ metrics.max m = 2.3 /\
     metrics.range m = 2.3 - 0.8 /\ metrics.range m = 1.4999999999999998) /\
  (forall errors m,
     _calculate_statistical_metrics errors = Ok m ->
     (2 <= List.length errors)%nat /\
     statistics.fraction_to_float (sample_variance errors) = Ok (metrics.variance m) /\
     sqrt_of_fraction (sample_variance errors) = Ok (metrics.std_dev m) /\
     metrics.range m = metrics.max m - metrics.min m /\
     metrics.iqr m = metrics.q3 m - metrics.q1 m).
Proof.
  split.
  - eexists. split; [vm_compute; reflexivity|]. cbn. repeat split; reflexivity.
  - intros errors m H.
    destruct (metrics_ok_finite _ _ H) as [Hlen Hfin].
    apply metrics_ok_inv in H as (_ & _ & Hs & Hv & _ & _ & _ & _ & Hr & Hi).
    rewrite <- variance_finite, <- stdev_finite by assumption. auto.
Qed.

Lemma metrics_example_and_formulas_witness :
  (2 <= List.length example_errors)%nat /\
  statistics.fraction_to_float (sample_variance example_errors)
  = Ok 0.40333333333333321 /\
  sqrt_of_fraction (sample_variance example_errors) = Ok 0.63508529610858822.
Proof.
  destruct (proj2 metrics_example_and_formulas example_errors
              (metrics.mk 1.45 1.3500000000000001 0.63508529610858822
                 0.40333333333333321 0.8 2.3 1.4999999999999998
                 1.1000000000000001 1.7 0.59999999999999987))
    as (Hlen & Hv & Hs & _).
  - vm_compute. reflexivity.
  - auto.
Defined.

(** C9 as stated fails on the range, [2.3 - 0.8] being the float just below
    [1.5] in binary64 arithmetic; and not every list of two or more values
    gets a record: the sample variance of [[-1e308, 1e308]] is beyond the
    float range and its conversion raises [OverflowError]. *)
Lemma example_range_is_not_one_and_a_half :
  ~ example_figures /\
  ~ ((2 <= List.length opposite_extremes)%nat -> sample_formulas opposite_extremes).
Proof.
  split.
  - intros (m & Hm & _ & _ & _ & Hr).
    vm_compute in Hm. injection Hm as <-. vm_compute in Hr. discriminate.
  - intros H. destruct H as (m & Hm & _); [cbn; lia|].
    vm_compute in Hm. discriminate.
Qed.

(** Records are not returned for every list of two or more values. *)
Example metrics_overflow :
  _calculate_statistical_metrics [-1e308; 1e308] = Raise OverflowError.
Proof. vm_compute. reflexivity. Qed.

Example metrics_not_finite_example :
  _calculate_statistical_metrics [infinity; 1] = Raise AttributeError.
Proof. vm_compute. reflexivity. Qed.

(** *** Float operations respect the value of their operands *)

Lemma key_eq_cases (x y : spec_float) :
  key x = key y -> x = y \/ exists s s', x = S754_zero s /\ y = S754_zero s'.
Proof.
  destruct x as [sx|[]| |[] mx ex], y as [sy|[]| |[] my ey]; cbn; intros H;
    try discriminate; auto; try (right; eauto; fail).
  - injection H as H1 H2. left. f_equal; lia.
  - injection H as H1 H2. left. f_equal; lia.
Qed.

Lemma same_value_key (x y : float) : same_value x y <-> fkey x = fkey y.
Proof.
  split.
  - intros [->|H]; [reflexivity|]. apply eqb_key in H.
    destruct (fkey x) as [[[a1 a2] a3]|], (fkey y) as [[[b1 b2] b3]|]; cbn in H;
      try contradiction.
    destruct H as (-> & -> & ->). reflexivity.
  - intros H. destruct (fkey x) as [[[a1 a2] a3]|] eqn:Ex.
    + right. apply eqb_key. rewrite Ex, <- H. cbn. auto.
    + left. apply Prim2SF_inj. unfold fkey in *.
      destruct (Prim2SF x), (Prim2SF y); try destruct s; try destruct s0; cbn in *;
        try discriminate; reflexivity.
Qed.

Lemma SFadd_key (x x' y y' : spec_float) :
  key x = key x' -> key y = key y' ->
  key (SFadd prec emax x y) = key (SFadd prec emax x' y').
Proof.
  intros Hx Hy.
  destruct (key_eq_cases _ _ Hx) as [->|(s1 & s1' & -> & ->)];
    destruct (key_eq_cases _ _ Hy) as [->|(s2 & s2' & -> & ->)]; try reflexivity.
  all: try (destruct x' as [[]|[]| |[] ? ?], s2, s2'; reflexivity).
  all: try (destruct y' as [[]|[]| |[] ? ?], s1, s1'; reflexivity).
  all: destruct s1, s1', s2, s2'; reflexivity.
Qed.

Lemma SFsub_key (x x' y y' : spec_float) :
  key x = key x' -> key y = key y' ->
  key (SFsub prec emax x y) = key (SFsub prec emax x' y').
Proof.
  intros Hx Hy.
  destruct (key_eq_cases _ _ Hx) as [->|(s1 & s1' & -> & ->)];
    destruct (key_eq_cases _ _ Hy) as [->|(s2 & s2' & -> & ->)]; try reflexivity.
  all: try (destruct x' as [[]|[]| |[] ? ?], s2, s2'; reflexivity).
  all: try (destruct y' as [[]|[]| |[] ? ?], s1, s1'; reflexivity).
  all: destruct s1, s1', s2, s2'; reflexivity.
Qed.

Lemma SFmul_key (x x' y y' : spec_float) :
  key x = key x' -> key y = key y' ->
  key (SFmul prec emax x y) = key (SFmul prec emax x' y').
Proof.
  intros Hx Hy.
  destruct (key_eq_cases _ _ Hx) as [->|(s1 & s1' & -> & ->)];
    destruct (key_eq_cases _ _ Hy) as [->|(s2 & s2' & -> & ->)]; try reflexivity.
  all: try (destruct x' as [[]|[]| |[] ? ?], s2, s2'; reflexivity).
  all: try (destruct y' as [[]|[]| |[] ? ?], s1, s1'; reflexivity).
  all: destruct s1, s1', s2, s2'; reflexivity.
Qed.

Lemma SFdiv_key (x x' y : spec_float) :
  key x = key x' ->
  key (SFdiv prec emax x y) = key (SFdiv prec emax x' y).
Proof.
  intros Hx.
  destruct (key_eq_cases _ _ Hx) as [->|(s1 & s1' & -> & ->)]; try reflexivity.
  destruct y as [[]|[]| |[] ? ?], s1, s1'; reflexivity.
Qed.

Lemma add_key (x x' y y' : float) :
  fkey x = fkey x' -> fkey y = fkey y' -> fkey (x + y) = fkey (x' + y').
Proof. unfold fkey. rewrite !add_spec. apply SFadd_key. Qed.

Lemma sub_key (x x' y y' : float) :
  fkey x = fkey x' -> fkey y = fkey y' -> fkey (x - y) = fkey (x' - y').
Proof. unfold fkey. rewrite !sub_spec. apply SFsub_key. Qed.

Lemma mul_key (x x' y y' : float) :
  fkey x = fkey x' -> fkey y = fkey y' -> fkey (x * y) = fkey (x' * y').
Proof. unfold fkey. rewrite !mul_spec. apply SFmul_key. Qed.

Lemma div_key (x x' y : float) :
  fkey x = fkey x' -> fkey (x / y) = fkey (x' / y).
Proof. unfold fkey. rewrite !div_spec. apply SFdiv_key. Qed.

Lemma isfinite_key (x : float) : statistics.isfinite x = true -> fkey x <> None.
Proof.
  unfold statistics.isfinite, statistics._exact_ratio, fkey.
  destruct (Prim2SF x) as [[]|[]| |[] ? ?]; cbn; congruence.
Qed.

Lemma key_not_nan (x : float) : fkey x <> None -> is_nan x = false.
Proof.
  intros H. unfold is_nan. apply negb_false_iff, eqb_key.
  destruct (fkey x) as [[[a b] c]|]; [cbn; auto|contradiction].
Qed.

(** *** [sorted] sorts, and the sorted keys are unique *)

Lemma key_le_trans (a b c : option (Z * Z * Z)) : key_le a b -> key_le b c -> key_le a c.
Proof.
  unfold key_le. intros [H1 | ->] [H2 | ->]; auto. left. key_solve.
Qed.

Lemma key_le_antisym (a b : option (Z * Z * Z)) : key_le a b -> key_le b a -> a = b.
Proof.
  unfold key_le. intros [H1 | ->] [H2 | H2]; auto. exfalso. key_solve.
Qed.

Lemma not_ltb_fle (x y : float) :
  fkey x <> None -> fkey y <> None -> (x <? y) = false -> fle y x.
Proof.
  intros Hx Hy H.
  assert (~ key_lt (fkey x) (fkey y)) as N by (rewrite <- ltb_key; congruence).
  unfold fle, key_le.
  destruct (fkey x) as [[[a1 a2] a3]|], (fkey y) as [[[b1 b2] b3]|]; try contradiction.
  cbn in *.
  destruct (Z.eq_dec a1 b1) as [->|]; [destruct (Z.eq_dec a2 b2) as [->|];
    [destruct (Z.eq_dec a3 b3) as [->|]|]|]; auto; left; lia.
Qed.

Lemma ltb_fle (x y : float) : (x <? y) = true -> fle x y.
Proof. intros H. left. apply ltb_key, H. Qed.

Lemma insert_perm (x : float) (l : list float) :
  Permutation (builtins.insert x l) (x :: l).
Proof.
  induction l as [|y l IH]; cbn [builtins.insert]; [reflexivity|].
  destruct (x <? y); [reflexivity|].
  rewrite IH. apply perm_swap.
Qed.

Lemma fold_insert_perm (l acc : list float) :
  Permutation (fold_left (fun acc x => builtins.insert x acc) l acc) (l ++ acc).
Proof.
  revert acc. induction l as [|x l IH]; intros acc; cbn [fold_left app]; [reflexivity|].
  rewrite IH, insert_perm. symmetry. apply Permutation_middle.
Qed.

Lemma sorted_perm (l : list float) : Permutation (builtins.sorted l) l.
Proof. unfold builtins.sorted. rewrite fold_insert_perm, app_nil_r. reflexivity. Qed.

Lemma sorted_length (l : list float) : List.length (builtins.sorted l) = List.length l.
Proof. apply Permutation_length, sorted_perm. Qed.

Lemma insert_sorted (x : float) (l : list float) :
  fkey x <> None -> no_nan l ->
  StronglySorted fle l -> StronglySorted fle (builtins.insert x l).
Proof.
  intros Hx. induction l as [|y l IH]; intros Hl Hs; cbn [builtins.insert].
  - repeat constructor.
  - apply Forall_cons_iff in Hl as [Hy Hl].
    apply StronglySorted_inv in Hs as [Hs Hall].
    destruct (x <? y) eqn:E.
    + constructor; [constructor; assumption|].
      constructor; [apply ltb_fle, E|].
      eapply Forall_impl; [|exact Hall].
      intros z Hz. eapply key_le_trans; [apply ltb_fle, E|exact Hz].
    + constructor; [apply IH; assumption|].
      apply (Permutation_Forall (Permutation_sym (insert_perm x l))).
      constructor; [|assumption].
      apply not_ltb_fle; assumption.
Qed.

Lemma fold_insert_sorted (l acc : list float) :
  no_nan l -> no_nan acc -> StronglySorted fle acc ->
  StronglySorted fle (fold_left (fun acc x => builtins.insert x acc) l acc).
Proof.
  revert acc. induction l as [|x l IH]; intros acc Hl Hacc Hs; cbn [fold_left];
    [assumption|].
  apply Forall_cons_iff in Hl as [Hx Hl].
  apply IH; [assumption| |apply insert_sorted; assumption].
  apply (Permutation_Forall (Permutation_sym (insert_perm x acc))).
  constructor; assumption.
Qed.

Lemma sorted_sorted (l : list float) : no_nan l -> StronglySorted fle (builtins.sorted l).
Proof.
  intros H. apply fold_insert_sorted; [assumption|constructor|constructor].
Qed.

Lemma sorted_keys (l : list float) :
  StronglySorted fle l -> StronglySorted key_le (map fkey l).
Proof.
  induction 1 as [|x l Hs IH Hall]; cbn [map]; constructor; [assumption|].
  apply Forall_map. exact Hall.
Qed.

Lemma sorted_keys_unique (k1 k2 : list (option (Z * Z * Z))) :
  StronglySorted key_le k1 -> StronglySorted key_le k2 -> Permutation k1 k2 -> k1 = k2.
Proof.
  revert k2. induction k1 as [|a k1 IH]; intros k2 H1 H2 Hp.
  - apply Permutation_nil in Hp. congruence.
  - destruct k2 as [|b k2]; [apply Permutation_sym, Permutation_nil in Hp; discriminate|].
    apply StronglySorted_inv in H1 as [H1 Ha], H2 as [H2 Hb].
    assert (a = b) as ->.
    { assert (In a (b :: k2)) as Ia by (apply (Permutation_in _ Hp); left; reflexivity).
      assert (In b (a :: k1)) as Ib
        by (apply (Permutation_in _ (Permutation_sym Hp)); left; reflexivity).
      destruct Ia as [->|Ia]; [reflexivity|]. destruct Ib as [->|Ib]; [reflexivity|].
      rewrite Forall_forall in Ha, Hb. apply key_le_antisym; auto. }
    f_equal. apply IH; try assumption.
    eapply Permutation_cons_inv, Hp.
Qed.

Lemma sorted_keys_permutation (l l' : list float) :
  no_nan l -> Permutation l l' ->
  map fkey (builtins.sorted l) = map fkey (builtins.sorted l').
Proof.
  intros Hl Hp.
  assert (no_nan l') as Hl' by (eapply Permutation_Forall; eassumption).
  apply sorted_keys_unique.
  - apply sorted_keys, sorted_sorted, Hl.
  - apply sorted_keys, sorted_sorted, Hl'.
  - apply Permutation_map.
    rewrite (sorted_perm l), (sorted_perm l'). exact Hp.
Qed.

Lemma nth_sorted_key (l l' : list float) (i : nat) (d : float) :
  no_nan l -> Permutation l l' ->
  fkey (nth i (builtins.sorted l) d) = fkey (nth i (builtins.sorted l') d).
Proof.
  intros Hl Hp.
  rewrite <- !(map_nth fkey), (sorted_keys_permutation l l' Hl Hp). reflexivity.
Qed.

(** *** The exact statistics do not depend on the order *)

Lemma values_permutation (l l' : list float) :
  Permutation l l' -> Permutation (values l) (values l').
Proof.
  induction 1 as [|x l l' Hp IH|x y l|l1 l2 l3 H1 IH1 H2 IH2]; unfold values in *;
    cbn [flat_map].
  - reflexivity.
  - apply Permutation_app_head, IH.
  - rewrite !app_assoc. apply Permutation_app_tail, Permutation_app_comm.
  - etransitivity; eassumption.
Qed.

Lemma Qsum_permutation (l l' : list Q) : Permutation l l' -> (Qsum l == Qsum l')%Q.
Proof.
  induction 1 as [|x l l' Hp IH|x y l|l1 l2 l3 H1 IH1 H2 IH2]; cbn [Qsum fold_right].
  - reflexivity.
  - fold (Qsum l) (Qsum l'). rewrite IH. reflexivity.
  - fold (Qsum l). ring.
  - rewrite IH1. exact IH2.
Qed.

Lemma exact_sum_permutation (f : Q -> Q) (l l' : list float) :
  Permutation l l' -> (statistics.exact_sum f l == statistics.exact_sum f l')%Q.
Proof.
  intros Hp. rewrite !exact_sum_values.
  apply Qsum_permutation, Permutation_map, values_permutation, Hp.
Qed.

Lemma isfinite_permutation (l l' : list float) :
  Permutation l l' ->
  forallb statistics.isfinite l = forallb statistics.isfinite l'.
Proof.
  intros Hp. apply eq_true_iff_eq. rewrite !forallb_forall.
  split; intros H x Hx; apply H.
  - apply (Permutation_in _ (Permutation_sym Hp)), Hx.
  - apply (Permutation_in _ Hp), Hx.
Qed.

Lemma sample_variance_permutation (l l' : list float) :
  Permutation l l' -> (sample_variance l == sample_variance l')%Q.
Proof.
  intros Hp. unfold sample_variance, sample_mean.
  rewrite <- (Permutation_length Hp).
  set (n := inject_Z (Z.of_nat (List.length l))).
  set (n1 := inject_Z (Z.of_nat (List.length l) - 1)).
  assert (Qsum (values l) == Qsum (values l'))%Q as Hs
    by apply Qsum_permutation, values_permutation, Hp.
  assert (forall c c', c == c' -> forall v,
            Qsum (map (squared_deviation c) v) == Qsum (map (squared_deviation c') v))%Q
    as Hc.
  { intros c c' Hcc v. induction v as [|q v IH]; cbn [map Qsum fold_right]; [reflexivity|].
    fold (Qsum (map (squared_deviation c) v)) (Qsum (map (squared_deviation c') v)).
    rewrite IH. unfold squared_deviation. rewrite Hcc. reflexivity. }
  rewrite (Hc (Qsum (values l) / n)%Q (Qsum (values l') / n)%Q)
    by (rewrite Hs; reflexivity).
  rewrite (Qsum_permutation _ _
             (Permutation_map _ (values_permutation _ _ Hp))).
  reflexivity.
Qed.

Lemma variance_permutation (l l' : list float) :
  forallb statistics.isfinite l = true -> (2 <= List.length l)%nat ->
  Permutation l l' -> statistics.variance l = statistics.variance l'.
Proof.
  intros Hfin Hlen Hp.
  rewrite !variance_finite;
    rewrite <- ?(isfinite_permutation _ _ Hp), <- ?(Permutation_length Hp); try assumption.
  unfold statistics.fraction_to_float.
  rewrite (Qred_complete _ _ (sample_variance_permutation _ _ Hp)). reflexivity.
Qed.

Lemma stdev_permutation (l l' : list float) :
  forallb statistics.isfinite l = true -> (2 <= List.length l)%nat ->
  Permutation l l' -> statistics.stdev l = statistics.stdev l'.
Proof.
  intros Hfin Hlen Hp.
  rewrite !stdev_finite;
    rewrite <- ?(isfinite_permutation _ _ Hp), <- ?(Permutation_length Hp); try assumption.
  unfold sqrt_of_fraction.
  rewrite (Qred_complete _ _ (sample_variance_permutation _ _ Hp)). reflexivity.
Qed.

Lemma mean_finite (l : list float) :
  forallb statistics.isfinite l = true -> l <> [] ->
  statistics.mean l
  = let r := Qred (sample_mean l) in
    Ok (PyInt.round_ratio (Qnum r) (Zpos (Qden r))).
Proof.
  intros Hfin Hne. unfold statistics.mean, statistics._sum. rewrite Hfin.
  replace (Z.of_nat (List.length l) <? 1)%Z with false.
  - cbv zeta. f_equal.
    assert (statistics.exact_sum (fun q => q) l / inject_Z (Z.of_nat (List.length l))
            == sample_mean l)%Q as H.
    { unfold sample_mean. rewrite exact_sum_values, map_id. reflexivity. }
    rewrite (Qred_complete _ _ H). reflexivity.
  - symmetry. apply Z.ltb_ge. destruct l; [contradiction|]. cbn [List.length]. lia.
Qed.

Lemma mean_permutation (l l' : list float) :
  forallb statistics.isfinite l = true -> l <> [] ->
  Permutation l l' -> statistics.mean l = statistics.mean l'.
Proof.
  intros Hfin Hne Hp.
  assert (l' <> []) as Hne'.
  { intros ->. apply Permutation_sym, Permutation_nil in Hp. contradiction. }
  rewrite !mean_finite; rewrite <- ?(isfinite_permutation _ _ Hp); try assumption.
  assert (sample_mean l == sample_mean l')%Q as H.
  { unfold sample_mean. rewrite <- (Permutation_length Hp).
    rewrite (Qsum_permutation _ _ (values_permutation _ _ Hp)). reflexivity. }
  cbv zeta. rewrite (Qred_complete _ _ H). reflexivity.
Qed.

(** *** The order statistics depend on the order through zeros only *)

Lemma median_permutation (l l' : list float) :
  no_nan l -> Permutation l l' ->
  same_key_result (statistics.median l) (statistics.median l').
Proof.
  intros Hl Hp. unfold statistics.median.
  rewrite !sorted_length, <- (Permutation_length Hp).
  destruct (List.length l =? 0)%nat; [reflexivity|].
  destruct (List.length l mod 2 =? 1)%nat; cbn [same_key_result].
  - apply nth_sorted_key; assumption.
  - apply div_key, add_key; apply nth_sorted_key; assumption.
Qed.

Lemma fold_min_spec (l : list float) (x : float) :
  let m := fold_left (fun m y => if y <? m then y else m) l x in
  In m (x :: l) /\ (m = x \/ (m <? x) = true) /\
  forall y, In y (x :: l) -> (y <? m) = false.
Proof.
  revert x. induction l as [|z l IH]; intros x; cbn [fold_left].
  - split; [left; reflexivity|]. split; [left; reflexivity|].
    intros y [<-|[]]. apply ltb_irrefl.
  - specialize (IH (if z <? x then z else x)). cbv zeta in IH.
    set (m := fold_left _ l _) in *. destruct IH as (Hin & Hle & Hmin).
    assert (m = x \/ (m <? x) = true) as Hx.
    { destruct (z <? x) eqn:E; [|assumption].
      right. destruct Hle as [->|Hle]; [assumption|]. eapply ltb_trans; eassumption. }
    split; [|split; [assumption|]].
    + destruct Hin as [Hin|Hin]; [|right; right; assumption].
      rewrite <- Hin. destruct (z <? x); [right; left|left]; reflexivity.
    + intros y [<-|[<-|Hy]].
      * destruct Hx as [->|Hx]; [apply ltb_irrefl|].
        destruct (x <? m) eqn:E'; [|reflexivity].
        rewrite <- (ltb_irrefl x). symmetry. eapply ltb_trans; eassumption.
      * destruct (z <? x) eqn:E; [apply Hmin; left; reflexivity|].
        destruct Hx as [->|Hx]; [assumption|].
        destruct (z <? m) eqn:E'; [|reflexivity].
        rewrite <- E. symmetry. eapply ltb_trans; eassumption.
      * apply Hmin. right. assumption.
Qed.

Lemma fold_max_spec (l : list float) (x : float) :
  let m := fold_left (fun m y => if m <? y then y else m) l x in
  In m (x :: l) /\ (m = x \/ (x <? m) = true) /\
  forall y, In y (x :: l) -> (m <? y) = false.
Proof.
  revert x. induction l as [|z l IH]; intros x; cbn [fold_left].
  - split; [left; reflexivity|]. split; [left; reflexivity|].
    intros y [<-|[]]. apply ltb_irrefl.
  - specialize (IH (if x <? z then z else x)). cbv zeta in IH.
    set (m := fold_left _ l _) in *. destruct IH as (Hin & Hle & Hmax).
    assert (m = x \/ (x <? m) = true) as Hx.
    { destruct (x <? z) eqn:E; [|assumption].
      right. destruct Hle as [->|Hle]; [assumption|]. eapply ltb_trans; eassumption. }
    split; [|split; [assumption|]].
    + destruct Hin as [Hin|Hin]; [|right; right; assumption].
      rewrite <- Hin. destruct (x <? z); [right; left|left]; reflexivity.
    + intros y [<-|[<-|Hy]].
      * destruct Hx as [->|Hx]; [apply ltb_irrefl|].
        destruct (m <? x) eqn:E'; [|reflexivity].
        rewrite <- (ltb_irrefl x). symmetry. eapply ltb_trans; eassumption.
      * destruct (x <? z) eqn:E; [apply Hmax; left; reflexivity|].
        destruct Hx as [->|Hx]; [assumption|].
        destruct (m <? z) eqn:E'; [|reflexivity].
        rewrite <- E. symmetry. eapply ltb_trans; eassumption.
      * apply Hmax. right. assumption.
Qed.

Lemma no_order_same_key (x y : float) :
  fkey x <> None -> fkey y <> None ->
  (x <? y) = false -> (y <? x) = false -> fkey x = fkey y.
Proof.
  intros Hx Hy H1 H2.
  apply key_le_antisym; apply not_ltb_fle; assumption.
Qed.

Lemma min_permutation (l l' : list float) :
  no_nan l -> Permutation l l' -> same_key_result (builtins.min l) (builtins.min l').
Proof.
  intros Hl Hp.
  assert (no_nan l') as Hl' by (eapply Permutation_Forall; eassumption).
  destruct l as [|x l], l' as [|x' l'].
  - reflexivity.
  - apply Permutation_nil in Hp. discriminate.
  - apply Permutation_sym, Permutation_nil in Hp. discriminate.
  - cbn [builtins.min same_key_result].
    destruct (fold_min_spec l x) as (Hin & _ & Hmin).
    destruct (fold_min_spec l' x') as (Hin' & _ & Hmin').
    cbv zeta in *. unfold no_nan in *. rewrite Forall_forall in Hl, Hl'.
    apply no_order_same_key; auto.
    + apply Hmin', (Permutation_in _ Hp), Hin.
    + apply Hmin, (Permutation_in _ (Permutation_sym Hp)), Hin'.
Qed.

Lemma max_permutation (l l' : list float) :
  no_nan l -> Permutation l l' -> same_key_result (builtins.max l) (builtins.max l').
Proof.
  intros Hl Hp.
  assert (no_nan l') as Hl' by (eapply Permutation_Forall; eassumption).
  destruct l as [|x l], l' as [|x' l'].
  - reflexivity.
  - apply Permutation_nil in Hp. discriminate.
  - apply Permutation_sym, Permutation_nil in Hp. discriminate.
  - cbn [builtins.max same_key_result].
    destruct (fold_max_spec l x) as (Hin & _ & Hmax).
    destruct (fold_max_spec l' x') as (Hin' & _ & Hmax').
    cbv zeta in *. unfold no_nan in *. rewrite Forall_forall in Hl, Hl'.
    apply no_order_same_key; auto.
    + apply Hmax, (Permutation_in _ (Permutation_sym Hp)), Hin'.
    + apply Hmax', (Permutation_in _ Hp), Hin.
Qed.

Lemma no_nan_existsb (l : list float) : no_nan l -> existsb is_nan l = false.
Proof.
  intros H. destruct (existsb is_nan l) eqn:E; [|reflexivity].
  apply existsb_exists in E as (x & Hx & Hn).
  unfold no_nan in H. rewrite Forall_forall in H.
  rewrite (key_not_nan x (H x Hx)) in Hn. discriminate.
Qed.

Lemma lerp_key (a a' b b' t : float) :
  fkey a = fkey a' -> fkey b = fkey b' ->
  fkey (np._lerp a b t) = fkey (np._lerp a' b' t).
Proof.
  intros Ha Hb. unfold np._lerp.
  destruct (0.5 <=? t).
  - apply sub_key; [assumption|]. apply mul_key; [|reflexivity].
    apply sub_key; assumption.
  - apply add_key; [assumption|]. apply mul_key; [|reflexivity].
    apply sub_key; assumption.
Qed.

Lemma take_sorted_key (l l' : list float) (i : Z) :
  no_nan l -> Permutation l l' ->
  fkey (np.take (builtins.sorted l) i) = fkey (np.take (builtins.sorted l') i).
Proof.
  intros Hl Hp. unfold np.take.
  rewrite !sorted_length, <- (Permutation_length Hp).
  apply nth_sorted_key; assumption.
Qed.

Lemma percentile_permutation (l l' : list float) (q : Z) :
  no_nan l -> Permutation l l' ->
  same_key_result (np.percentile l q) (np.percentile l' q).
Proof.
  intros Hl Hp.
  assert (no_nan l') as Hl' by (eapply Permutation_Forall; eassumption).
  unfold np.percentile.
  rewrite <- (Permutation_length Hp), !no_nan_existsb by assumption.
  destruct (_ =? 0)%Z; [reflexivity|]. cbn [same_key_result].
  apply lerp_key; apply take_sorted_key; assumption.
Qed.

(** *** The whole record under a permutation *)

Lemma mean_ok (l : list float) : l <> [] -> exists m, statistics.mean l = Ok m.
Proof.
  intros Hne. unfold statistics.mean, statistics._sum.
  assert ((Z.of_nat (List.length l) <? 1)%Z = false) as Hn.
  { apply Z.ltb_ge. destruct l; [contradiction|]. cbn [List.length]. lia. }
  destruct (forallb statistics.isfinite l); cbv beta iota zeta; rewrite Hn; eauto.
Qed.

Lemma median_ok (l : list float) : l <> [] -> exists m, statistics.median l = Ok m.
Proof.
  intros Hne. unfold statistics.median. rewrite sorted_length.
  destruct l as [|x l]; [contradiction|]. cbn [List.length Nat.eqb].
  destruct (_ =? 1)%nat; eauto.
Qed.

Lemma min_ok (l : list float) : l <> [] -> exists m, builtins.min l = Ok m.
Proof. destruct l; [contradiction|]. cbn [builtins.min]. eauto. Qed.

Lemma max_ok (l : list float) : l <> [] -> exists m, builtins.max l = Ok m.
Proof. destruct l; [contradiction|]. cbn [builtins.max]. eauto. Qed.

Lemma percentile_ok (l : list float) (q : Z) :
  l <> [] -> exists p, np.percentile l q = Ok p.
Proof.
  intros Hne. unfold np.percentile.
  replace (Z.of_nat (List.length l) =? 0)%Z with false.
  - destruct (existsb is_nan l); eauto.
  - symmetry. apply Z.eqb_neq. destruct l; [contradiction|]. cbn [List.length]. lia.
Qed.

(** X2.  A record is returned as soon as the two dispersion statistics are:
    the other library calls return on every list that is not empty. *)
Theorem metrics_returns (errors : list float) (s v : float) :
  statistics.stdev errors = Ok s -> statistics.variance errors = Ok v ->
  exists m, _calculate_statistical_metrics errors = Ok m /\
    metrics.std_dev m = s /\ metrics.variance m = v.
Proof.
  intros Hs Hv.
  assert (errors <> []) as Hne.
  { intros ->. rewrite stdev_short in Hs by (cbn; lia). discriminate. }
  unfold _calculate_statistical_metrics.
  destruct (mean_ok _ Hne) as [mu ->]. destruct (median_ok _ Hne) as [a ->].
  rewrite Hs, Hv.
  destruct (min_ok _ Hne) as [mn ->]. destruct (max_ok _ Hne) as [mx ->].
  destruct (percentile_ok _ StatisticalMetrics.Q1_PERCENTILE Hne) as [p1 ->].
  destruct (percentile_ok _ StatisticalMetrics.Q3_PERCENTILE Hne) as [p3 ->].
  cbn [bind]. eexists. split; [reflexivity|]. split; reflexivity.
Qed.

Lemma metrics_returns_witness :
  exists m, _calculate_statistical_metrics [1; 2; 3; 4; 5] = Ok m /\
    metrics.std_dev m = 1.5811388300841898 /\ metrics.variance m = 2.5.
Proof.
  apply (metrics_returns [1; 2; 3; 4; 5]); vm_compute; reflexivity.
Defined.

Lemma metrics_not_finite (errors : list float) :
  forallb statistics.isfinite errors = false -> (2 <= List.length errors)%nat ->
  _calculate_statistical_metrics errors = Raise AttributeError.
Proof.
  intros Hfin Hlen.
  assert (errors <> []) as Hne by (intros ->; cbn in Hlen; lia).
  unfold _calculate_statistical_metrics.
  destruct (mean_ok _ Hne) as [m ->]. destruct (median_ok _ Hne) as [a ->].
  rewrite (stdev_not_finite _ Hfin Hlen). reflexivity.
Qed.

Lemma finite_no_nan (l : list float) :
  forallb statistics.isfinite l = true -> no_nan l.
Proof.
  intros H. apply Forall_forall. intros x Hx.
  apply isfinite_key. rewrite forallb_forall in H. auto.
Qed.

Lemma metrics_same_outcome (errors errors' : list float) :
  (2 <= List.length errors)%nat -> Permutation errors errors' ->
  same_outcome (_calculate_statistical_metrics errors)
               (_calculate_statistical_metrics errors').
Proof.
  intros Hlen Hp.
  assert (2 <= List.length errors')%nat as Hlen'
    by (rewrite <- (Permutation_length Hp); assumption).
  destruct (forallb statistics.isfinite errors) eqn:Hfin.
  - assert (errors <> []) as Hne by (intros ->; cbn in Hlen; lia).
    pose proof (finite_no_nan _ Hfin) as Hnan.
    pose proof (mean_permutation _ _ Hfin Hne Hp) as Hmean.
    pose proof (median_permutation _ _ Hnan Hp) as Hmedian.
    pose proof (stdev_permutation _ _ Hfin Hlen Hp) as Hstdev.
    pose proof (variance_permutation _ _ Hfin Hlen Hp) as Hvar.
    pose proof (min_permutation _ _ Hnan Hp) as Hmin.
    pose proof (max_permutation _ _ Hnan Hp) as Hmax.
    pose proof (percentile_permutation _ _ 25 Hnan Hp) as Hq1.
    pose proof (percentile_permutation _ _ 75 Hnan Hp) as Hq3.
    unfold _calculate_statistical_metrics, StatisticalMetrics.Q1_PERCENTILE,
      StatisticalMetrics.Q3_PERCENTILE.
    rewrite <- Hmean, <- Hstdev, <- Hvar.
    destruct (statistics.mean errors) as [mu|e]; cbn [bind]; [|reflexivity].
    same_key_cases Hmedian (statistics.median errors) (statistics.median errors') a a'.
    destruct (statistics.stdev errors) as [sd|e]; cbn [bind]; [|reflexivity].
    destruct (statistics.variance errors) as [v|e]; cbn [bind]; [|reflexivity].
    same_key_cases Hmin (builtins.min errors) (builtins.min errors') mn mn'.
    same_key_cases Hmax (builtins.max errors) (builtins.max errors') mx mx'.
    same_key_cases Hq1 (np.percentile errors 25) (np.percentile errors' 25) p1 p1'.
    same_key_cases Hq3 (np.percentile errors 75) (np.percentile errors' 75) p3 p3'.
    cbn [same_outcome]. unfold same_metrics. cbn.
    rewrite !same_value_key. repeat split; auto using sub_key.
  - rewrite (metrics_not_finite _ Hfin Hlen).
    rewrite (isfinite_permutation _ _ Hp) in Hfin.
    rewrite (metrics_not_finite _ Hfin Hlen'). reflexivity.
Qed.

(** *** Without a negative zero the floats are determined by their keys *)

Lemma key_injective (x y : float) : x <> -0 -> y <> -0 -> fkey x = fkey y -> x = y.
Proof.
  intros Hx Hy H. destruct (key_eq_cases _ _ H) as [E|(s & s' & Ex & Ey)].
  - apply Prim2SF_inj, E.
  - assert (s = false) as ->.
    { destruct s; [|reflexivity]. exfalso. apply Hx.
      rewrite <- (SF2Prim_Prim2SF x), Ex. reflexivity. }
    assert (s' = false) as ->.
    { destruct s'; [|reflexivity]. exfalso. apply Hy.
      rewrite <- (SF2Prim_Prim2SF y), Ey. reflexivity. }
    apply Prim2SF_inj. congruence.
Qed.

Lemma map_key_injective (l l' : list float) :
  no_negative_zero l -> no_negative_zero l' -> map fkey l = map fkey l' -> l = l'.
Proof.
  intros Hl. revert l'. induction Hl as [|x l Hx Hl IH]; intros [|y l'] Hl' H;
    try discriminate; [reflexivity|].
  apply Forall_cons_iff in Hl' as [Hy Hl']. cbn [map] in H. injection H as Hk H.
  f_equal; [apply key_injective; assumption|apply IH; assumption].
Qed.

Lemma sorted_permutation_eq (l l' : list float) :
  no_nan l -> no_negative_zero l -> Permutation l l' ->
  builtins.sorted l = builtins.sorted l'.
Proof.
  intros Hn Hz Hp. apply map_key_injective.
  - apply (Permutation_Forall (Permutation_sym (sorted_perm l))), Hz.
  - apply (Permutation_Forall (Permutation_sym (sorted_perm l'))).
    apply (Permutation_Forall Hp), Hz.
  - apply sorted_keys_permutation; assumption.
Qed.

Lemma min_in (l : list float) (m : float) : builtins.min l = Ok m -> In m l.
Proof.
  destruct l as [|x l]; [discriminate|]. cbn [builtins.min]. intros H. injection H as <-.
  apply (fold_min_spec l x).
Qed.

Lemma max_in (l : list float) (m : float) : builtins.max l = Ok m -> In m l.
Proof.
  destruct l as [|x l]; [discriminate|]. cbn [builtins.max]. intros H. injection H as <-.
  apply (fold_max_spec l x).
Qed.

Lemma min_permutation_eq (l l' : list float) :
  no_nan l -> no_negative_zero l -> Permutation l l' ->
  builtins.min l = builtins.min l'.
Proof.
  intros Hn Hz Hp. pose proof (min_permutation l l' Hn Hp) as H.
  destruct (builtins.min l) as [m|e] eqn:E, (builtins.min l') as [m'|e'] eqn:E';
    cbn in H; try contradiction; [|congruence].
  f_equal. unfold no_negative_zero in Hz. rewrite Forall_forall in Hz.
  apply key_injective; [| |assumption].
  - apply Hz, (min_in _ _ E).
  - apply Hz, (Permutation_in _ (Permutation_sym Hp)), (min_in _ _ E').
Qed.

Lemma max_permutation_eq (l l' : list float) :
  no_nan l -> no_negative_zero l -> Permutation l l' ->
  builtins.max l = builtins.max l'.
Proof.
  intros Hn Hz Hp. pose proof (max_permutation l l' Hn Hp) as H.
  destruct (builtins.max l) as [m|e] eqn:E, (builtins.max l') as [m'|e'] eqn:E';
    cbn in H; try contradiction; [|congruence].
  f_equal. unfold no_negative_zero in Hz. rewrite Forall_forall in Hz.
  apply key_injective; [| |assumption].
  - apply Hz, (max_in _ _ E).
  - apply Hz, (Permutation_in _ (Permutation_sym Hp)), (max_in _ _ E').
Qed.

Lemma median_permutation_eq (l l' : list float) :
  no_nan l -> no_negative_zero l -> Permutation l l' ->
  statistics.median l = statistics.median l'.
Proof.
  intros Hn Hz Hp. unfold statistics.median.
  rewrite (sorted_permutation_eq l l' Hn Hz Hp). reflexivity.
Qed.

Lemma percentile_permutation_eq (l l' : list float) (q : Z) :
  no_nan l -> no_negative_zero l -> Permutation l l' ->
  np.percentile l q = np.percentile l' q.
Proof.
  intros Hn Hz Hp. unfold np.percentile.
  assert (no_nan l') as Hn' by (eapply Permutation_Forall; eassumption).
  rewrite (sorted_permutation_eq l l' Hn Hz Hp), (Permutation_length Hp),
    !no_nan_existsb by assumption.
  reflexivity.
Qed.

Lemma metrics_permutation_eq (errors errors' : list float) :
  (2 <= List.length errors)%nat -> Permutation errors errors' ->
  no_negative_zero errors ->
  _calculate_statistical_metrics errors = _calculate_statistical_metrics errors'.
Proof.
  intros Hlen Hp Hz.
  assert (2 <= List.length errors')%nat as Hlen'
    by (rewrite <- (Permutation_length Hp); assumption).
  destruct (forallb statistics.isfinite errors) eqn:Hfin.
  - assert (errors <> []) as Hne by (intros ->; cbn in Hlen; lia).
    pose proof (finite_no_nan _ Hfin) as Hn.
    unfold _calculate_statistical_metrics.
    rewrite (mean_permutation _ _ Hfin Hne Hp), (median_permutation_eq _ _ Hn Hz Hp),
      (stdev_permutation _ _ Hfin Hlen Hp), (variance_permutation _ _ Hfin Hlen Hp),
      (min_permutation_eq _ _ Hn Hz Hp), (max_permutation_eq _ _ Hn Hz Hp),
      !(percentile_permutation_eq _ _ _ Hn Hz Hp).
    reflexivity.
  - rewrite (metrics_not_finite _ Hfin Hlen).
    rewrite (isfinite_permutation _ _ Hp) in Hfin.
    rewrite (metrics_not_finite _ Hfin Hlen'). reflexivity.
Qed.

(** C10 (amended in the sign of zeros).  For every list of at least two
    values and every permutation of it, the two calls end alike: both raise
    the same exception, or both return a record and each of the ten
    statistics has the same value in both records (the same float, or floats
    equal under [==]); and when the list holds no negative zero the two
    outcomes are identical, float for float. *)
Theorem metrics_permutation_invariant (errors errors' : list float) :
  (2 <= List.length errors)%nat -> Permutation errors errors' ->
  same_outcome (_calculate_statistical_metrics errors)
               (_calculate_statistical_metrics errors') /\
  (no_negative_zero errors -> identical_metrics errors errors').
Proof.
  intros Hlen Hp. split.
  - apply metrics_same_outcome; assumption.
  - intros Hz. apply metrics_permutation_eq; assumption.
Qed.

Lemma metrics_permutation_invariant_witness :
  identical_metrics [1.2; 2.3; 0.8; 1.5] [2.3; 1.2; 0.8; 1.5].
Proof.
  apply (metrics_permutation_invariant [1.2; 2.3; 0.8; 1.5] [2.3; 1.2; 0.8; 1.5]).
  - cbn. lia.
  - apply perm_swap.
  - repeat constructor; intros H; apply (f_equal Prim2SF) in H; vm_compute in H;
      discriminate.
Defined.

(** C10 as stated fails on the sign of a zero: [min] and [max] keep the
    first of two items that compare equal, so [[0.0, -0.0]] has the minimum
    [0.0] and [[-0.0, 0.0]] the minimum [-0.0]. *)
Lemma zero_sign_depends_on_order :
  ~ ((2 <= List.length zero_first)%nat ->
     Permutation zero_first negative_zero_first ->
     identical_metrics zero_first negative_zero_first).
Proof.
  intros H. unfold identical_metrics in H.
  specialize (H ltac:(cbn; lia) (perm_swap _ _ _)).
  apply (f_equal (fun r => match r with
                           | Ok m => Prim2SF (metrics.min m)
                           | Raise _ => S754_nan
                           end)) in H.
  vm_compute in H. discriminate.
Qed.

(** Only the sign of a zero can depend on the order of the list. *)
Example min_of_zeros :
  builtins.min [0; -0] = Ok 0 /\ builtins.min [-0; 0] = Ok (-0) /\ (0 =? -0) = true.
Proof. repeat split. Qed.

(** ** More on [_find_best_combination] *)

Lemma ltb_nan_l (x y : float) : fkey x = None -> (x <? y) = false.
Proof.
  intros H. destruct (x <? y) eqn:E; [|reflexivity].
  apply ltb_key in E. rewrite H in E. destruct E.
Qed.

Lemma below_infinity_key (x : float) : (x <? infinity) = true -> fkey x <> None.
Proof. intros H Hk. rewrite (ltb_nan_l _ _ Hk) in H. discriminate. Qed.

Lemma not_ltb_leb (x y : float) :
  fkey x <> None -> fkey y <> None -> (x <? y) = false -> (y <=? x) = true.
Proof.
  intros Hx Hy H. apply leb_key. apply not_ltb_fle in H; try assumption.
  destruct H as [H|H]; [left; assumption|right].
  rewrite H. destruct (fkey x) as [[[a b] d]|]; [cbn; auto|contradiction].
Qed.

Lemma fkey_nan_iff (x : float) : fkey x = None <-> is_nan x = true.
Proof.
  unfold is_nan. split; intros H.
  - destruct (x =? x) eqn:E; [|reflexivity].
    apply eqb_key in E. rewrite H in E. destruct E.
  - destruct (fkey x) as [[[a b] c]|] eqn:E; [|reflexivity].
    assert ((x =? x) = true) as E' by (apply eqb_key; rewrite E; cbn; auto).
    rewrite E' in H. discriminate.
Qed.

Lemma fkey_not_nan (x : float) : fkey x <> None -> is_nan x = false.
Proof.
  intros H. destruct (is_nan x) eqn:E; [|reflexivity].
  apply fkey_nan_iff in E. contradiction.
Qed.

Lemma fkey_nan_SF (x : float) : fkey x = None <-> Prim2SF x = S754_nan.
Proof.
  unfold fkey. destruct (Prim2SF x) as [[]|[]| |[] m e]; cbn; split; intros H;
    congruence.
Qed.

(** A NaN operand makes the result of an operation a NaN. *)
Lemma mul_nan (x y : float) : fkey x = None \/ fkey y = None -> fkey (x * y) = None.
Proof.
  rewrite !fkey_nan_SF, mul_spec. unfold SF64mul.
  intros [H|H]; rewrite H; [|destruct (Prim2SF x)]; reflexivity.
Qed.

Lemma div_nan (x y : float) : fkey x = None \/ fkey y = None -> fkey (x / y) = None.
Proof.
  rewrite !fkey_nan_SF, div_spec. unfold SF64div.
  intros [H|H]; rewrite H; [|destruct (Prim2SF x)]; reflexivity.
Qed.

Lemma sub_nan (x y : float) : fkey x = None \/ fkey y = None -> fkey (x - y) = None.
Proof.
  rewrite !fkey_nan_SF, sub_spec. unfold SF64sub.
  intros [H|H]; rewrite H; [|destruct (Prim2SF x)]; reflexivity.
Qed.

Lemma abs_nan (x : float) : fkey x = None -> fkey (abs x) = None.
Proof.
  rewrite !fkey_nan_SF, abs_spec. intros H. rewrite H. reflexivity.
Qed.

Lemma percentage_error_nan (target n1 n2 n3 : float) :
  fkey n1 = None \/ fkey n2 = None \/ fkey n3 = None \/ fkey target = None ->
  fkey (percentage_error target (n1, n2, n3)) = None.
Proof.
  intros H. unfold percentage_error, formula.
  apply mul_nan. left.
  destruct H as [H|[H|[H|H]]].
  - apply div_nan. left. apply abs_nan, sub_nan. left. apply div_nan. left.
    apply mul_nan. auto.
  - apply div_nan. left. apply abs_nan, sub_nan. left. apply div_nan. left.
    apply mul_nan. auto.
  - apply div_nan. left. apply abs_nan, sub_nan. left. apply div_nan. auto.
  - apply div_nan. auto.
Qed.

(** What the search returns for a nonzero target, in terms of the pool. *)
Lemma search_summary (numbers : list float) (target : float) :
  (target =? 0) = false ->
  exists r e c,
    _find_best_combination numbers target = Ok (r, e, c) /\
    (forall n1 n2 n3, In n1 numbers -> In n2 numbers -> In n3 numbers ->
       (n3 =? 0) = false ->
       (percentage_error target (n1, n2, n3) <? e) = false) /\
    match c with
    | Some (n1, n2, n3) =>
        In n1 numbers /\ In n2 numbers /\ In n3 numbers /\ (n3 =? 0) = false /\
        r = Some (n1 * n2 / n3) /\
        e = percentage_error target (n1, n2, n3) /\ (e <? infinity) = true
    | None => e = infinity /\ r = None
    end.
Proof.
  intros Ht. rewrite (find_best_combination_nonzero _ Ht). cbv zeta.
  destruct (search_inv_final target numbers) as [Hmin Hbest].
  set (st := fold_left _ _ _) in *.
  exists (best_result st), (best_error st), (best_combination st).
  split; [reflexivity|]. split.
  - intros n1 n2 n3 I1 I2 I3 Hz. apply Hmin; [apply in_product3; auto|].
    cbn. rewrite Hz. reflexivity.
  - destruct (best_combination st) as [[[n1 n2] n3]|].
    + destruct Hbest as (pre & post & Hsplit & Hv & He & Hr & Hinf & _).
      assert (In (n1, n2, n3) (product3 numbers)) as Hin
        by (rewrite Hsplit; apply in_elt).
      apply in_product3 in Hin as (I1 & I2 & I3).
      cbn in Hv. apply negb_true_iff in Hv. auto 10.
    + apply Hbest.
Qed.

(** X3.  A returned combination is made of numbers of the pool, its divisor
    is not zero, no component and no target is a NaN, the returned result is
    [(n1 * n2) / n3] for it, and the returned error is
    [|result - target| / target * 100] for it, a value below [+inf]. *)
Theorem returned_triple_consistent (numbers : list float) (target : float)
  (r : option float) (e n1 n2 n3 : float) :
  _find_best_combination numbers target = Ok (r, e, Some (n1, n2, n3)) ->
  In n1 numbers /\ In n2 numbers /\ In n3 numbers /\
  (n3 =? 0) = false /\ (target =? 0) = false /\
  r = Some (n1 * n2 / n3) /\
  e = abs (n1 * n2 / n3 - target) / target * 100 /\
  (e <? infinity) = true /\
  is_nan n1 = false /\ is_nan n2 = false /\ is_nan n3 = false /\
  is_nan target = false.
Proof.
  intros H. destruct (target =? 0) eqn:Ht.
  - rewrite (zero_target_outcome _ _ Ht) in H.
    destruct (existsb _ numbers); discriminate.
  - destruct (search_summary numbers target Ht) as (r' & e' & c' & E & _ & Hc).
    rewrite E in H. injection H as -> -> ->.
    destruct Hc as (I1 & I2 & I3 & Hz & Hr & He & Hinf).
    pose proof (below_infinity_key _ Hinf) as Hk.
    assert (forall x, (fkey x = None -> fkey e = None) -> is_nan x = false) as Hn.
    { intros x Hx. apply fkey_not_nan. intros Hx'. apply Hk, Hx, Hx'. }
    do 7 (split; [assumption || reflexivity|]). split; [assumption|].
    rewrite He in Hn.
    repeat split; apply Hn; intros Hx; apply percentage_error_nan; auto.
Qed.

Lemma returned_triple_consistent_witness :
  In 2 [2; 5; 10] /\ In 5 [2; 5; 10] /\ In 10 [2; 5; 10] /\
  (10 =? 0) = false /\ (1 =? 0) = false /\
  Some 1 = Some (2 * 5 / 10) /\
  0 = abs (2 * 5 / 10 - 1) / 1 * 100 /\
  (0 <? infinity) = true /\
  is_nan 2 = false /\ is_nan 5 = false /\ is_nan 10 = false /\ is_nan 1 = false.
Proof.
  apply (returned_triple_consistent [2; 5; 10] 1 (Some 1) 0 2 5 10).
  vm_compute. reflexivity.
Defined.

(** X4.  For a nonzero target the search returns no combination exactly
    when no triple of the pool with a nonzero divisor has a percentage error
    below [+inf] (the error is [+inf] or a NaN for every one of them, or
    the pool has no nonzero number at all). *)
Theorem no_combination_iff (numbers : list float) (target : float) :
  (target =? 0) = false ->
  (exists r e, _find_best_combination numbers target = Ok (r, e, None)) <->
  (forall n1 n2 n3, In n1 numbers -> In n2 numbers -> In n3 numbers ->
     (n3 =? 0) = false ->
     (percentage_error target (n1, n2, n3) <? infinity) = false).
Proof.
  intros Ht.
  destruct (search_summary numbers target Ht) as (r & e & c & E & Hmin & Hc).
  rewrite E. split.
  - intros (r' & e' & H). injection H as -> -> ->. destruct Hc as [-> _].
    exact Hmin.
  - intros H. destruct c as [[[n1 n2] n3]|]; [|eauto].
    destruct Hc as (I1 & I2 & I3 & Hz & _ & He & Hinf).
    rewrite He, (H n1 n2 n3 I1 I2 I3 Hz) in Hinf. discriminate.
Qed.

Lemma no_combination_iff_witness :
  (exists r e, _find_best_combination [1e200; 2e200] 1 = Ok (r, e, None)) <->
  (forall n1 n2 n3, In n1 [1e200; 2e200] -> In n2 [1e200; 2e200] ->
     In n3 [1e200; 2e200] -> (n3 =? 0) = false ->
     (percentage_error 1 (n1, n2, n3) <? infinity) = false).
Proof.
  apply no_combination_iff. reflexivity.
Defined.

(** X5.  A target that is a NaN (a missing target cell) selects nothing:
    the search returns [(None, inf, None)] for every pool, and STEP 1 of
    [analyze] raises [TypeError] when it unpacks the absent combination. *)
Theorem nan_target_selects_nothing (data : dataset) :
  is_nan (target data) = true ->
  _find_best_combination (numbers data) (target data) = Ok (None, infinity, None) /\
  best_match data = Raise TypeError.
Proof.
  intros Hnan. apply fkey_nan_iff in Hnan.
  assert ((target data =? 0) = false) as Ht.
  { destruct (target data =? 0) eqn:E; [|reflexivity].
    apply eqb_key in E. rewrite Hnan in E. destruct E. }
  assert (_find_best_combination (numbers data) (target data)
          = Ok (None, infinity, None)) as E.
  { destruct (search_summary (numbers data) (target data) Ht)
      as (r & e & c & E & _ & Hc).
    rewrite E. destruct c as [[[n1 n2] n3]|].
    - destruct Hc as (_ & _ & _ & _ & _ & He & Hinf).
      rewrite He, ltb_nan_l in Hinf; [discriminate|].
      apply percentage_error_nan. auto.
    - destruct Hc as [-> ->]. reflexivity. }
  split; [exact E|]. unfold best_match. rewrite E. reflexivity.
Qed.

Lemma nan_target_selects_nothing_witness :
  _find_best_combination [2; 5; 10] nan = Ok (None, infinity, None) /\
  best_match {| target := nan; numbers := [2; 5; 10] |} = Raise TypeError.
Proof.
  apply (nan_target_selects_nothing {| target := nan; numbers := [2; 5; 10] |}).
  reflexivity.
Defined.

Lemma sub_self (x : float) :
  (0 <? x) = true -> (x <? infinity) = true -> x - x = 0.
Proof.
  intros H0 Hinf. apply Prim2SF_inj. rewrite sub_spec. unfold SF64sub.
  apply ltb_key in H0, Hinf. unfold fkey in *.
  destruct (Prim2SF x) as [[]|[]| |[] m e]; cbn in H0, Hinf; try (key_solve; fail).
  cbn [SFsub]. rewrite Z.sub_diag. reflexivity.
Qed.

Lemma zero_div_positive (x : float) :
  (0 <? x) = true -> (x <? infinity) = true -> 0 / x = 0.
Proof.
  intros H0 Hinf. apply Prim2SF_inj. rewrite div_spec. unfold SF64div.
  apply ltb_key in H0, Hinf. unfold fkey in *.
  destruct (Prim2SF x) as [[]|[]| |[] m e]; cbn in H0, Hinf; key_solve.
Qed.

Lemma exact_hit_error (target : float) (c : combination) :
  (0 <? target) = true -> (target <? infinity) = true ->
  (formula c =? target) = true -> percentage_error target c = 0.
Proof.
  intros H0 Hinf Hhit. unfold percentage_error.
  assert (formula c = target) as ->.
  { apply eqb_key in Hhit. apply ltb_key in H0. rewrite fkey_zero in H0.
    apply key_injective.
    - intros E. rewrite E in Hhit. change (fkey (-0)) with (fkey 0) in Hhit.
      rewrite fkey_zero in Hhit. key_solve.
    - intros E. rewrite E in H0. change (fkey (-0)) with (fkey 0) in H0.
      rewrite fkey_zero in H0. key_solve.
    - destruct (fkey (formula c)) as [[[a b] d]|], (fkey target) as [[[a' b'] d']|];
        cbn in Hhit; try contradiction.
      destruct Hhit as (-> & -> & ->). reflexivity. }
  rewrite (sub_self _ H0 Hinf). change (abs 0) with 0.
  rewrite (zero_div_positive _ H0 Hinf). reflexivity.
Qed.

Lemma percentage_error_sign (target : float) (c : combination) :
  (0 <? target) = true -> nonneg (Prim2SF (percentage_error target c)).
Proof.
  intros Ht. unfold percentage_error.
  rewrite mul_spec, div_spec, abs_spec.
  apply SFmul_nonneg; [apply SFdiv_nonneg|].
  - apply SFabs_nonneg.
  - apply positive_strictly, Ht.
  - exact I.
Qed.

(** X6.  When the target is positive and finite and some triple of the pool
    with a nonzero divisor gives exactly the target, the search returns a
    combination with the error [0.0]. *)
Theorem exact_hit_zero_error (numbers : list float) (target n1 n2 n3 : float) :
  (0 <? target) = true -> (target <? infinity) = true ->
  In n1 numbers -> In n2 numbers -> In n3 numbers -> (n3 =? 0) = false ->
  (n1 * n2 / n3 =? target) = true ->
  exists r c, _find_best_combination numbers target = Ok (r, 0, Some c).
Proof.
  intros H0 Hinf I1 I2 I3 Hz Hhit.
  pose proof (positive_nonzero _ H0) as Ht.
  assert (percentage_error target (n1, n2, n3) = 0) as Hzero
    by (apply exact_hit_error; assumption).
  destruct (search_summary numbers target Ht) as (r & e & c & H & Hmin & Hc).
  specialize (Hmin n1 n2 n3 I1 I2 I3 Hz). rewrite Hzero in Hmin.
  destruct c as [[[m1 m2] m3]|]; [|destruct Hc as [-> _]; discriminate].
  destruct Hc as (J1 & J2 & J3 & Hz' & _ & He & Hinf').
  pose proof (percentage_error_sign target (m1, m2, m3) H0) as Hs.
  rewrite <- He in Hs.
  assert (e = 0) as ->; [|eauto].
  apply key_injective.
  - intros E. rewrite E in Hs. discriminate Hs.
  - intros E. apply (f_equal Prim2SF) in E. discriminate E.
  - apply below_infinity_key in Hinf'.
    destruct (e <? 0) eqn:E0.
    + apply nonneg_leb in Hs; [|apply ltb_key; apply ltb_key in E0;
        rewrite fkey_zero in E0; rewrite fkey_infinity; key_solve].
      apply leb_key in Hs. apply ltb_key in E0. rewrite fkey_zero in *. key_solve.
    + apply no_order_same_key; try assumption.
      rewrite fkey_zero. discriminate.
Qed.

Lemma exact_hit_zero_error_witness :
  exists r c, _find_best_combination [7; 2; 5; 10] 1 = Ok (r, 0, Some c).
Proof.
  apply (exact_hit_zero_error [7; 2; 5; 10] 1 2 5 10); try reflexivity;
    cbn; tauto.
Defined.

Lemma existsb_members (f : float -> bool) (l l' : list float) :
  (forall x, In x l -> In x l') -> existsb f l = true -> existsb f l' = true.
Proof.
  intros H E. apply existsb_exists in E as (x & Hx & Hf).
  apply existsb_exists. exists x. auto.
Qed.

(** X7.  The best error does not depend on the order of the pool nor on
    how often a number occurs in it: for two pools with the same members the
    search raises the same exception, or returns errors of the same value
    and a combination for both or for neither. *)
Theorem best_error_pool_order (numbers numbers' : list float) (target : float) :
  same_members numbers numbers' ->
  same_best_error (_find_best_combination numbers target)
                  (_find_best_combination numbers' target).
Proof.
  intros Hm. destruct (target =? 0) eqn:Ht.
  - rewrite !(zero_target_outcome _ _ Ht).
    assert (existsb (fun n => negb (n =? 0)) numbers
            = existsb (fun n => negb (n =? 0)) numbers') as ->.
    { destruct (existsb _ numbers) eqn:E, (existsb _ numbers') eqn:E';
        try reflexivity.
      - rewrite (existsb_members _ numbers numbers') in E'; auto.
        intros x. apply Hm.
      - rewrite (existsb_members _ numbers' numbers) in E; auto.
        intros x. apply Hm. }
    destruct (existsb _ numbers'); cbn; [reflexivity|].
    split; [left; reflexivity|tauto].
  - destruct (search_summary numbers target Ht) as (r & e & c & -> & Hmin & Hc).
    destruct (search_summary numbers' target Ht) as (r' & e' & c' & -> & Hmin' & Hc').
    cbn. destruct c as [[[n1 n2] n3]|], c' as [[[m1 m2] m3]|].
    + destruct Hc as (I1 & I2 & I3 & Hz & _ & He & Hinf).
      destruct Hc' as (J1 & J2 & J3 & Hz' & _ & He' & Hinf').
      split; [|split; discriminate].
      apply same_value_key, no_order_same_key;
        try (apply below_infinity_key; assumption).
      * rewrite He at 1. apply Hmin'; try apply Hm; assumption.
      * rewrite He' at 1. apply Hmin; try apply Hm; assumption.
    + exfalso. destruct Hc as (I1 & I2 & I3 & Hz & _ & He & Hinf).
      destruct Hc' as [-> _].
      rewrite He, Hmin' in Hinf; try apply Hm; auto. discriminate.
    + exfalso. destruct Hc' as (J1 & J2 & J3 & Hz' & _ & He' & Hinf').
      destruct Hc as [-> _].
      rewrite He', Hmin in Hinf'; try apply Hm; auto. discriminate.
    + destruct Hc as [-> _], Hc' as [-> _]. split; [left; reflexivity|tauto].
Qed.

Lemma best_error_pool_order_witness :
  same_best_error (_find_best_combination [2; 5; 10] 1)
                  (_find_best_combination [10; 5; 2; 2; 5] 1).
Proof.
  apply best_error_pool_order. intros x. cbn. tauto.
Defined.

(** X8.  More numbers never make the best error worse: for a nonzero
    target both searches return, the error found in a pool that contains
    every number of another pool is [<=] the error found in that pool, and a
    combination is found in the larger pool whenever one is found in the
    smaller. *)
Theorem larger_pool_not_worse (numbers numbers' : list float) (target : float) :
  (target =? 0) = false -> incl numbers numbers' ->
  exists r e c r' e' c',
    _find_best_combination numbers target = Ok (r, e, c) /\
    _find_best_combination numbers' target = Ok (r', e', c') /\
    (e' <=? e) = true /\ (c <> None -> c' <> None).
Proof.
  intros Ht Hincl.
  destruct (search_summary numbers target Ht) as (r & e & c & -> & Hmin & Hc).
  destruct (search_summary numbers' target Ht) as (r' & e' & c' & -> & Hmin' & Hc').
  exists r, e, c, r', e', c'. split; [reflexivity|]. split; [reflexivity|].
  assert (fkey infinity <> None) as Hi by (rewrite fkey_infinity; discriminate).
  assert (fkey e <> None) as Hk.
  { destruct c as [[[n1 n2] n3]|]; [|destruct Hc as [-> _]; assumption].
    apply below_infinity_key, Hc. }
  assert (fkey e' <> None) as Hk'.
  { destruct c' as [[[n1 n2] n3]|]; [|destruct Hc' as [-> _]; assumption].
    apply below_infinity_key, Hc'. }
  assert ((e <? e') = false) as Hlt.
  { destruct c as [[[n1 n2] n3]|].
    - destruct Hc as (I1 & I2 & I3 & Hz & _ & He & Hinf).
      rewrite He at 1. apply Hmin'; try apply Hincl; assumption.
    - destruct Hc as [-> _]. destruct (infinity <? e') eqn:E; [|reflexivity].
      apply ltb_key in E. rewrite fkey_infinity in E.
      destruct c' as [[[n1 n2] n3]|].
      + destruct Hc' as (_ & _ & _ & _ & _ & _ & Hinf). apply ltb_key in Hinf.
        rewrite fkey_infinity in Hinf. key_solve.
      + destruct Hc' as [-> _]. rewrite fkey_infinity in E. key_solve. }
  split; [apply not_ltb_leb; assumption|].
  intros Hsome. destruct c as [[[n1 n2] n3]|]; [|contradiction].
  destruct c' as [c'|]; [discriminate|]. destruct Hc' as [-> _].
  destruct Hc as (I1 & I2 & I3 & Hz & _ & He & Hinf).
  rewrite He, Hmin' in Hinf; try apply Hincl; auto. discriminate.
Qed.

Lemma larger_pool_not_worse_witness :
  exists r e c r' e' c',
    _find_best_combination [3; 5] 4 = Ok (r, e, c) /\
    _find_best_combination [3; 5; 4] 4 = Ok (r', e', c') /\
    (e' <=? e) = true /\ (c <> None -> c' <> None).
Proof.
  apply larger_pool_not_worse; [reflexivity|].
  intros x H. cbn in *. tauto.
Defined.

(** ** More on STEP 1 of [analyze] *)

Lemma best_match_returns (data : dataset) (r : option float) (e : float)
  (c : combination) :
  best_match data = Ok (r, e, c) ->
  _find_best_combination (numbers data) (target data) = Ok (r, e, Some c).
Proof.
  unfold best_match.
  destruct (_find_best_combination (numbers data) (target data))
    as [[[r' e'] [c'|]]|]; cbn [bind]; try discriminate.
  intros H. injection H as -> -> ->. reflexivity.
Qed.

Lemma best_match_cases (data : dataset) :
  match best_match data with
  | Ok (_, e, _) => (target data =? 0) = false /\ (e <? infinity) = true
  | Raise x =>
      (x = ZeroDivisionError /\ (target data =? 0) = true /\
       exists n, In n (numbers data) /\ (n =? 0) = false) \/
      (x = TypeError /\
       forall n1 n2 n3,
         In n1 (numbers data) -> In n2 (numbers data) -> In n3 (numbers data) ->
         (n3 =? 0) = false ->
         (target data =? 0) = false /\
         (percentage_error (target data) (n1, n2, n3) <? infinity) = false)
  end.
Proof.
  unfold best_match. destruct (target data =? 0) eqn:Ht.
  - rewrite (zero_target_outcome _ _ Ht).
    destruct (existsb _ (numbers data)) eqn:E; cbn [bind].
    + left. split; [reflexivity|]. split; [reflexivity|].
      apply existsb_exists in E as (n & Hn & E).
      exists n. split; [assumption|]. apply negb_true_iff, E.
    + right. split; [reflexivity|]. intros n1 n2 n3 _ _ I3 Hz. exfalso.
      assert (existsb (fun n => negb (n =? 0)) (numbers data) = true) as E'
        by (apply existsb_exists; exists n3; rewrite Hz; auto).
      congruence.
  - destruct (search_summary (numbers data) (target data) Ht)
      as (r & e & c & -> & Hmin & Hc). cbn [bind].
    destruct c as [[[n1 n2] n3]|].
    + split; [reflexivity|]. apply Hc.
    + right. split; [reflexivity|]. destruct Hc as [-> _].
      intros n1 n2 n3 I1 I2 I3 Hz.
      split; [reflexivity|]. apply Hmin; assumption.
Qed.

(** X9.  The unpacking of the search result in STEP 1 ends in one of three
    ways.  It returns, for a nonzero target and with an error below [+inf];
    it raises [ZeroDivisionError], and then the target is zero and the pool
    has a nonzero number; or it raises [TypeError], and then no triple of
    the pool with a nonzero divisor has an error below [+inf].  It raises
    nothing else. *)
Theorem best_match_outcome (data : dataset) :
  match best_match data with
  | Ok (_, e, _) => (target data =? 0) = false /\ (e <? infinity) = true
  | Raise ZeroDivisionError =>
      (target data =? 0) = true /\
      exists n, In n (numbers data) /\ (n =? 0) = false
  | Raise TypeError =>
      forall n1 n2 n3,
        In n1 (numbers data) -> In n2 (numbers data) -> In n3 (numbers data) ->
        (n3 =? 0) = false ->
        (target data =? 0) = false /\
        (percentage_error (target data) (n1, n2, n3) <? infinity) = false
  | Raise _ => False
  end.
Proof.
  pose proof (best_match_cases data) as H.
  destruct (best_match data) as [[[r e] c]|x]; [exact H|].
  destruct H as [(-> & H)|(-> & H)]; exact H.
Qed.

(** ** More on the statistics and the rating *)

(** X10.  In a returned record [min] and [max] are items of the list, and
    every item lies between them. *)
Theorem extremes_bound_errors (errors : list float) (m : metrics.t) :
  _calculate_statistical_metrics errors = Ok m ->
  In (metrics.min m) errors /\ In (metrics.max m) errors /\
  forall e, In e errors ->
    (metrics.min m <=? e) = true /\ (e <=? metrics.max m) = true.
Proof.
  intros H. pose proof (metrics_ok_finite _ _ H) as [_ Hfin].
  apply finite_no_nan in Hfin. unfold no_nan in Hfin.
  rewrite Forall_forall in Hfin.
  apply metrics_ok_inv in H as (_ & _ & _ & _ & Hmin & Hmax & _).
  pose proof (min_in _ _ Hmin) as Imin. pose proof (max_in _ _ Hmax) as Imax.
  split; [assumption|]. split; [assumption|].
  intros e He. destruct errors as [|x l]; [destruct He|].
  cbn [builtins.min builtins.max] in Hmin, Hmax.
  injection Hmin as Hmin. injection Hmax as Hmax.
  pose proof (fold_min_spec l x) as (_ & _ & Hlo).
  pose proof (fold_max_spec l x) as (_ & _ & Hhi).
  cbv zeta in Hlo, Hhi. rewrite Hmin in Hlo. rewrite Hmax in Hhi.
  split; apply not_ltb_leb; auto.
Qed.

Lemma extremes_bound_errors_witness :
  exists m, _calculate_statistical_metrics example_errors = Ok m /\
    In (metrics.min m) example_errors /\ In (metrics.max m) example_errors /\
    forall e, In e example_errors ->
      (metrics.min m <=? e) = true /\ (e <=? metrics.max m) = true.
Proof.
  destruct (_calculate_statistical_metrics example_errors) as [m|] eqn:E;
    [|vm_compute in E; discriminate].
  exists m. split; [reflexivity|].
  apply (extremes_bound_errors example_errors m E).
Defined.

Lemma PyInt_truediv_raises (a b : Z) (x : exn) :
  b <> 0%Z -> PyInt.truediv a b = Raise x -> x = OverflowError.
Proof.
  intros Hb. unfold PyInt.truediv.
  destruct (Z.eqb_spec b 0); [contradiction|].
  destruct (PyInt.is_small a && PyInt.is_small b); [discriminate|].
  destruct (is_infinity _); [|discriminate].
  intros H. injection H as <-. reflexivity.
Qed.

Lemma sqrt_of_frac_raises (n m : Z) (x : exn) :
  statistics._float_sqrt_of_frac n m = Raise x -> x = OverflowError.
Proof.
  unfold statistics._float_sqrt_of_frac.
  set (q := ((PyInt.bit_length n - PyInt.bit_length m - statistics._sqrt_bit_width) / 2)%Z).
  destruct (Z.leb_spec 0 q); apply PyInt_truediv_raises; [discriminate|].
  rewrite Z.shiftl_1_l. apply Z.pow_nonzero; lia.
Qed.

Lemma metrics_raises (errors : list float) (x : exn) :
  _calculate_statistical_metrics errors = Raise x ->
  (x = StatisticsError /\ (List.length errors < 2)%nat) \/
  (x = AttributeError /\ (2 <= List.length errors)%nat /\
   forallb statistics.isfinite errors = false) \/
  (x = OverflowError /\ (2 <= List.length errors)%nat /\
   forallb statistics.isfinite errors = true).
Proof.
  destruct (Nat.lt_ge_cases (List.length errors) 2) as [Hlt|Hlen].
  - destruct errors as [|x0 [|y l]]; [| |cbn in Hlt; lia].
    + cbn. intros H. injection H as <-. left. split; [reflexivity|lia].
    + unfold _calculate_statistical_metrics. destruct (mean_singleton x0) as [a ->].
      rewrite median_singleton, stdev_singleton. cbn [bind].
      intros H. injection H as <-. left. split; [reflexivity|cbn; lia].
  - destruct (forallb statistics.isfinite errors) eqn:Hfin.
    + assert (errors <> []) as Hne by (intros ->; cbn in Hlen; lia).
      unfold _calculate_statistical_metrics.
      destruct (mean_ok _ Hne) as [a ->]. destruct (median_ok _ Hne) as [b ->].
      cbn [bind]. rewrite (stdev_finite _ Hfin Hlen), (variance_finite _ Hfin Hlen).
      destruct (sqrt_of_fraction _) as [s|x1] eqn:Es; cbn [bind].
      * destruct (statistics.fraction_to_float _) as [v|x2] eqn:Ev; cbn [bind].
        -- destruct (min_ok _ Hne) as [lo ->]. destruct (max_ok _ Hne) as [hi ->].
           destruct (percentile_ok errors StatisticalMetrics.Q1_PERCENTILE Hne)
             as [p1 ->].
           destruct (percentile_ok errors StatisticalMetrics.Q3_PERCENTILE Hne)
             as [p3 ->].
           discriminate.
        -- intros E. injection E as <-.
           apply PyInt_truediv_raises in Ev; [subst; auto|discriminate].
      * intros E. injection E as <-.
        apply sqrt_of_frac_raises in Es. subst; auto.
    + rewrite (metrics_not_finite _ Hfin Hlen). intros H. injection H as <-. auto.
Qed.

(** X11.  [_calculate_statistical_metrics] ends in one of four ways: it
    returns, and then the list has at least two items, all finite; it raises
    [StatisticsError], and then the list has fewer than two items; it raises
    [AttributeError], and then the list has two or more items with an
    infinity or a NaN among them; or it raises [OverflowError], and then the
    list has two or more items, all finite (the standard deviation or the
    variance is beyond the largest float).  It raises nothing else. *)
Theorem metrics_outcome (errors : list float) :
  match _calculate_statistical_metrics errors with
  | Ok _ =>
      (2 <= List.length errors)%nat /\ forallb statistics.isfinite errors = true
  | Raise StatisticsError => (List.length errors < 2)%nat
  | Raise AttributeError =>
      (2 <= List.length errors)%nat /\ forallb statistics.isfinite errors = false
  | Raise OverflowError =>
      (2 <= List.length errors)%nat /\ forallb statistics.isfinite errors = true
  | Raise _ => False
  end.
Proof.
  destruct (_calculate_statistical_metrics errors) as [m|x] eqn:E.
  - apply (metrics_ok_finite _ _ E).
  - apply metrics_raises in E as [(-> & H)|[(-> & H)|(-> & H)]]; exact H.
Qed.

Lemma filter_length_mono {A : Type} (p q : A -> bool) (l : list A) :
  (forall x, p x = true -> q x = true) ->
  (List.length (filter p l) <= List.length (filter q l))%nat.
Proof.
  intros H. induction l as [|x l IH]; cbn; [lia|].
  destruct (p x) eqn:E.
  - rewrite (H _ E). cbn. lia.
  - destruct (q x); cbn; lia.
Qed.

Lemma filter_length_all {A : Type} (p : A -> bool) (l : list A) :
  List.length (filter p l) = List.length l <-> forall x, In x l -> p x = true.
Proof.
  induction l as [|x l IH]; cbn; [tauto|].
  pose proof (List.filter_length_le p l) as Hle.
  destruct (p x) eqn:Hp; cbn.
  - split.
    + intros H y [<-|Hy]; [assumption|]. apply IH; [lia|assumption].
    + intros H. f_equal. apply IH. auto.
  - split; [lia|]. intros H. rewrite H in Hp; [discriminate|auto].
Qed.

Lemma count_below_mono (s t : float) (all_errors : list float) :
  (s <? t) = true ->
  (count_below s all_errors <= count_below t all_errors)%Z.
Proof.
  intros H. rewrite !count_below_length. apply Nat2Z.inj_le, filter_length_mono.
  intros x Hx. apply (ltb_trans _ _ _ Hx H).
Qed.

(** X12.  The three counts of STEP 3 are cumulative: the number of errors
    below 1.0 is at most the number below 5.0, which is at most the number
    below 10.0, which is at most the number of errors; none is negative. *)
Theorem tolerance_counts_cumulative (all_errors : list float) :
  exists c1 c5 c10,
    confidence_intervals all_errors = [(1.0, c1); (5.0, c5); (10.0, c10)] /\
    (0 <= c1 <= c5)%Z /\ (c5 <= c10)%Z /\
    (c10 <= Z.of_nat (List.length all_errors))%Z.
Proof.
  eexists _, _, _. split; [reflexivity|].
  pose proof (count_below_bounds ErrorThreshold.EXCEPTIONAL all_errors).
  pose proof (count_below_bounds ErrorThreshold.SATISFACTORY all_errors).
  pose proof (count_below_mono ErrorThreshold.EXCEPTIONAL ErrorThreshold.SUPERIOR
                all_errors eq_refl).
  pose proof (count_below_mono ErrorThreshold.SUPERIOR ErrorThreshold.SATISFACTORY
                all_errors eq_refl).
  lia.
Qed.

(** The maximum is below a threshold exactly when every error is. *)
Lemma max_below_all (errors : list float) (hi t : float) :
  no_nan errors -> builtins.max errors = Ok hi ->
  (hi <? t) = true <->
  count_below t errors = Z.of_nat (List.length errors).
Proof.
  intros Hnn Hmax. rewrite count_below_length, Nat2Z.inj_iff, filter_length_all.
  pose proof (max_in _ _ Hmax) as Hin.
  destruct errors as [|x l]; [discriminate|].
  cbn [builtins.max] in Hmax. injection Hmax as Hmax.
  pose proof (fold_max_spec l x) as (_ & _ & Hhi). cbv zeta in Hhi.
  rewrite Hmax in Hhi. unfold no_nan in Hnn. rewrite Forall_forall in Hnn.
  split.
  - intros H y Hy. specialize (Hhi y Hy).
    apply ltb_key in H. apply ltb_key.
    apply not_ltb_fle in Hhi; auto.
    destruct Hhi as [Hlt|Heq]; [|rewrite Heq; assumption].
    revert Hlt H. generalize (fkey y), (fkey hi), (fkey t). intros. key_solve.
  - intros H. apply H, Hin.
Qed.

Lemma reliability_cases (x : float) :
  (reliability x = "Exceptional"%string <-> (x <? 1.0) = true) /\
  (reliability x = "Superior"%string <-> (x <? 1.0) = false /\ (x <? 5.0) = true) /\
  (reliability x = "Satisfactory"%string <->
     (x <? 5.0) = false /\ (x <? 10.0) = true) /\
  (reliability x = "Limited"%string <-> (x <? 10.0) = false).
Proof.
  assert ((x <? 1.0) = true -> (x <? 5.0) = true) as H15
    by (intros H; apply (ltb_trans _ _ _ H); reflexivity).
  assert ((x <? 5.0) = true -> (x <? 10.0) = true) as H510
    by (intros H; apply (ltb_trans _ _ _ H); reflexivity).
  unfold reliability, reliability_rating, ErrorThreshold.EXCEPTIONAL,
    ErrorThreshold.SUPERIOR, ErrorThreshold.SATISFACTORY.
  destruct (x <? 1.0) eqn:E1, (x <? 5.0) eqn:E5, (x <? 10.0) eqn:E10; cbn [fst];
    try (specialize (H15 eq_refl); discriminate);
    try (specialize (H510 eq_refl); discriminate);
    repeat split; intros; try discriminate; try reflexivity;
    try (match goal with H : _ /\ _ |- _ => destruct H; discriminate end).
Qed.

(** X13.  The rating of STEP 4 agrees with the counts of STEP 3 on every
    list for which the statistics return: it is Exceptional exactly when
    all errors are counted below 1.0; Superior when not all are below 1.0
    but all are below 5.0; Satisfactory when not all are below 5.0 but all
    are below 10.0; Limited when some error is not below 10.0. *)
Theorem rating_agrees_with_counts (errors : list float) (m : metrics.t) :
  _calculate_statistical_metrics errors = Ok m ->
  let n := Z.of_nat (List.length errors) in
  let c1 := count_below ErrorThreshold.EXCEPTIONAL errors in
  let c5 := count_below ErrorThreshold.SUPERIOR errors in
  let c10 := count_below ErrorThreshold.SATISFACTORY errors in
  let rating := reliability (metrics.max m) in
  (rating = "Exceptional"%string <-> c1 = n) /\
  (rating = "Superior"%string <-> (c1 < n)%Z /\ c5 = n) /\
  (rating = "Satisfactory"%string <-> (c5 < n)%Z /\ c10 = n) /\
  (rating = "Limited"%string <-> (c10 < n)%Z).
Proof.
  intros H. pose proof (metrics_ok_finite _ _ H) as [_ Hfin].
  apply finite_no_nan in Hfin.
  apply metrics_ok_inv in H as (_ & _ & _ & _ & _ & Hmax & _).
  cbv zeta.
  pose proof (max_below_all errors (metrics.max m) ErrorThreshold.EXCEPTIONAL
                Hfin Hmax) as M1.
  pose proof (max_below_all errors (metrics.max m) ErrorThreshold.SUPERIOR
                Hfin Hmax) as M5.
  pose proof (max_below_all errors (metrics.max m) ErrorThreshold.SATISFACTORY
                Hfin Hmax) as M10.
  pose proof (count_below_bounds ErrorThreshold.EXCEPTIONAL errors) as B1.
  pose proof (count_below_bounds ErrorThreshold.SUPERIOR errors) as B5.
  pose proof (count_below_bounds ErrorThreshold.SATISFACTORY errors) as B10.
  destruct (reliability_cases (metrics.max m)) as (R1 & R5 & R10 & RL).
  rewrite R1, R5, R10, RL.
  unfold ErrorThreshold.EXCEPTIONAL, ErrorThreshold.SUPERIOR,
    ErrorThreshold.SATISFACTORY in *.
  destruct (metrics.max m <? 1.0), (metrics.max m <? 5.0), (metrics.max m <? 10.0);
    intuition (try discriminate; try lia).
Qed.

Lemma rating_agrees_with_counts_witness :
  let errors := [0.5; 2.0; 0.25; 4.5] in
  exists m, _calculate_statistical_metrics errors = Ok m /\
    (reliability (metrics.max m) = "Superior"%string <->
     (count_below ErrorThreshold.EXCEPTIONAL errors < 4)%Z /\
     count_below ErrorThreshold.SUPERIOR errors = 4%Z).
Proof.
  cbv zeta.
  destruct (_calculate_statistical_metrics [0.5; 2.0; 0.25; 4.5]) as [m|] eqn:E;
    [|vm_compute in E; discriminate].
  exists m. split; [reflexivity|].
  apply (rating_agrees_with_counts _ m E).
Defined.

(** ** Loops whose body may raise *)

Lemma for_each_ext {S X : Type} (body body' : S -> X -> result S) (xs : list X) (st : S) :
  (forall s x, In x xs -> body s x = body' s x) ->
  for_each body xs st = for_each body' xs st.
Proof.
  revert st. induction xs as [|x xs IH]; intros st H; cbn; [reflexivity|].
  rewrite (H st x) by (left; reflexivity).
  destruct (body' st x); cbn; [|reflexivity].
  apply IH. intros s y Hy. apply H. right. assumption.
Qed.

(** A loop whose body computes a value that may raise and then updates the
    state without raising. *)
Lemma for_each_returns {S X Y : Type} (f : X -> result Y) (g : S -> X -> Y -> S)
  (xs : list X) (st st' : S) :
  for_each (fun s x => bind (f x) (fun y => Ok (g s x y))) xs st = Ok st' <->
  exists ys, Forall2 (fun x y => f x = Ok y) xs ys /\
    st' = fold_left (fun s xy => g s (fst xy) (snd xy)) (combine xs ys) st.
Proof.
  revert st. induction xs as [|x xs IH]; intros st; cbn [for_each].
  - split.
    + intros H. injection H as <-. exists []. split; [constructor|reflexivity].
    + intros (ys & HF & ->). inversion HF. reflexivity.
  - destruct (f x) as [y|e] eqn:E; cbn [bind].
    + rewrite IH. split.
      * intros (ys & HF & ->). exists (y :: ys). split; [constructor; assumption|].
        reflexivity.
      * intros (ys & HF & ->). inversion HF as [|? y' ? ys' Hy HF']; subst.
        assert (y' = y) as -> by congruence.
        exists ys'. split; [assumption|reflexivity].
    + split; [discriminate|].
      intros (ys & HF & _). inversion HF; subst. congruence.
Qed.

Lemma for_each_raises {S X Y : Type} (f : X -> result Y) (g : S -> X -> Y -> S)
  (xs : list X) (st : S) (e : exn) :
  for_each (fun s x => bind (f x) (fun y => Ok (g s x y))) xs st = Raise e ->
  exists x, In x xs /\ f x = Raise e.
Proof.
  revert st. induction xs as [|x xs IH]; intros st; cbn [for_each]; [discriminate|].
  destruct (f x) as [y|e'] eqn:E; cbn [bind].
  - intros H. apply IH in H as (x' & Hin & Hx). exists x'. split; [right|]; assumption.
  - intros H. injection H as <-. exists x. split; [left; reflexivity|assumption].
Qed.

Lemma for_each_returns_iff {S X Y : Type} (f : X -> result Y) (g : S -> X -> Y -> S)
  (xs : list X) (st : S) :
  (exists st', for_each (fun s x => bind (f x) (fun y => Ok (g s x y))) xs st = Ok st')
  <-> forall x, In x xs -> exists y, f x = Ok y.
Proof.
  split.
  - intros [st' H] x Hx.
    destruct (f x) as [y|e] eqn:E; [eauto|]. exfalso.
    apply for_each_returns in H as (ys & HF & _).
    clear -HF Hx E. induction HF as [|x' y' xs ys Hy HF IH]; [destruct Hx|].
    destruct Hx as [->|Hx]; [congruence|auto].
  - intros H.
    destruct (for_each _ xs st) as [st'|e] eqn:E; [eauto|].
    apply for_each_raises in E as (x & Hx & Hf).
    destruct (H x Hx) as [y Hy]. congruence.
Qed.

(** A loop that appends [width] items per iteration. *)
Lemma for_each_length {X Y Z : Type} (f : X -> result Y) (h : Y -> list Z)
  (width : nat) (xs : list X) (st st' : list Z) :
  (forall y, List.length (h y) = width) ->
  for_each (fun s x => bind (f x) (fun y => Ok (s ++ h y))) xs st = Ok st' ->
  List.length st' = (List.length st + width * List.length xs)%nat.
Proof.
  intros Hh. revert st. induction xs as [|x xs IH]; intros st; cbn [for_each].
  - intros H. injection H as <-. cbn. lia.
  - destruct (f x) as [y|e]; cbn [bind]; [|discriminate].
    intros H. apply IH in H. rewrite H, length_app, Hh. cbn [List.length]. lia.
Qed.

Section FrameProofs.

Variable float_of_str : string -> option float.

(** [float(val)] raises on a text that denotes no number and on an integer
    beyond the float range, and on nothing else. *)
Lemma float_of_raises (val : pd.scalar) (e : exn) :
  float_of float_of_str val = Raise e ->
  (e = ValueError /\ exists s, val = pd.Str s /\ float_of_str s = None) \/
  (e = OverflowError /\
   exists n, val = pd.Int n /\ is_infinity (PyInt.to_float n) = true).
Proof.
  destruct val as [x|n|s]; unfold float_of; cbv zeta; try discriminate.
  - destruct (is_infinity (PyInt.to_float n)) eqn:E; [|discriminate].
    intros H. injection H as <-. right. eauto.
  - destruct (float_of_str s) eqn:E; [discriminate|].
    intros H. injection H as <-. left. eauto.
Qed.

Lemma float_of_raises_kind (val : pd.scalar) (e : exn) :
  float_of float_of_str val = Raise e -> e = ValueError \/ e = OverflowError.
Proof.
  intros H. apply float_of_raises in H as [[-> _]|[-> _]]; [left|right]; reflexivity.
Qed.

(** The inner loop of [_parse_dataset], with its accumulator. *)
Lemma column_numbers_acc (column : list pd.scalar) (acc : list float) :
  match for_each (fun numbers val =>
           if pd.notna val && not_empty val
           then (x <- float_of float_of_str val ;; Ok (numbers ++ [x]))%py
           else Ok numbers) column acc with
  | Ok numbers => exists xs, numbers = acc ++ xs /\
      Forall2 (fun val x => float_of float_of_str val = Ok x)
              (filter present column) xs
  | Raise e =>
      exists val, In val column /\ present val = true /\
        float_of float_of_str val = Raise e
  end.
Proof.
  revert acc. induction column as [|val column IH]; intros acc; cbn [for_each filter].
  - exists []. rewrite app_nil_r. split; [reflexivity|constructor].
  - unfold present at 1.
    destruct (pd.notna val && not_empty val) eqn:Hp; cbn [bind].
    + destruct (float_of float_of_str val) as [x|e] eqn:E; cbn [bind].
      * specialize (IH (acc ++ [x])). destruct (for_each _ column _) as [numbers|e].
        -- destruct IH as (xs & -> & HF). exists (x :: xs).
           rewrite <- app_assoc. split; [reflexivity|]. constructor; assumption.
        -- destruct IH as (v & Hin & Hv).
           exists v. split; [right|]; assumption.
      * exists val. split; [left; reflexivity|]. split; [exact Hp|exact E].
    + specialize (IH acc). destruct (for_each _ column _) as [numbers|e].
      * assumption.
      * destruct IH as (v & Hin & Hv).
        exists v. split; [right|]; assumption.
Qed.

Lemma column_numbers_ok (column : list pd.scalar) (numbers : list float) :
  column_numbers float_of_str column = Ok numbers ->
  Forall2 (fun val x => float_of float_of_str val = Ok x)
          (filter present column) numbers.
Proof.
  unfold column_numbers. pose proof (column_numbers_acc column []) as H.
  intros E. rewrite E in H. destruct H as (xs & -> & HF). exact HF.
Qed.

Lemma column_numbers_raises (column : list pd.scalar) (e : exn) :
  column_numbers float_of_str column = Raise e ->
  exists val, In val column /\ present val = true /\
    float_of float_of_str val = Raise e.
Proof.
  unfold column_numbers. pose proof (column_numbers_acc column []) as H.
  intros E. rewrite E in H. exact H.
Qed.

Lemma in_data_cells (df : pd.DataFrame) (col : nat) (val : pd.scalar) :
  In val (data_cells df col) <->
  exists row, (CSVIndex.DATA_START_ROW <= row < fst (pd.shape df))%nat /\
              val = pd.values df row col.
Proof.
  unfold data_cells. rewrite in_map_iff. split.
  - intros (row & <- & Hrow). apply in_seq in Hrow. exists row. split; [lia|reflexivity].
  - intros (row & Hrow & ->). exists row. split; [reflexivity|]. apply in_seq. lia.
Qed.

(** One column of [_parse_dataset]. *)
Lemma parse_column_outcome (df : pd.DataFrame) (i : nat) :
  match parse_column float_of_str df i with
  | Ok data =>
      (CSVIndex.TARGET_ROW < fst (pd.shape df))%nat /\
      (i < snd (pd.shape df))%nat /\
      float_of float_of_str (pd.values df CSVIndex.TARGET_ROW i) = Ok (target data) /\
      Forall2 (fun val x => float_of float_of_str val = Ok x)
              (filter present (data_cells df i)) (numbers data)
  | Raise e =>
      (e = IndexError /\
       ((fst (pd.shape df) <= CSVIndex.TARGET_ROW)%nat \/
        (snd (pd.shape df) <= i)%nat)) \/
      ((CSVIndex.TARGET_ROW < fst (pd.shape df))%nat /\
       (i < snd (pd.shape df))%nat /\
       (float_of float_of_str (pd.values df CSVIndex.TARGET_ROW i) = Raise e \/
        exists row, (CSVIndex.DATA_START_ROW <= row < fst (pd.shape df))%nat /\
          present (pd.values df row i) = true /\
          float_of float_of_str (pd.values df row i) = Raise e))
  end.
Proof.
  unfold parse_column, pd.iloc, pd.iloc_from.
  destruct (Nat.ltb_spec CSVIndex.TARGET_ROW (fst (pd.shape df))) as [Hr|Hr];
    cbn [andb bind]; [|left; split; [reflexivity|left; assumption]].
  destruct (Nat.ltb_spec i (snd (pd.shape df))) as [Hc|Hc];
    cbn [andb bind]; [|left; split; [reflexivity|right; assumption]].
  destruct (float_of float_of_str (pd.values df CSVIndex.TARGET_ROW i))
    as [t|e] eqn:Et; cbn [bind].
  - fold (data_cells df i).
    destruct (column_numbers float_of_str (data_cells df i)) as [ns|e] eqn:En;
      cbn [bind target numbers].
    + split; [assumption|]. split; [assumption|]. split; [reflexivity|].
      apply column_numbers_ok, En.
    + apply column_numbers_raises in En as (val & Hin & Hp & Hv).
      right. split; [assumption|]. split; [assumption|]. right.
      apply in_data_cells in Hin as (row & Hrow & ->). eauto.
  - right. split; [assumption|]. split; [assumption|]. left. reflexivity.
Qed.


Lemma parse_body (df : pd.DataFrame) (datasets : list (string * dataset)) (i : nat) :
  (cell <- pd.iloc df CSVIndex.TARGET_ROW i ;;
   target <- float_of float_of_str cell ;;
   column <- pd.iloc_from df CSVIndex.DATA_START_ROW i ;;
   numbers <- column_numbers float_of_str column ;;
   Ok (setitem datasets (chr (65 + i / CSVIndex.COLUMN_STEP))
         {| target := target; numbers := numbers |}))%py
  = bind (parse_column float_of_str df i)
      (fun data => Ok (setitem datasets (chr (65 + i / CSVIndex.COLUMN_STEP)) data)).
Proof.
  unfold parse_column.
  destruct (pd.iloc df CSVIndex.TARGET_ROW i); cbn [bind]; [|reflexivity].
  destruct (float_of float_of_str a); cbn [bind]; [|reflexivity].
  destruct (pd.iloc_from df CSVIndex.DATA_START_ROW i); cbn [bind]; [|reflexivity].
  destruct (column_numbers float_of_str a1); reflexivity.
Qed.

Lemma parse_dataset_loop (df : pd.DataFrame) :
  _parse_dataset float_of_str df
  = for_each (fun datasets i =>
        bind (parse_column float_of_str df i)
          (fun data => Ok (setitem datasets (chr (65 + i / CSVIndex.COLUMN_STEP)) data)))
      [0; 2; 4; 6; 8; 10; 12; 14]%nat [].
Proof.
  unfold _parse_dataset. apply for_each_ext. intros s i _. apply parse_body.
Qed.

Lemma parse_dataset_returns (df : pd.DataFrame) (datasets : list (string * dataset)) :
  _parse_dataset float_of_str df = Ok datasets <->
  exists ds,
    Forall2 (fun i data => parse_column float_of_str df i = Ok data)
            [0; 2; 4; 6; 8; 10; 12; 14]%nat ds /\
    datasets = combine set_names ds.
Proof.
  rewrite parse_dataset_loop, for_each_returns. split.
  - intros (ds & HF & ->). exists ds. split; [assumption|].
    repeat (match goal with
            | H : Forall2 _ (_ :: _) _ |- _ => inversion H; subst; clear H
            | H : Forall2 _ [] _ |- _ => inversion H; subst; clear H
            end).
    reflexivity.
  - intros (ds & HF & ->). exists ds. split; [assumption|].
    repeat (match goal with
            | H : Forall2 _ (_ :: _) _ |- _ => inversion H; subst; clear H
            | H : Forall2 _ [] _ |- _ => inversion H; subst; clear H
            end).
    reflexivity.
Qed.

Lemma parse_dataset_raises (df : pd.DataFrame) (e : exn) :
  _parse_dataset float_of_str df = Raise e ->
  exists k, (k < 8)%nat /\ parse_column float_of_str df (2 * k) = Raise e.
Proof.
  rewrite parse_dataset_loop. intros H. apply for_each_raises in H as (i & Hin & Hi).
  cbn in Hin.
  repeat (destruct Hin as [<-|Hin];
          [match goal with
           | H : parse_column _ _ ?i = _ |- _ =>
               exists (i / 2)%nat; split; [cbn; lia|exact H]
           end|]).
  destruct Hin.
Qed.


(** *** [_display_input_data] *)

Lemma display_loops (df : pd.DataFrame) :
  _display_input_data float_of_str df
  = (target_row <-
       for_each (fun target_row i =>
           bind (target_value float_of_str df i) (fun x =>
             Ok (target_row ++ [[Fixed DisplaySettings.DECIMAL_PLACES x]; [Lit ""]])))
         [0; 2; 4; 6; 8; 10; 12; 14]%nat [] ;;
     number_rows <-
       for_each (fun number_rows row_idx =>
           bind (display_row float_of_str df row_idx) (fun row_data =>
             Ok (number_rows ++ [row_data])))
         (range CSVIndex.DATA_START_ROW (fst (pd.shape df)) 1) [] ;;
     Ok {| headers :=
             flat_map (fun name => [[Lit DisplayStrings.SET_PREFIX; Lit name]; [Lit ""]])
                      set_names;
           all_data :=
             [ [Lit DisplayStrings.TARGET_VALUES_HEADER] :: repeat [Lit ""] 15;
               target_row;
               [Lit DisplayStrings.AVAILABLE_NUMBERS_HEADER] :: repeat [Lit ""] 15 ]
             ++ number_rows;
           number_of_sets := 8;
           numbers_per_set := List.length number_rows;
           total_data_points := (8 * Z.of_nat (List.length number_rows))%Z |})%py.
Proof.
  unfold _display_input_data. cbv zeta.
  change (range 0 (Z.to_nat CSVIndex.SETS_COUNT * CSVIndex.COLUMN_STEP) CSVIndex.COLUMN_STEP)
    with [0; 2; 4; 6; 8; 10; 12; 14]%nat.
  rewrite (for_each_ext _
    (fun target_row i =>
       bind (target_value float_of_str df i) (fun x =>
         Ok (target_row ++ [[Fixed DisplaySettings.DECIMAL_PLACES x]; [Lit ""]])))).
  2: { intros s i _. unfold target_value.
       destruct (pd.iloc df CSVIndex.TARGET_ROW i); cbn [bind]; reflexivity. }
  destruct (for_each _ [0; 2; 4; 6; 8; 10; 12; 14]%nat []) as [target_row|];
    cbn [bind]; [|reflexivity].
  rewrite (for_each_ext _
    (fun number_rows row_idx =>
       bind (display_row float_of_str df row_idx) (fun row_data =>
         Ok (number_rows ++ [row_data])))).
  2: { intros s row _. unfold display_row.
       rewrite (for_each_ext _
         (fun row_data col =>
            bind (shown_cell float_of_str df row col) (fun shown =>
              Ok (row_data ++ cell_text shown)))); [reflexivity|].
       intros r col _. unfold shown_cell.
       destruct (pd.iloc df row col) as [val|]; cbn [bind]; [|reflexivity].
       destruct (pd.notna val && not_empty val); [|reflexivity].
       destruct (float_of float_of_str val); reflexivity. }
  reflexivity.
Qed.


Lemma target_value_outcome (df : pd.DataFrame) (i : nat) :
  (exists x, target_value float_of_str df i = Ok x) <->
  (CSVIndex.TARGET_ROW < fst (pd.shape df))%nat /\ (i < snd (pd.shape df))%nat /\
  converts float_of_str (pd.values df CSVIndex.TARGET_ROW i).
Proof.
  unfold target_value, pd.iloc, converts.
  destruct (Nat.ltb_spec CSVIndex.TARGET_ROW (fst (pd.shape df)));
    destruct (Nat.ltb_spec i (snd (pd.shape df))); cbn [andb bind].
  1: tauto.
  all: split; [intros [x Hx]; discriminate|lia].
Qed.

Lemma shown_cell_outcome (df : pd.DataFrame) (row col : nat) :
  (exists shown, shown_cell float_of_str df row col = Ok shown) <->
  (row < fst (pd.shape df))%nat /\ (col < snd (pd.shape df))%nat /\
  (present (pd.values df row col) = true ->
   converts float_of_str (pd.values df row col)).
Proof.
  unfold shown_cell, pd.iloc, converts, present.
  destruct (Nat.ltb_spec row (fst (pd.shape df)));
    destruct (Nat.ltb_spec col (snd (pd.shape df))); cbn [andb bind].
  2-4: split; [intros [x Hx]; discriminate|lia].
  destruct (pd.notna _ && not_empty _).
  - destruct (float_of float_of_str _) as [x|e]; cbn [bind].
    + split; eauto.
    + split; [intros [x Hx]; discriminate|].
      intros (_ & _ & Hc). destruct (Hc eq_refl). discriminate.
  - split; [|eauto]. intros _. split; [assumption|]. split; [assumption|].
    discriminate.
Qed.

Lemma in_columns (i : nat) :
  In i [0; 2; 4; 6; 8; 10; 12; 14]%nat <-> exists k, (k < 8)%nat /\ i = (2 * k)%nat.
Proof.
  split.
  - intros H. cbn in H.
    repeat (destruct H as [<-|H];
            [match goal with |- exists k, _ /\ ?i = _ =>
               exists (i / 2)%nat; cbn; split; [lia|reflexivity] end|]).
    destruct H.
  - intros (k & Hk & ->).
    do 8 (destruct k as [|k]; [cbn; tauto|]). lia.
Qed.

Lemma in_rows (df : pd.DataFrame) (row : nat) :
  In row (range CSVIndex.DATA_START_ROW (fst (pd.shape df)) 1) <->
  (CSVIndex.DATA_START_ROW <= row < fst (pd.shape df))%nat.
Proof.
  unfold range. rewrite in_map_iff. cbn [Nat.sub]. rewrite Nat.add_0_r, Nat.div_1_r.
  split.
  - intros (k & <- & Hk). apply in_seq in Hk. lia.
  - intros H. exists (row - CSVIndex.DATA_START_ROW)%nat. split; [lia|].
    apply in_seq. lia.
Qed.

Lemma rows_length (df : pd.DataFrame) :
  List.length (range CSVIndex.DATA_START_ROW (fst (pd.shape df)) 1)
  = (fst (pd.shape df) - CSVIndex.DATA_START_ROW)%nat.
Proof.
  unfold range. rewrite length_map, length_seq. cbn [Nat.sub].
  rewrite Nat.add_0_r, Nat.div_1_r. reflexivity.
Qed.

Lemma display_row_outcome (df : pd.DataFrame) (row : nat) :
  (exists row_data, display_row float_of_str df row = Ok row_data) <->
  (row < fst (pd.shape df))%nat /\ (14 < snd (pd.shape df))%nat /\
  forall k, (k < 8)%nat -> present (pd.values df row (2 * k)) = true ->
    converts float_of_str (pd.values df row (2 * k)).
Proof.
  unfold display_row. rewrite for_each_returns_iff. split.
  - intros H. split; [|split].
    + destruct (proj1 (shown_cell_outcome df row 0)) as (Hr & _).
      * apply H. cbn. tauto.
      * exact Hr.
    + destruct (proj1 (shown_cell_outcome df row 14)) as (_ & Hc & _).
      * apply H. cbn. tauto.
      * exact Hc.
    + intros k Hk. apply shown_cell_outcome, H, in_columns. eauto.
  - intros (Hr & Hc & H) i Hi. apply in_columns in Hi as (k & Hk & ->).
    apply shown_cell_outcome. split; [assumption|]. split; [lia|auto].
Qed.

Lemma display_returns_iff (df : pd.DataFrame) :
  (exists shown, _display_input_data float_of_str df = Ok shown) <->
  readable float_of_str df.
Proof.
  rewrite display_loops. unfold readable. split.
  - intros [shown H].
    destruct (for_each _ [0; 2; 4; 6; 8; 10; 12; 14]%nat []) as [target_row|] eqn:Et;
      cbn [bind] in H; [|discriminate].
    destruct (for_each _ (range _ _ 1) []) as [number_rows|] eqn:Er;
      cbn [bind] in H; [|discriminate].
    pose proof (proj1 (for_each_returns_iff _ _ _ _) (ex_intro _ _ Et)) as Ht.
    pose proof (proj1 (for_each_returns_iff _ _ _ _) (ex_intro _ _ Er)) as Hr.
    assert (forall k, (k < 8)%nat ->
              (CSVIndex.TARGET_ROW < fst (pd.shape df))%nat /\
              (2 * k < snd (pd.shape df))%nat /\
              converts float_of_str (pd.values df CSVIndex.TARGET_ROW (2 * k))) as Ht'.
    { intros k Hk. apply target_value_outcome, Ht, in_columns. eauto. }
    split; [apply (Ht' 0%nat); lia|]. split; [apply (Ht' 7%nat); lia|].
    intros k Hk. split; [apply Ht'; assumption|].
    intros row Hrow. apply in_rows in Hrow.
    apply Hr, display_row_outcome in Hrow as (_ & _ & Hrow). auto.
  - intros (Hr & Hc & H).
    destruct (proj2 (for_each_returns_iff
                (target_value float_of_str df)
                (fun target_row _ x =>
                   target_row ++ [[Fixed DisplaySettings.DECIMAL_PLACES x]; [Lit ""]])
                [0; 2; 4; 6; 8; 10; 12; 14]%nat [])) as [target_row ->].
    { intros i Hi. apply in_columns in Hi as (k & Hk & ->).
      apply target_value_outcome. split; [assumption|]. split; [lia|].
      exact (proj1 (H k Hk)). }
    cbn [bind].
    destruct (proj2 (for_each_returns_iff
                (display_row float_of_str df)
                (fun number_rows _ row_data => number_rows ++ [row_data])
                (range CSVIndex.DATA_START_ROW (fst (pd.shape df)) 1) []))
      as [number_rows ->].
    { intros row Hrow. apply in_rows in Hrow. apply display_row_outcome.
      split; [lia|]. split; [assumption|]. intros k Hk.
      apply (proj2 (H k Hk)). assumption. }
    cbn [bind]. eauto.
Qed.

Lemma parse_column_returns_iff (df : pd.DataFrame) (i : nat) :
  (exists data, parse_column float_of_str df i = Ok data) <->
  (CSVIndex.TARGET_ROW < fst (pd.shape df))%nat /\ (i < snd (pd.shape df))%nat /\
  converts float_of_str (pd.values df CSVIndex.TARGET_ROW i) /\
  forall row, (CSVIndex.DATA_START_ROW <= row < fst (pd.shape df))%nat ->
    present (pd.values df row i) = true -> converts float_of_str (pd.values df row i).
Proof.
  pose proof (parse_column_outcome df i) as H. split.
  - intros [data E]. rewrite E in H. destruct H as (Hr & Hc & Ht & Hn).
    split; [assumption|]. split; [assumption|]. split; [eexists; exact Ht|].
    intros row Hrow Hp.
    assert (In (pd.values df row i) (filter present (data_cells df i))) as Hin.
    { apply filter_In. split; [|assumption]. apply in_data_cells. eauto. }
    clear -Hn Hin. induction Hn as [|v x vs xs Hv Hn IH]; [destruct Hin|].
    destruct Hin as [<-|Hin]; [eexists; exact Hv|auto].
  - intros (Hr & Hc & [t Ht] & Hn).
    destruct (parse_column float_of_str df i) as [data|e]; [eauto|exfalso].
    destruct H as [(_ & [H|H])|(_ & _ & [H|(row & Hrow & Hp & H)])].
    + lia.
    + lia.
    + congruence.
    + destruct (Hn row Hrow Hp) as [x Hx]. congruence.
Qed.

Lemma parse_returns_iff (df : pd.DataFrame) :
  (exists datasets, _parse_dataset float_of_str df = Ok datasets) <->
  readable float_of_str df.
Proof.
  rewrite parse_dataset_loop, for_each_returns_iff. unfold readable. split.
  - intros H.
    assert (forall k, (k < 8)%nat ->
              exists data, parse_column float_of_str df (2 * k) = Ok data) as H'
      by (intros k Hk; apply H, in_columns; eauto).
    split; [|split].
    + destruct (proj1 (parse_column_returns_iff df 0) (H' 0%nat ltac:(lia))) as (Hr & _).
      exact Hr.
    + destruct (proj1 (parse_column_returns_iff df 14) (H' 7%nat ltac:(lia))) as (_ & Hc & _).
      exact Hc.
    + intros k Hk.
      destruct (proj1 (parse_column_returns_iff df _) (H' k Hk)) as (_ & _ & Ht & Hn).
      auto.
  - intros (Hr & Hc & H) i Hi. apply in_columns in Hi as (k & Hk & ->).
    apply parse_column_returns_iff. split; [assumption|]. split; [lia|].
    exact (H k Hk).
Qed.


(** The entry of a set in the returned dictionary. *)
Lemma parsed_column_at (df : pd.DataFrame) (datasets : list (string * dataset))
  (k : nat) (name : string) (data : dataset) :
  _parse_dataset float_of_str df = Ok datasets ->
  nth_error datasets k = Some (name, data) ->
  nth_error set_names k = Some name /\
  parse_column float_of_str df (2 * k) = Ok data.
Proof.
  intros H Hk. apply parse_dataset_returns in H as (ds & HF & ->).
  repeat (match goal with
          | H : Forall2 _ (_ :: _) _ |- _ => inversion H; subst; clear H
          | H : Forall2 _ [] _ |- _ => inversion H; subst; clear H
          end).
  do 8 (destruct k as [|k];
        [injection Hk as <- <-; split; [reflexivity|assumption]|]).
  destruct k; discriminate.
Qed.

Lemma parsed_names (df : pd.DataFrame) (datasets : list (string * dataset)) :
  _parse_dataset float_of_str df = Ok datasets -> map fst datasets = set_names.
Proof.
  intros H. apply parse_dataset_returns in H as (ds & HF & ->).
  repeat (match goal with
          | H : Forall2 _ (_ :: _) _ |- _ => inversion H; subst; clear H
          | H : Forall2 _ [] _ |- _ => inversion H; subst; clear H
          end).
  reflexivity.
Qed.

(** X14.  The dictionary [_parse_dataset] returns has the eight keys A to H
    in this order; the target of the k-th set is the float of the cell in
    row 3 of column 2k, and its numbers are the floats of the cells of that
    column from row 6 on that are neither missing nor empty, in the order of
    the rows. *)
Theorem parse_dataset_contents (df : pd.DataFrame)
  (datasets : list (string * dataset)) :
  _parse_dataset float_of_str df = Ok datasets ->
  map fst datasets = set_names /\
  forall k name data, nth_error datasets k = Some (name, data) ->
    float_of float_of_str (pd.values df CSVIndex.TARGET_ROW (2 * k)) = Ok (target data) /\
    Forall2 (fun val x => float_of float_of_str val = Ok x)
            (filter present (data_cells df (2 * k))) (numbers data).
Proof.
  intros H. split; [apply (parsed_names _ _ H)|].
  intros k name data Hk.
  destruct (parsed_column_at _ _ _ _ _ H Hk) as [_ E].
  pose proof (parse_column_outcome df (2 * k)) as Ho. rewrite E in Ho.
  destruct Ho as (_ & _ & Ht & Hn). split; assumption.
Qed.

Lemma parse_raises_cases (df : pd.DataFrame) (e : exn) :
  _parse_dataset float_of_str df = Raise e ->
  (e = IndexError /\
   ((fst (pd.shape df) <= CSVIndex.TARGET_ROW)%nat \/ (snd (pd.shape df) < 15)%nat)) \/
  ((e = ValueError \/ e = OverflowError) /\ unconvertible float_of_str df e).
Proof.
  intros E. apply parse_dataset_raises in E as (k & Hk & E).
  pose proof (parse_column_outcome df (2 * k)) as H. rewrite E in H.
  destruct H as [(-> & [H|H])|(Hr & Hc & [H|(row & Hrow & Hp & H)])].
  - left. split; [reflexivity|left; assumption].
  - left. split; [reflexivity|right; lia].
  - right. split; [apply (float_of_raises_kind _ _ H)|].
    exists CSVIndex.TARGET_ROW, k. split; [assumption|]. split; [assumption|].
    split; [left; reflexivity|assumption].
  - right. split; [apply (float_of_raises_kind _ _ H)|].
    exists row, k. split; [assumption|]. split; [lia|].
    split; [right; split; [lia|assumption]|assumption].
Qed.

(** X15.  [_parse_dataset] ends in one of four ways: it returns a
    dictionary of eight entries, and then the frame is readable; it raises
    [IndexError], and then the frame has no row 3 or fewer than 15 columns;
    it raises [ValueError], and then [float] raises [ValueError] on a cell
    the parsing converts (the target of a set, or a cell of a set column
    from row 6 on that is neither missing nor empty); or it raises
    [OverflowError], and then [float] raises [OverflowError] on such a
    cell, an integer beyond the float range.  It raises nothing else. *)
Theorem parse_dataset_outcome (df : pd.DataFrame) :
  match _parse_dataset float_of_str df with
  | Ok datasets => readable float_of_str df /\ List.length datasets = 8%nat
  | Raise IndexError =>
      (fst (pd.shape df) <= CSVIndex.TARGET_ROW)%nat \/ (snd (pd.shape df) < 15)%nat
  | Raise ValueError => unconvertible float_of_str df ValueError
  | Raise OverflowError => unconvertible float_of_str df OverflowError
  | Raise _ => False
  end.
Proof.
  destruct (_parse_dataset float_of_str df) as [datasets|e] eqn:E.
  - split; [apply parse_returns_iff; eauto|].
    apply parsed_names in E. rewrite <- (length_map fst), E. reflexivity.
  - apply parse_raises_cases in E as [(-> & H)|([-> | ->] & H)]; assumption.
Qed.

(** X16.  [_display_input_data] returns exactly on the frames on which
    [_parse_dataset] returns, the readable ones: the frame has row 3 and at
    least 15 columns, [float] returns on the eight target cells, and it
    returns on every cell of a set column from row 6 on that is neither
    missing nor empty ([float] raises on a text that denotes no number and
    on an integer beyond the float range).  In [analyze], where the display
    runs first, the parsing therefore cannot raise. *)
Theorem display_guards_parse (df : pd.DataFrame) :
  ((exists shown, _display_input_data float_of_str df = Ok shown) <->
   readable float_of_str df) /\
  ((exists datasets, _parse_dataset float_of_str df = Ok datasets) <->
   readable float_of_str df).
Proof. split; [apply display_returns_iff|apply parse_returns_iff]. Qed.

Lemma display_row_length (df : pd.DataFrame) (row : nat) (row_data : list fstring) :
  display_row float_of_str df row = Ok row_data -> List.length row_data = 16%nat.
Proof.
  unfold display_row. intros H.
  apply (for_each_length _ cell_text 2) in H; [exact H|].
  intros [x|]; reflexivity.
Qed.

Lemma number_rows_length (df : pd.DataFrame) (rows : list nat)
  (acc number_rows : list (list fstring)) :
  Forall (fun r => List.length r = 16%nat) acc ->
  for_each (fun number_rows row_idx =>
      bind (display_row float_of_str df row_idx) (fun row_data =>
        Ok (number_rows ++ [row_data]))) rows acc = Ok number_rows ->
  Forall (fun r => List.length r = 16%nat) number_rows /\
  List.length number_rows = (List.length acc + List.length rows)%nat.
Proof.
  revert acc. induction rows as [|row rows IH]; intros acc Hacc; cbn [for_each].
  - intros H. injection H as <-. split; [assumption|cbn; lia].
  - destruct (display_row float_of_str df row) as [row_data|] eqn:E; cbn [bind];
      [|discriminate].
    intros H. apply IH in H as [H1 H2].
    + split; [assumption|]. rewrite H2, length_app. cbn. lia.
    + apply Forall_app. split; [assumption|].
      constructor; [|constructor]. apply (display_row_length _ _ _ E).
Qed.

(** The tables of a display that returns. *)
Lemma display_tables (df : pd.DataFrame) (shown : input_display) :
  _display_input_data float_of_str df = Ok shown ->
  exists target_row number_rows,
    List.length target_row = 16%nat /\
    Forall (fun row => List.length row = 16%nat) number_rows /\
    List.length number_rows = (fst (pd.shape df) - CSVIndex.DATA_START_ROW)%nat /\
    shown = {| headers :=
                 flat_map (fun name =>
                     [[Lit DisplayStrings.SET_PREFIX; Lit name]; [Lit ""]])
                   set_names;
               all_data :=
                 [ [Lit DisplayStrings.TARGET_VALUES_HEADER] :: repeat [Lit ""] 15;
                   target_row;
                   [Lit DisplayStrings.AVAILABLE_NUMBERS_HEADER]
                     :: repeat [Lit ""] 15 ]
                 ++ number_rows;
               number_of_sets := 8;
               numbers_per_set := List.length number_rows;
               total_data_points := (8 * Z.of_nat (List.length number_rows))%Z |}.
Proof.
  rewrite display_loops. intros H.
  destruct (for_each _ [0; 2; 4; 6; 8; 10; 12; 14]%nat []) as [target_row|] eqn:Et;
    cbn [bind] in H; [|discriminate].
  destruct (for_each _ (range _ _ 1) []) as [number_rows|] eqn:Er;
    cbn [bind] in H; [|discriminate].
  injection H as <-. exists target_row, number_rows.
  apply (for_each_length _
           (fun x => [[Fixed DisplaySettings.DECIMAL_PLACES x]; [Lit ""]]) 2) in Et;
    [|reflexivity].
  apply number_rows_length in Er as [Hrows Hlen]; [|constructor].
  rewrite rows_length in Hlen. cbn [List.length Nat.add] in Hlen.
  auto.
Qed.

(** X17.  The table [_display_input_data] passes to [tabulate] is
    rectangular: 16 headers (Set A, an empty one, Set B, ... Set H, an empty
    one), and 16 cells in each of its rows, which are the two heading rows,
    the target row and one row per frame row from row 6 on.  The summary reports 8 sets, that number of rows as the numbers per
    set, and 8 times that number as the total of data points. *)
Theorem display_table_shape (df : pd.DataFrame) (shown : input_display) :
  _display_input_data float_of_str df = Ok shown ->
  let rows := (fst (pd.shape df) - CSVIndex.DATA_START_ROW)%nat in
  headers shown
  = flat_map (fun name => [[Lit DisplayStrings.SET_PREFIX; Lit name]; [Lit ""]])
             set_names /\
  List.length (headers shown) = 16%nat /\
  Forall (fun row => List.length row = 16%nat) (all_data shown) /\
  List.length (all_data shown) = (3 + rows)%nat /\
  number_of_sets shown = 8%Z /\
  numbers_per_set shown = rows /\
  total_data_points shown = (8 * Z.of_nat rows)%Z.
Proof.
  intros H.
  apply display_tables in H as (target_row & number_rows & Ht & Hrows & Hlen & ->).
  cbv zeta. cbn [headers all_data number_of_sets numbers_per_set total_data_points].
  split; [reflexivity|]. split; [reflexivity|]. split.
  - repeat constructor; assumption.
  - cbn [app List.length Nat.add]. split; [do 3 f_equal; exact Hlen|].
    split; [reflexivity|]. split; [exact Hlen|]. do 2 f_equal. exact Hlen.
Qed.

(** X18.  The summary counts rows, not numbers: a set has as many numbers
    as its column has cells from row 6 on that are neither missing nor
    empty, which is at most the "numbers per set" of the summary, and equal
    to it exactly when no such cell of the column is missing or empty. *)
Theorem summary_counts_rows (df : pd.DataFrame) (shown : input_display)
  (datasets : list (string * dataset)) :
  _display_input_data float_of_str df = Ok shown ->
  _parse_dataset float_of_str df = Ok datasets ->
  forall k name data, nth_error datasets k = Some (name, data) ->
    List.length (numbers data)
    = List.length (filter present (data_cells df (2 * k))) /\
    (List.length (numbers data) <= numbers_per_set shown)%nat /\
    (List.length (numbers data) = numbers_per_set shown <->
     forall row, (CSVIndex.DATA_START_ROW <= row < fst (pd.shape df))%nat ->
       present (pd.values df row (2 * k)) = true).
Proof.
  intros Hd Hp k name data Hk.
  apply display_tables in Hd as (target_row & number_rows & _ & _ & Hrows & ->).
  cbn [numbers_per_set]. rewrite Hrows.
  destruct (parsed_column_at _ _ _ _ _ Hp Hk) as [_ E].
  pose proof (parse_column_outcome df (2 * k)) as Ho. rewrite E in Ho.
  destruct Ho as (_ & _ & _ & HF).
  apply Forall2_length in HF. rewrite <- HF.
  assert (List.length (data_cells df (2 * k))
          = (fst (pd.shape df) - CSVIndex.DATA_START_ROW)%nat) as Hlen
    by (unfold data_cells; rewrite length_map, length_seq; reflexivity).
  rewrite <- Hlen. split; [reflexivity|]. split; [apply List.filter_length_le|].
  rewrite filter_length_all. split.
  - intros H row Hrow. apply H, in_data_cells. eauto.
  - intros H val Hin. apply in_data_cells in Hin as (row & Hrow & ->). auto.
Qed.

End FrameProofs.


Lemma parse_dataset_contents_witness :
  _parse_dataset example_float_of_str example_frame = Ok example_datasets /\
  map fst example_datasets = set_names /\
  forall k name data, nth_error example_datasets k = Some (name, data) ->
    float_of example_float_of_str (pd.values example_frame CSVIndex.TARGET_ROW (2 * k))
    = Ok (target data) /\
    Forall2 (fun val x => float_of example_float_of_str val = Ok x)
            (filter present (data_cells example_frame (2 * k))) (numbers data).
Proof.
  assert (_parse_dataset example_float_of_str example_frame = Ok example_datasets)
    as P by (vm_compute; reflexivity).
  split; [exact P|].
  exact (parse_dataset_contents example_float_of_str example_frame example_datasets P).
Defined.

Lemma display_table_shape_witness :
  exists shown,
    _display_input_data example_float_of_str example_frame = Ok shown /\
    headers shown
    = flat_map (fun name => [[Lit DisplayStrings.SET_PREFIX; Lit name]; [Lit ""]])
               set_names /\
    List.length (headers shown) = 16%nat /\
    Forall (fun row => List.length row = 16%nat) (all_data shown) /\
    List.length (all_data shown) = 6%nat /\
    number_of_sets shown = 8%Z /\
    numbers_per_set shown = 3%nat /\
    total_data_points shown = 24%Z.
Proof.
  destruct (_display_input_data example_float_of_str example_frame) as [shown|] eqn:E;
    [|vm_compute in E; discriminate].
  exists shown. split; [reflexivity|].
  exact (display_table_shape _ _ _ E).
Defined.

Lemma summary_counts_rows_witness :
  exists shown,
    _display_input_data example_float_of_str example_frame = Ok shown /\
    numbers_per_set shown = 3%nat /\
    List.length [3; 5] = List.length (filter present (data_cells example_frame 2)) /\
    (List.length [3; 5] <= numbers_per_set shown)%nat.
Proof.
  destruct (_display_input_data example_float_of_str example_frame) as [shown|] eqn:E;
    [|vm_compute in E; discriminate].
  exists shown. split; [reflexivity|].
  assert (_parse_dataset example_float_of_str example_frame = Ok example_datasets)
    as P by (vm_compute; reflexivity).
  destruct (summary_counts_rows _ _ _ _ E P 1%nat "B"%string (mk_dataset 4 [3; 5]) eq_refl)
    as (H1 & H2 & _).
  split; [|split; [exact H1|exact H2]].
  vm_compute in E. injection E as <-. reflexivity.
Defined.

(** ** The display and the parsing agree *)

Lemma range_rows (start stop : nat) : range start stop 1 = seq start (stop - start).
Proof.
  unfold range. cbn [Nat.sub]. rewrite Nat.add_0_r, Nat.div_1_r.
  assert (forall n b, map (fun k => start + k * 1)%nat (seq b n) = seq (start + b) n)
    as H.
  { induction n as [|n IH]; intros b; cbn [seq map]; [reflexivity|].
    f_equal; [lia|]. rewrite IH. f_equal. lia. }
  rewrite H, Nat.add_0_r. reflexivity.
Qed.

Lemma fold_left_snoc {X Y : Type} (xs : list X) (ys acc : list Y) :
  List.length xs = List.length ys ->
  fold_left (fun s (xy : X * Y) => s ++ [snd xy]) (combine xs ys) acc = acc ++ ys.
Proof.
  revert ys acc. induction xs as [|x xs IH]; intros [|y ys] acc H;
    try discriminate; cbn.
  - rewrite app_nil_r. reflexivity.
  - rewrite IH by (cbn in H; lia). rewrite <- app_assoc. reflexivity.
Qed.

Section ShownProofs.

Variable float_of_str : string -> option float.

Lemma parse_column_target (df : pd.DataFrame) (i : nat) (data : dataset) :
  parse_column float_of_str df i = Ok data ->
  target_value float_of_str df i = Ok (target data).
Proof.
  unfold parse_column, target_value.
  destruct (pd.iloc df CSVIndex.TARGET_ROW i) as [cell|]; cbn [bind]; [|discriminate].
  destruct (float_of float_of_str cell) as [t|]; cbn [bind]; [|discriminate].
  destruct (pd.iloc_from df CSVIndex.DATA_START_ROW i) as [column|]; cbn [bind];
    [|discriminate].
  destruct (column_numbers float_of_str column) as [ns|]; cbn [bind]; [|discriminate].
  intros H. injection H as <-. reflexivity.
Qed.

(** The cell of a displayed row in the column of the k-th set. *)
Lemma display_row_cell (df : pd.DataFrame) (row k : nat) (row_data : list fstring) :
  display_row float_of_str df row = Ok row_data -> (k < 8)%nat ->
  exists shown, shown_cell float_of_str df row (2 * k) = Ok shown /\
    nth (2 * k) row_data [] = hd [] (cell_text shown).
Proof.
  unfold display_row. intros H Hk. apply for_each_returns in H as (ys & HF & ->).
  repeat (match goal with
          | H : Forall2 _ (_ :: _) _ |- _ => inversion H; subst; clear H
          | H : Forall2 _ [] _ |- _ => inversion H; subst; clear H
          end).
  do 8 (destruct k as [|k];
        [eexists; split; [eassumption|];
         cbn [combine fold_left fst snd app];
         repeat match goal with o : option float |- _ => destruct o end;
         reflexivity|]).
  lia.
Qed.

Lemma shown_cell_value (df : pd.DataFrame) (row col : nat) (shown : option float) :
  shown_cell float_of_str df row col = Ok shown ->
  if present (pd.values df row col)
  then exists x, shown = Some x /\ float_of float_of_str (pd.values df row col) = Ok x
  else shown = None.
Proof.
  unfold shown_cell, pd.iloc, present.
  destruct (_ && _); cbn [bind]; [|discriminate].
  destruct (pd.notna _ && not_empty _).
  - destruct (float_of float_of_str _) as [x|]; cbn [bind]; [|discriminate].
    intros H. injection H as <-. eauto.
  - intros H. injection H as <-. reflexivity.
Qed.

Lemma shown_numbers_rows (df : pd.DataFrame) (k : nat) (rows : list nat)
  (number_rows : list (list fstring)) (numbers : list float) :
  (k < 8)%nat ->
  Forall2 (fun row row_data => display_row float_of_str df row = Ok row_data)
          rows number_rows ->
  Forall2 (fun val x => float_of float_of_str val = Ok x)
          (filter present (map (fun row => pd.values df row (2 * k)) rows)) numbers ->
  shown_numbers number_rows (2 * k) = numbers.
Proof.
  intros Hk HF. revert numbers.
  induction HF as [|row row_data rows number_rows Hrow HF IH]; intros numbers Hn.
  - inversion Hn. reflexivity.
  - cbn [map filter] in Hn. unfold shown_numbers. cbn [flat_map].
    fold (shown_numbers number_rows (2 * k)).
    destruct (display_row_cell _ _ _ _ Hrow Hk) as (shown & Hs & Hcell).
    unfold fstring in *. rewrite Hcell.
    apply shown_cell_value in Hs.
    destruct (present (pd.values df row (2 * k))).
    + destruct Hs as (x & -> & Hx).
      inversion Hn as [|? x' ? numbers' Hx' Hn']; subst.
      change (k + (k + 0))%nat with (2 * k)%nat in *.
      assert (x' = x) as -> by congruence.
      cbn [cell_text hd app]. f_equal. apply IH, Hn'.
    + subst shown. cbn [cell_text hd app]. apply IH, Hn.
Qed.

(** X23.  The input display shows what the parsing returns: the target
    row holds the targets of the parsed datasets, in their order, each
    followed by an empty cell, and the numbers shown in the column of a set
    are the numbers of that set, in their order. *)
Theorem display_shows_parsed (df : pd.DataFrame) (shown : input_display)
  (datasets : list (string * dataset)) :
  _display_input_data float_of_str df = Ok shown ->
  _parse_dataset float_of_str df = Ok datasets ->
  nth 1 (all_data shown) []
  = flat_map (fun item =>
      [[Fixed DisplaySettings.DECIMAL_PLACES (target (snd item))]; [Lit ""]])
      datasets /\
  forall k name data, nth_error datasets k = Some (name, data) ->
    shown_numbers (skipn 3 (all_data shown)) (2 * k) = numbers data.
Proof.
  rewrite display_loops. intros Hd Hp.
  destruct (for_each _ [0; 2; 4; 6; 8; 10; 12; 14]%nat []) as [target_row|] eqn:Et;
    cbn [bind] in Hd; [|discriminate].
  destruct (for_each _ (range _ _ 1) []) as [number_rows|] eqn:Er;
    cbn [bind] in Hd; [|discriminate].
  injection Hd as <-. cbn [all_data app nth skipn]. split.
  - apply parse_dataset_returns in Hp as (ds & HF & ->).
    apply for_each_returns in Et as (xs & HX & ->).
    repeat (match goal with
            | H : Forall2 _ (_ :: _) _ |- _ => inversion H; subst; clear H
            | H : Forall2 _ [] _ |- _ => inversion H; subst; clear H
            end).
    repeat (match goal with
            | H : parse_column _ _ _ = Ok _ |- _ =>
                apply parse_column_target in H
            end).
    repeat (match goal with
            | H : target_value _ _ ?i = Ok ?x, H' : target_value _ _ ?i = Ok ?y |- _ =>
                assert (x = y) by congruence; subst x; clear H
            end).
    reflexivity.
  - intros k name data Hk.
    pose proof (parsed_names _ _ _ Hp) as Hnames.
    destruct (parsed_column_at _ _ _ _ _ _ Hp Hk) as [_ E].
    assert (k < 8)%nat as Hk8.
    { apply (f_equal (@List.length string)) in Hnames.
      rewrite length_map in Hnames. cbn in Hnames.
      assert (nth_error datasets k <> None) as Hsome by congruence.
      apply nth_error_Some in Hsome. lia. }
    rewrite range_rows in Er. rewrite for_each_returns in Er.
    destruct Er as (rds & HF & ->).
    rewrite fold_left_snoc by (apply (Forall2_length HF)). cbn [app].
    apply (shown_numbers_rows df k _ _ _ Hk8 HF).
    pose proof (parse_column_outcome float_of_str df (2 * k)) as Ho.
    rewrite E in Ho. apply Ho.
Qed.

End ShownProofs.

Lemma display_shows_parsed_witness :
  exists shown,
    _display_input_data example_float_of_str example_frame = Ok shown /\
    nth 1 (all_data shown) []
    = flat_map (fun item =>
        [[Fixed DisplaySettings.DECIMAL_PLACES (target (snd item))]; [Lit ""]])
        example_datasets /\
    forall k name data, nth_error example_datasets k = Some (name, data) ->
      shown_numbers (skipn 3 (all_data shown)) (2 * k) = numbers data.
Proof.
  destruct (_display_input_data example_float_of_str example_frame) as [shown|] eqn:E;
    [|vm_compute in E; discriminate].
  exists shown. split; [reflexivity|].
  apply (display_shows_parsed example_float_of_str example_frame shown
           example_datasets E).
  vm_compute. reflexivity.
Defined.

(** ** [analyze] *)


Lemma best_match_result (data : dataset) (r : option float) (e : float)
  (c : combination) :
  best_match data = Ok (r, e, c) -> r = Some (formula c).
Proof.
  intros H. apply best_match_returns, returned_combination in H. apply H.
Qed.

Lemma scored_outcome (data : dataset) :
  match scored data with
  | Ok (r, e) => exists c, best_match data = Ok (Some r, e, c)
  | Raise x => best_match data = Raise x
  end.
Proof.
  unfold scored. destruct (best_match data) as [[[r e] c]|x] eqn:E; cbn [bind];
    [|reflexivity].
  rewrite (best_match_result _ _ _ _ E). eauto.
Qed.

Lemma validate_body (st : validation) (item : string * dataset) :
  validate_dataset st item
  = bind (scored (snd item)) (fun re => Ok (record_dataset st item re)).
Proof.
  destruct st as [[results table_data] all_errors], item as [set_name data].
  unfold validate_dataset, scored, record_dataset. cbn [fst snd].
  destruct (best_match data) as [[[[r|] e] c]|x]; reflexivity.
Qed.

Lemma validate_loop (datasets : list (string * dataset)) (st : validation) :
  for_each validate_dataset datasets st
  = for_each (fun st item =>
        bind (scored (snd item)) (fun re => Ok (record_dataset st item re)))
      datasets st.
Proof. apply for_each_ext. intros s item _. apply validate_body. Qed.

(** The entry of a dataset in [self.results]. *)
Lemma scored_best_of (data : dataset) (r e : float) :
  scored data = Ok (r, e) ->
  best_of data {| entry_target := target data; entry_result := Some r; entry_error := e |}.
Proof.
  intros H. pose proof (scored_outcome data) as Ho. rewrite H in Ho.
  destruct Ho as [[[n1 n2] n3] Ho]. apply best_match_returns in Ho.
  destruct (target data =? 0) eqn:Ht.
  - rewrite (zero_target_outcome _ _ Ht) in Ho.
    destruct (existsb _ (numbers data)); discriminate.
  - destruct (search_summary (numbers data) (target data) Ht)
      as (r' & e' & c' & E & Hmin & Hc).
    rewrite E in Ho. injection Ho as -> -> ->.
    destruct Hc as (I1 & I2 & I3 & Hz & Hr & He & Hinf).
    unfold best_of. cbn [entry_target entry_result entry_error].
    split; [reflexivity|]. split; [assumption|]. split.
    + exists n1, n2, n3. auto 10.
    + exact Hmin.
Qed.



(** STEP 1 on the eight sets. *)
Lemma validate_sets (datasets : list (string * dataset))
  (results : list (string * result_entry)) (table_data : list (list fstring))
  (all_errors : list float) :
  map fst datasets = set_names ->
  for_each validate_dataset datasets ([], [], []) = Ok (results, table_data, all_errors) ->
  Forall2 (fun item entry => fst entry = fst item /\ best_of (snd item) (snd entry))
          datasets results /\
  all_errors = map (fun entry => entry_error (snd entry)) results /\
  List.length all_errors = 8%nat /\
  List.length table_data = 8%nat.
Proof.
  intros Hnames. rewrite validate_loop, for_each_returns.
  intros (ys & HF & E).
  do 8 (destruct datasets as [|[? ?] datasets]; [discriminate|]).
  destruct datasets; [|discriminate].
  injection Hnames as -> -> -> -> -> -> -> ->.
  repeat (match goal with
          | H : Forall2 _ (_ :: _) _ |- _ => inversion H; subst; clear H
          | H : Forall2 _ [] _ |- _ => inversion H; subst; clear H
          end).
  repeat (match goal with y : (float * float)%type |- _ => destruct y end).
  cbn in E. injection E as -> -> ->.
  split; [|split; [reflexivity|split; reflexivity]].
  repeat (constructor; [split; [reflexivity|apply scored_best_of; assumption]|]).
  constructor.
Qed.

Lemma eighths (count : Z) :
  (0 <= count <= 8)%Z ->
  PyInt.to_float count / PyInt.to_float 8 * 100 = PyInt.to_float count * 12.5.
Proof.
  intros H.
  assert (count = 0 \/ count = 1 \/ count = 2 \/ count = 3 \/ count = 4 \/
          count = 5 \/ count = 6 \/ count = 7 \/ count = 8)%Z as Hc by lia.
  repeat (destruct Hc as [->|Hc]; [vm_compute; reflexivity|]).
  subst. vm_compute. reflexivity.
Qed.

Lemma tolerance_table_eight (all_errors : list float) :
  List.length all_errors = 8%nat ->
  exists r1 r5 r10,
    tolerance_table all_errors = Ok [r1; r5; r10] /\
    Forall2 (fun row t =>
               row_count row = count_below t all_errors /\
               row_sets row = Z.of_nat (List.length all_errors) /\
               row_percent row = PyInt.to_float (row_count row) * 12.5)
            [r1; r5; r10] thresholds.
Proof.
  intros Hlen.
  assert (all_errors <> []) as Hne by (intros ->; discriminate).
  assert (Z.of_nat (List.length all_errors) < 2 ^ 53)%Z as Hsmall
    by (rewrite Hlen; reflexivity).
  unfold tolerance_table.
  rewrite (tolerance_entry_ok _ all_errors 0 Hne Hsmall) by lia.
  rewrite (tolerance_entry_ok _ all_errors 1 Hne Hsmall) by lia.
  rewrite (tolerance_entry_ok _ all_errors 2 Hne Hsmall) by lia.
  cbn [bind]. eexists _, _, _. split; [reflexivity|].
  unfold thresholds, confidence_intervals. cbn [nth snd]. rewrite Hlen.
  repeat (constructor;
          [cbn [row_count row_sets row_percent];
           split; [reflexivity|]; split; [reflexivity|];
           apply eighths;
           match goal with |- context [count_below ?t ?l] =>
             pose proof (count_below_bounds t l) end; lia|]).
  constructor.
Qed.

Section AnalyzeProofs.

Variable float_of_str : string -> option float.


(** The stages of a run that returns. *)
Lemma analyze_returns (df : pd.DataFrame) (rep : report) :
  analyze float_of_str df = Ok rep ->
  exists datasets,
    _display_input_data float_of_str df = Ok (input_data rep) /\
    _parse_dataset float_of_str df = Ok datasets /\
    for_each validate_dataset datasets ([], [], [])
    = Ok (results rep, table_data rep, all_errors rep) /\
    _calculate_statistical_metrics (all_errors rep) = Ok (error_metrics rep) /\
    tolerance_table (all_errors rep) = Ok (tolerance rep) /\
    conclusion_table rep
    = let '(rating, notes) := reliability_rating (metrics.max (error_metrics rep)) in
      let places := DisplaySettings.ERROR_DECIMAL_PLACES in
      [ [ [Lit "Reliability Rating:"]; [Lit rating] ];
        [ [Lit "Maximum Error (ε_max):"];
          [Fixed places (metrics.max (error_metrics rep)); Lit "%"] ];
        [ [Lit "Mean Error (μ_ε):"];
          [Fixed places (metrics.mean (error_metrics rep)); Lit "%"] ];
        [ [Lit "Standard Deviation (σ_ε):"];
          [Fixed places (metrics.std_dev (error_metrics rep)); Lit "%"] ];
        [ [Lit "Assessment:"]; [Lit notes] ] ].
Proof.
  unfold analyze.
  destruct (_display_input_data float_of_str df) as [shown|] eqn:Ed; cbn [bind];
    [|discriminate].
  destruct (_parse_dataset float_of_str df) as [datasets|] eqn:Ep; cbn [bind];
    [|discriminate].
  destruct (for_each validate_dataset datasets ([], [], []))
    as [[[res tab] errs]|] eqn:Ev; cbn [bind]; [|discriminate].
  destruct (_calculate_statistical_metrics errs) as [m|] eqn:Em; cbn [bind];
    [|discriminate].
  destruct (tolerance_table errs) as [rows|] eqn:Et; cbn [bind];
    [|discriminate].
  destruct (reliability_rating (metrics.max m)) as [rating notes] eqn:Erating.
  intros H. injection H as <-.
  cbn [input_data results table_data all_errors error_metrics tolerance
       conclusion_table].
  rewrite Erating. exists datasets. auto 10.
Qed.


(** X20.  When [analyze] returns, [self.results] has one entry per parsed
    dataset, under the same key and in the same order; the entry holds the
    target of the dataset, the result [(n1 * n2) / n3] of a triple of its
    numbers with a nonzero divisor, and the percentage error of that triple,
    which is below [+inf] and which no triple of the dataset with a nonzero
    divisor undercuts.  [all_errors] lists the errors of the entries in
    that order, the results table has eight rows, and the statistics
    shown are those of [all_errors]. *)
Theorem analyze_report (df : pd.DataFrame) (rep : report) :
  analyze float_of_str df = Ok rep ->
  exists datasets,
    _parse_dataset float_of_str df = Ok datasets /\
    Forall2 (fun item entry => fst entry = fst item /\ best_of (snd item) (snd entry))
            datasets (results rep) /\
    all_errors rep = map (fun entry => entry_error (snd entry)) (results rep) /\
    List.length (table_data rep) = 8%nat /\
    _calculate_statistical_metrics (all_errors rep) = Ok (error_metrics rep).
Proof.
  intros H. apply analyze_returns in H as (datasets & _ & Hp & Hv & Hm & _).
  exists datasets. split; [assumption|].
  apply validate_sets in Hv as (H1 & H2 & _ & H4); [|apply (parsed_names _ _ _ Hp)].
  auto.
Qed.

(** X21.  When [analyze] returns, the tolerance table has one row per
    threshold 1.0, 5.0 and 10.0; the count of a row is the number of errors
    below its threshold, the denominator [SETS_COUNT] printed beside it is
    the number of errors, and the percentage is exactly 12.5 times the
    count. *)
Theorem analyze_tolerance (df : pd.DataFrame) (rep : report) :
  analyze float_of_str df = Ok rep ->
  Forall2 (fun row t =>
             row_count row = count_below t (all_errors rep) /\
             row_sets row = Z.of_nat (List.length (all_errors rep)) /\
             row_percent row = PyInt.to_float (row_count row) * 12.5)
          (tolerance rep) thresholds.
Proof.
  intros H. apply analyze_returns in H as (datasets & _ & Hp & Hv & _ & Ht & _).
  apply validate_sets in Hv as (_ & _ & Hlen & _); [|apply (parsed_names _ _ _ Hp)].
  destruct (tolerance_table_eight _ Hlen) as (r1 & r5 & r10 & E & HF).
  rewrite E in Ht. injection Ht as <-. exact HF.
Qed.

Lemma max_below_forall (errors : list float) (hi t : float) :
  no_nan errors -> builtins.max errors = Ok hi ->
  (hi <? t) = true <-> Forall (fun e => (e <? t) = true) errors.
Proof.
  intros Hnn Hmax. rewrite (max_below_all errors hi t Hnn Hmax).
  rewrite count_below_length, Nat2Z.inj_iff, filter_length_all, Forall_forall.
  reflexivity.
Qed.

(** X25.  When [analyze] returns, the conclusion shows the rating and the
    notes of the largest of the eight errors: Exceptional exactly when
    every error is below 1.0, and Limited exactly when some error is not
    below 10.0. *)
Theorem analyze_rating (df : pd.DataFrame) (rep : report) :
  analyze float_of_str df = Ok rep ->
  exists rating notes,
    reliability_rating (metrics.max (error_metrics rep)) = (rating, notes) /\
    nth 0 (conclusion_table rep) [] = [[Lit "Reliability Rating:"]; [Lit rating]] /\
    nth 4 (conclusion_table rep) [] = [[Lit "Assessment:"]; [Lit notes]] /\
    In (metrics.max (error_metrics rep)) (all_errors rep) /\
    (rating = "Exceptional"%string <->
     Forall (fun e => (e <? 1.0) = true) (all_errors rep)) /\
    (rating = "Limited"%string <->
     Exists (fun e => (e <? 10.0) = false) (all_errors rep)).
Proof.
  intros H. apply analyze_returns in H as (datasets & _ & _ & _ & Hm & _ & Hc).
  pose proof (metrics_ok_finite _ _ Hm) as [_ Hfin]. apply finite_no_nan in Hfin.
  apply metrics_ok_inv in Hm as (_ & _ & _ & _ & _ & Hmax & _).
  pose proof (reliability_cases (metrics.max (error_metrics rep))) as (R1 & _ & _ & RL).
  unfold reliability in R1, RL.
  destruct (reliability_rating (metrics.max (error_metrics rep))) as [rating notes].
  cbn [fst] in R1, RL. exists rating, notes. rewrite Hc. cbn [nth].
  do 3 (split; [reflexivity|]). split; [apply (max_in _ _ Hmax)|]. split.
  - rewrite R1. apply (max_below_forall _ _ _ Hfin Hmax).
  - rewrite RL. rewrite Exists_exists. split.
    + intros Hlim. exists (metrics.max (error_metrics rep)).
      split; [apply (max_in _ _ Hmax)|exact Hlim].
    + intros (e & He & Hlim).
      destruct (metrics.max (error_metrics rep) <? 10.0) eqn:E; [|reflexivity].
      apply (max_below_forall _ _ _ Hfin Hmax) in E.
      rewrite Forall_forall in E. rewrite (E e He) in Hlim. discriminate.
Qed.

(** X22.  On a frame without row 3 (fewer than four rows) the input
    display, the parsing and [analyze] all raise [IndexError]. *)
Theorem short_frame_raises (df : pd.DataFrame) :
  (fst (pd.shape df) <= CSVIndex.TARGET_ROW)%nat ->
  _display_input_data float_of_str df = Raise IndexError /\
  _parse_dataset float_of_str df = Raise IndexError /\
  analyze float_of_str df = Raise IndexError.
Proof.
  intros H.
  assert (forall col, pd.iloc df CSVIndex.TARGET_ROW col = Raise IndexError) as Hi.
  { intros col. unfold pd.iloc.
    destruct (Nat.ltb_spec CSVIndex.TARGET_ROW (fst (pd.shape df))); [lia|].
    reflexivity. }
  assert (_display_input_data float_of_str df = Raise IndexError) as Hd.
  { rewrite display_loops. cbn [for_each]. unfold target_value. rewrite Hi.
    reflexivity. }
  split; [exact Hd|]. split.
  - rewrite parse_dataset_loop. cbn [for_each]. unfold parse_column. rewrite Hi.
    reflexivity.
  - unfold analyze. rewrite Hd. reflexivity.
Qed.

End AnalyzeProofs.

Lemma analyze_report_witness :
  exists rep datasets,
    analyze example_float_of_str example_frame = Ok rep /\
    _parse_dataset example_float_of_str example_frame = Ok datasets /\
    Forall2 (fun item entry => fst entry = fst item /\ best_of (snd item) (snd entry))
            datasets (results rep) /\
    all_errors rep = map (fun entry => entry_error (snd entry)) (results rep) /\
    all_errors rep = [0; 25; 0; 0; 0; 0; 0; 0].
Proof.
  destruct (analyze example_float_of_str example_frame) as [rep|] eqn:E;
    [|vm_compute in E; discriminate].
  destruct (analyze_report _ _ _ E) as (datasets & Hp & HF & He & _).
  exists rep, datasets. do 4 (split; [reflexivity || assumption|]).
  apply (f_equal (fun r => match r with Ok rep => all_errors rep | Raise _ => [] end))
    in E.
  vm_compute in E. symmetry. exact E.
Defined.

Lemma analyze_tolerance_witness :
  exists rep,
    analyze example_float_of_str example_frame = Ok rep /\
    Forall2 (fun row t =>
               row_count row = count_below t (all_errors rep) /\
               row_sets row = Z.of_nat (List.length (all_errors rep)) /\
               row_percent row = PyInt.to_float (row_count row) * 12.5)
            (tolerance rep) thresholds /\
    map row_percent (tolerance rep) = [87.5; 87.5; 87.5].
Proof.
  destruct (analyze example_float_of_str example_frame) as [rep|] eqn:E;
    [|vm_compute in E; discriminate].
  exists rep. split; [reflexivity|]. split; [apply (analyze_tolerance _ _ _ E)|].
  apply (f_equal (fun r => match r with
                           | Ok rep => map row_percent (tolerance rep)
                           | Raise _ => []
                           end)) in E.
  vm_compute in E. symmetry. exact E.
Defined.

Lemma short_frame_raises_witness :
  _display_input_data example_float_of_str short_frame = Raise IndexError /\
  _parse_dataset example_float_of_str short_frame = Raise IndexError /\
  analyze example_float_of_str short_frame = Raise IndexError.
Proof.
  apply (short_frame_raises example_float_of_str short_frame).
  apply Nat.leb_le. reflexivity.
Defined.

Lemma analyze_rating_witness :
  exists rep,
    analyze example_float_of_str example_frame = Ok rep /\
    reliability_rating (metrics.max (error_metrics rep))
    = ("Limited"%string, "Further optimization recommended"%string) /\
    Exists (fun e => (e <? 10.0) = false) (all_errors rep).
Proof.
  destruct (analyze example_float_of_str example_frame) as [rep|] eqn:E;
    [|vm_compute in E; discriminate].
  exists rep. split; [reflexivity|].
  destruct (analyze_rating _ _ _ E) as (rating & notes & Hr & _ & _ & _ & _ & Hl).
  assert (reliability_rating (metrics.max (error_metrics rep))
          = ("Limited"%string, "Further optimization recommended"%string)) as Hlim.
  { apply (f_equal (fun r => match r with
                             | Ok rep => reliability_rating (metrics.max (error_metrics rep))
                             | Raise _ => (EmptyString, EmptyString)
                             end)) in E.
    vm_compute in E. symmetry. exact E. }
  split; [exact Hlim|]. apply Hl. congruence.
Defined.

(** [float] on an integer cell at the edge of the float range: the largest
    integer that rounds to the largest float converts, the next one
    raises. *)
Example float_of_integer_range :
  float_of example_float_of_str (pd.Int (2 ^ 1024 - 2 ^ 970 - 1))
  = Ok 0x1.fffffffffffffp+1023%float /\
  float_of example_float_of_str (pd.Int (2 ^ 1024 - 2 ^ 970)) = Raise OverflowError /\
  float_of example_float_of_str (pd.Int (10 ^ 400)) = Raise OverflowError.
Proof. repeat split; vm_compute; reflexivity. Qed.

(** A frame that holds such an integer in a cell the analyzer converts: the
    input display raises, and so does the analysis. *)
Example overflowing_frame_raises :
  unconvertible example_float_of_str overflowing_frame OverflowError /\
  _display_input_data example_float_of_str overflowing_frame = Raise OverflowError /\
  _parse_dataset example_float_of_str overflowing_frame = Raise OverflowError /\
  analyze example_float_of_str overflowing_frame = Raise OverflowError.
Proof.
  split.
  - exists CSVIndex.DATA_START_ROW, 0%nat.
    split; [lia|]. split; [apply Nat.ltb_lt; reflexivity|].
    split; [right; split; [lia|reflexivity]|].
    vm_compute. reflexivity.
  - repeat split; vm_compute; reflexivity.
Qed.

(** ** Positive targets *)

Lemma collect_errors_each (datasets : list (string * dataset)) (acc errors : list float) :
  for_each (fun all_errors item =>
              (found <- best_match (snd item) ;;
               let '(_, error, _) := found in
               Ok (all_errors ++ [error]))%py) datasets acc = Ok errors ->
  exists found,
    errors = acc ++ found /\
    Forall2 (fun item e => exists r c, best_match (snd item) = Ok (r, e, c))
            datasets found.
Proof.
  revert acc. induction datasets as [|item datasets IH]; intros acc; cbn [for_each].
  - intros H. injection H as <-. exists []. rewrite app_nil_r.
    split; [reflexivity|constructor].
  - destruct (best_match (snd item)) as [[[r e] c]|] eqn:E; cbn [bind];
      [|discriminate].
    intros H. apply IH in H as (found & -> & HF).
    exists (e :: found). rewrite <- app_assoc. split; [reflexivity|].
    constructor; [eauto|assumption].
Qed.

Lemma nonneg_finite (e : float) :
  (0 <=? e) = true -> (e <? infinity) = true -> statistics.isfinite e = true.
Proof.
  intros H0 Hinf. apply leb_key in H0. apply ltb_key in Hinf.
  rewrite fkey_zero in H0. rewrite fkey_infinity in Hinf.
  unfold statistics.isfinite, statistics._exact_ratio. unfold fkey in *.
  destruct (Prim2SF e) as [s|[]| |s m x]; cbn in *; try reflexivity; exfalso;
    key_solve.
Qed.

(** X24.  When every target is positive, the errors STEP 1 collects are
    all [>= 0] and below [+inf], hence finite, and the statistics do not
    raise [AttributeError] on them. *)
Theorem positive_targets_finite_errors (datasets : list (string * dataset))
  (errors : list float) :
  Forall (fun item => (0 <? target (snd item)) = true) datasets ->
  collect_errors datasets = Ok errors ->
  Forall (fun e => (0 <=? e) = true /\ (e <? infinity) = true) errors /\
  forallb statistics.isfinite errors = true /\
  _calculate_statistical_metrics errors <> Raise AttributeError.
Proof.
  intros Hpos H. unfold collect_errors in H.
  apply collect_errors_each in H as (found & -> & HF). cbn [app].
  assert (Forall (fun e => (0 <=? e) = true /\ (e <? infinity) = true) found) as Hall.
  { induction HF as [|item e datasets found (r & c & Hb) HF IH]; [constructor|].
    inversion Hpos as [|? ? Ht Hpos']; subst.
    constructor; [|apply IH; assumption].
    apply best_match_returns, returned_combination in Hb as (_ & -> & Hinf).
    split; [apply percentage_error_nonneg|]; assumption. }
  assert (forallb statistics.isfinite found = true) as Hfin.
  { apply forallb_forall. intros e He. rewrite Forall_forall in Hall.
    destruct (Hall e He). apply nonneg_finite; assumption. }
  split; [assumption|]. split; [assumption|].
  intros E. apply metrics_raises in E as [(E & _)|[(_ & _ & E)|(E & _)]];
    congruence.
Qed.

Lemma positive_targets_finite_errors_witness :
  Forall (fun e => (0 <=? e) = true /\ (e <? infinity) = true) [0; 25] /\
  forallb statistics.isfinite [0; 25] = true /\
  _calculate_statistical_metrics [0; 25] <> Raise AttributeError.
Proof.
  apply (positive_targets_finite_errors
           [("A"%string, {| target := 1; numbers := [2; 5; 10] |});
            ("B"%string, {| target := 4; numbers := [3; 5] |})]).
  - repeat constructor.
  - vm_compute. reflexivity.
Defined.

(** *** The sign of a difference *)

Lemma digits2_size (m : positive) : digits2_pos m = Pos.size m.
Proof. induction m; cbn; congruence. Qed.

(** The mantissa of a binary64 float has at most 53 bits, and exactly 53
    above the smallest exponent. *)
Lemma valid_mantissa (s : bool) (m : positive) (e : Z) :
  valid_binary (S754_finite s m e) = true ->
  (Z.pos m < 2 ^ 53)%Z /\ (-1074 <= e)%Z /\ (-1074 < e -> 2 ^ 52 <= Z.pos m)%Z.
Proof.
  unfold valid_binary, SpecFloat.valid_binary, bounded, canonical_mantissa, fexp, emin.
  change prec with 53%Z. change emax with 1024%Z.
  rewrite andb_true_iff, Z.eqb_eq, digits2_size. intros [H _].
  pose proof (Pos.size_gt m) as Hgt. pose proof (Pos.size_le m) as Hle.
  apply Pos2Z.pos_lt_pos in Hgt. apply Pos2Z.pos_le_pos in Hle.
  rewrite Pos2Z.inj_pow in Hgt, Hle. rewrite Pos2Z.inj_xO in Hle.
  set (d := Z.pos (Pos.size m)) in *.
  assert (0 < d)%Z as Hd by (subst d; lia).
  split; [|split].
  - assert (d <= 53)%Z as Hd53 by lia.
    apply (Z.lt_le_trans _ _ _ Hgt). apply Z.pow_le_mono_r; lia.
  - lia.
  - intros He. assert (d = 53)%Z as Hd53 by lia. rewrite Hd53 in Hle.
    change (2 ^ 53)%Z with (2 * 2 ^ 52)%Z in Hle. lia.
Qed.

Lemma iter_xO_value (d m : positive) :
  Z.pos (Pos.iter xO m d) = (Z.pos m * 2 ^ Z.pos d)%Z.
Proof.
  induction d using Pos.peano_ind.
  - cbn. lia.
  - rewrite Pos.iter_succ, Pos2Z.inj_xO, IHd, Pos2Z.inj_succ, Z.pow_succ_r by lia.
    lia.
Qed.

Lemma shl_align_value (m : positive) (e e' : Z) :
  (e' <= e)%Z ->
  Z.pos (fst (shl_align m e e')) = (Z.pos m * 2 ^ (e - e'))%Z.
Proof.
  intros H. unfold shl_align. destruct (e' - e)%Z as [|d|d] eqn:E; cbn [fst].
  - replace (e - e')%Z with 0%Z by lia. lia.
  - lia.
  - replace (e - e')%Z with (Z.pos d) by lia. apply iter_xO_value.
Qed.

(** Rounding a number that is not negative gives no NaN and no negative
    float. *)
Lemma shr_1_nonneg (mrs : shr_record) :
  (0 <= shr_m mrs)%Z -> (0 <= shr_m (shr_1 mrs))%Z.
Proof.
  destruct mrs as [m r s]. cbn [shr_m].
  destruct m as [|[p|p|]|p]; cbn; lia.
Qed.

Lemma iter_pos_invariant {A : Type} (P : A -> Prop) (f : A -> A) :
  (forall x, P x -> P (f x)) -> forall n x, P x -> P (SpecFloat.iter_pos f n x).
Proof.
  intros Hf. induction n as [n IH|n IH|]; intros x Hx; cbn; auto.
Qed.

Lemma shr_fexp_nonneg (m e : Z) (l : location) :
  (0 <= m)%Z -> (0 <= shr_m (fst (shr_fexp prec emax m e l)))%Z.
Proof.
  intros H. unfold shr_fexp, shr.
  assert (0 <= shr_m (shr_record_of_loc m l))%Z as H0
    by (destruct l as [|[]]; exact H).
  destruct (_ - e)%Z as [|p|p]; cbn [fst]; try exact H0.
  apply (iter_pos_invariant (fun mrs => 0 <= shr_m mrs)%Z); [|exact H0].
  apply shr_1_nonneg.
Qed.

Lemma round_nearest_even_nonneg (m : Z) (l : location) :
  (0 <= m)%Z -> (0 <= round_nearest_even m l)%Z.
Proof.
  intros H. destruct l as [|[]]; cbn; try lia. destruct (Z.even m); lia.
Qed.

Lemma binary_round_aux_positive (m e : Z) (l : location) :
  (0 <= m)%Z ->
  let r := binary_round_aux prec emax false m e l in
  nonneg r /\ r <> S754_nan.
Proof.
  intros H. cbv zeta. unfold binary_round_aux.
  pose proof (shr_fexp_nonneg m e l H) as H1.
  destruct (shr_fexp prec emax m e l) as [mrs' e']. cbn [fst] in H1.
  pose proof (shr_fexp_nonneg _ e' loc_Exact
                (round_nearest_even_nonneg _ (loc_of_shr_record mrs') H1)) as H2.
  destruct (shr_fexp prec emax _ e' loc_Exact) as [mrs'' e'']. cbn [fst] in H2.
  destruct (shr_m mrs'') as [|p|p]; [| |lia].
  - split; [reflexivity|discriminate].
  - destruct (Z.leb e'' _); split; try reflexivity; discriminate.
Qed.

Lemma binary_normalize_nonneg (m e : Z) :
  (0 <= m)%Z ->
  let r := binary_normalize prec emax m e false in
  nonneg r /\ r <> S754_nan.
Proof.
  intros H. cbv zeta. destruct m as [|p|p]; [| |lia]; cbn [binary_normalize].
  - split; [reflexivity|discriminate].
  - unfold binary_round. destruct (shl_align p e _) as [mz ez].
    apply binary_round_aux_positive. lia.
Qed.

(** [x - y] is not negative and no NaN when [x] and [y] are finite and
    [x] is not below [y]. *)
Lemma SFsub_nonneg (x y : spec_float) :
  valid_binary x = true -> valid_binary y = true ->
  (exists kx ky, key x = Some kx /\ key y = Some ky /\ ~ lex_lt kx ky) ->
  match x with S754_infinity _ => False | _ => True end ->
  match y with S754_infinity _ => False | _ => True end ->
  let r := SFsub prec emax x y in
  r <> S754_nan /\ (nonneg r \/ exists s, r = S754_zero s).
Proof.
  intros Vx Vy (kx & ky & Kx & Ky & Hle) Fx Fy. cbv zeta.
  destruct x as [sx|sx| |sx mx ex]; try contradiction; try discriminate;
    destruct y as [sy|sy| |sy my ey]; try contradiction; try discriminate.
  - (* zero - zero *)
    destruct sx, sy; cbn; split; try discriminate; eauto.
  - (* zero - finite *)
    cbn [SFsub]. split; [discriminate|]. left. cbn [nonneg].
    destruct sy; [reflexivity|]. exfalso. cbn in Kx, Ky.
    injection Kx as <-. injection Ky as <-. apply Hle. cbn. lia.
  - (* finite - zero *)
    cbn [SFsub]. split; [discriminate|]. left. cbn [nonneg].
    destruct sx; [|reflexivity]. exfalso. cbn in Kx, Ky.
    injection Kx as <-. injection Ky as <-. apply Hle. cbn. lia.
  - (* finite - finite *)
    cbn [SFsub].
    match goal with |- context [binary_normalize _ _ ?m ?e false] =>
      assert (0 <= m)%Z as Hm; [|destruct (binary_normalize_nonneg m e Hm); auto]
    end.
    apply valid_mantissa in Vx as (Hx1 & Hx2 & Hx3).
    apply valid_mantissa in Vy as (Hy1 & Hy2 & Hy3).
    rewrite !shl_align_value by lia.
    cbn in Kx, Ky.
    destruct (Z.min_spec ex ey) as [[Hlt ->]|[Hge ->]].
    + (* ex < ey *)
      rewrite Z.sub_diag, Z.mul_1_r.
      assert (2 * Z.pos my <= Z.pos my * 2 ^ (ey - ex))%Z as Hbig.
      { replace (ey - ex)%Z with (Z.succ (ey - ex - 1)) by lia.
        rewrite Z.pow_succ_r by lia.
        assert (0 < 2 ^ (ey - ex - 1))%Z by (apply Z.pow_pos_nonneg; lia).
        nia. }
      specialize (Hy3 ltac:(lia)).
      change (2 ^ 53)%Z with (2 * 2 ^ 52)%Z in Hx1.
      destruct sx, sy; cbn [cond_Zopp]; injection Kx as <-; injection Ky as <-;
        cbn in Hle; try lia.
    + (* ey <= ex *)
      rewrite Z.sub_diag, Z.mul_1_r.
      destruct (Z.eq_dec ex ey) as [->|Hne].
      * rewrite Z.sub_diag, Z.mul_1_r.
        destruct sx, sy; cbn [cond_Zopp]; injection Kx as <-; injection Ky as <-;
          cbn in Hle; lia.
      * assert (2 * Z.pos mx <= Z.pos mx * 2 ^ (ex - ey))%Z as Hbig.
        { replace (ex - ey)%Z with (Z.succ (ex - ey - 1)) by lia.
          rewrite Z.pow_succ_r by lia.
          assert (0 < 2 ^ (ex - ey - 1))%Z by (apply Z.pow_pos_nonneg; lia).
          nia. }
        specialize (Hx3 ltac:(lia)).
        change (2 ^ 53)%Z with (2 * 2 ^ 52)%Z in Hy1.
        destruct sx, sy; cbn [cond_Zopp]; injection Kx as <-; injection Ky as <-;
          cbn in Hle; try lia.
Qed.

Lemma sub_not_negative (x y : float) :
  statistics.isfinite x = true -> statistics.isfinite y = true ->
  (x <? y) = false -> (0 <=? x - y) = true.
Proof.
  intros Fx Fy Hxy.
  assert (~ key_lt (fkey x) (fkey y)) as Hk by (rewrite <- ltb_key; congruence).
  apply leb_key. rewrite fkey_zero. unfold fkey in *. rewrite sub_spec.
  unfold SF64sub.
  unfold statistics.isfinite, statistics._exact_ratio in Fx, Fy.
  pose proof (Prim2SF_valid x) as Vx. pose proof (Prim2SF_valid y) as Vy.
  destruct (SFsub_nonneg (Prim2SF x) (Prim2SF y) Vx Vy) as [Hnan Hs].
  - destruct (Prim2SF x) as [sx|sx| |sx mx ex]; try discriminate;
      destruct (Prim2SF y) as [sy|sy| |sy my ey]; try discriminate;
      cbn [key] in *.
    all: repeat match goal with
         | |- context [if ?b then _ else _] => destruct b
         | H : context [if ?b then _ else _] |- _ => destruct b
         end.
    all: eexists _, _; split; [reflexivity|]; split; [reflexivity|]; exact Hk.
  - destruct (Prim2SF x); try discriminate; exact I.
  - destruct (Prim2SF y); try discriminate; exact I.
  - destruct (SFsub prec emax (Prim2SF x) (Prim2SF y)) as [s|s| |s m e];
      [| |contradiction|].
    + right. cbn. auto.
    + left. destruct Hs as [Hs|[s' Hs]]; [|discriminate]. cbn in Hs. subst.
      cbn. lia.
    + left. destruct Hs as [Hs|[s' Hs]]; [|discriminate]. cbn in Hs. subst.
      cbn. lia.
Qed.

(** X26.  In a returned record [min <= max], and the range [max - min] is
    [>= 0]: it is never negative and never a NaN. *)
Theorem range_not_negative (errors : list float) (m : metrics.t) :
  _calculate_statistical_metrics errors = Ok m ->
  (metrics.min m <=? metrics.max m) = true /\
  (0 <=? metrics.range m) = true.
Proof.
  intros H. pose proof (metrics_ok_finite _ _ H) as [_ Hfin].
  pose proof (finite_no_nan _ Hfin) as Hnn. unfold no_nan in Hnn.
  rewrite Forall_forall in Hnn. rewrite forallb_forall in Hfin.
  apply metrics_ok_inv in H as (_ & _ & _ & _ & Hmin & Hmax & _ & _ & Hrange & _).
  pose proof (min_in _ _ Hmin) as Imin. pose proof (max_in _ _ Hmax) as Imax.
  assert ((metrics.max m <? metrics.min m) = false) as Hlt.
  { destruct errors as [|x l]; [destruct Imin|].
    cbn [builtins.max] in Hmax. injection Hmax as Hmax.
    pose proof (fold_max_spec l x) as (_ & _ & Hhi). cbv zeta in Hhi.
    rewrite Hmax in Hhi. apply Hhi, Imin. }
  split.
  - apply not_ltb_leb; auto.
  - rewrite Hrange. apply sub_not_negative; auto.
Qed.

Lemma range_not_negative_witness :
  exists m, _calculate_statistical_metrics example_errors = Ok m /\
    (metrics.min m <=? metrics.max m) = true /\ (0 <=? metrics.range m) = true.
Proof.
  destruct (_calculate_statistical_metrics example_errors) as [m|] eqn:E;
    [|vm_compute in E; discriminate].
  exists m. split; [reflexivity|]. apply (range_not_negative _ _ E).
Defined.

(** ** Negative targets *)

Lemma binary_round_aux_nonpos (m e : Z) (l : location) :
  nonpos (binary_round_aux prec emax true m e l).
Proof.
  unfold binary_round_aux.
  destruct (shr_fexp prec emax m e l) as [mrs' e'].
  destruct (shr_fexp prec emax _ e' loc_Exact) as [mrs'' e''].
  destruct (shr_m mrs''); [reflexivity| |exact I].
  destruct (Z.leb e'' _); reflexivity.
Qed.

Lemma SFdiv_nonpos (x y : spec_float) :
  nonneg x -> strictly_negative y -> nonpos (SFdiv prec emax x y).
Proof.
  destruct x as [sx|sx| |sx mx ex], y as [[]|[]| |[] my ey];
    cbn [nonneg strictly_negative SFdiv];
    intros Hx Hy; try contradiction; try exact I; subst; try reflexivity.
  destruct (SFdiv_core_binary prec emax (Z.pos mx) ex (Z.pos my) ey) as [[mz ez] lz].
  apply binary_round_aux_nonpos.
Qed.

Lemma SFmul_nonpos (x y : spec_float) :
  nonpos x -> strictly_positive y -> nonpos (SFmul prec emax x y).
Proof.
  destruct x as [sx|sx| |sx mx ex], y as [[]|[]| |[] my ey];
    cbn [nonpos strictly_positive SFmul];
    intros Hx Hy; try contradiction; try exact I; subst; try reflexivity.
  apply binary_round_aux_nonpos.
Qed.

Lemma negative_strictly (x : float) : (x <? 0) = true -> strictly_negative (Prim2SF x).
Proof.
  rewrite ltb_key, fkey_zero. unfold fkey.
  destruct (Prim2SF x) as [[]|[]| |[] ? ?]; cbn; try lia; auto.
Qed.

Lemma negative_nonzero (x : float) : (x <? 0) = true -> (x =? 0) = false.
Proof.
  intros H. destruct (x =? 0) eqn:E; [|reflexivity].
  apply ltb_key in H. apply eqb_key in E. rewrite fkey_zero in *. key_solve.
Qed.

Lemma nonpos_leb (x : float) :
  nonpos (Prim2SF x) -> fkey x <> None -> (x <=? 0) = true.
Proof.
  rewrite leb_key, fkey_zero. unfold fkey.
  destruct (Prim2SF x) as [[]|[]| |[] ? ?]; cbn; intros; try discriminate;
    try contradiction; try lia; auto.
Qed.

Lemma percentage_error_nonpos (target : float) (c : combination) :
  (target <? 0) = true -> nonpos (Prim2SF (percentage_error target c)).
Proof.
  intros Ht. unfold percentage_error.
  rewrite mul_spec, div_spec, abs_spec.
  apply SFmul_nonpos; [apply SFdiv_nonpos|].
  - apply SFabs_nonneg.
  - apply negative_strictly, Ht.
  - exact I.
Qed.

(** X27.  With a negative target the search returns, and no percentage
    error is above zero: every triple with a nonzero divisor has an error
    that is not positive, a selected triple has an error [<= 0], and no
    triple has an error below the returned one.  The triple selected is
    thus one whose error is the most negative, not the closest to zero. *)
Theorem negative_target_error_sign (numbers : list float) (target : float) :
  (target <? 0) = true ->
  exists r e c,
    _find_best_combination numbers target = Ok (r, e, c) /\
    (c <> None -> (e <=? 0) = true) /\
    (forall n1 n2 n3, In n1 numbers -> In n2 numbers -> In n3 numbers ->
       (n3 =? 0) = false ->
       (0 <? percentage_error target (n1, n2, n3)) = false /\
       (percentage_error target (n1, n2, n3) <? e) = false).
Proof.
  intros Ht.
  destruct (search_summary numbers target (negative_nonzero _ Ht))
    as (r & e & c & E & Hmin & Hc).
  exists r, e, c. split; [exact E|]. split.
  - intros Hsome. destruct c as [[[n1 n2] n3]|]; [|contradiction].
    destruct Hc as (_ & _ & _ & _ & _ & He & Hinf).
    apply nonpos_leb; [|apply below_infinity_key, Hinf].
    rewrite He. apply percentage_error_nonpos, Ht.
  - intros n1 n2 n3 I1 I2 I3 Hz. split; [|apply Hmin; assumption].
    pose proof (percentage_error_nonpos target (n1, n2, n3) Ht) as Hs.
    destruct (0 <? percentage_error target (n1, n2, n3)) eqn:E0; [|reflexivity].
    apply ltb_key in E0. rewrite fkey_zero in E0. unfold fkey in E0.
    destruct (Prim2SF (percentage_error target (n1, n2, n3))) as [[]|[]| |[] ? ?];
      cbn in Hs, E0; try discriminate; try contradiction; lia.
Qed.

Lemma negative_target_error_sign_witness :
  exists r e c,
    _find_best_combination [1; 2] (-1) = Ok (r, e, c) /\
    (c <> None -> (e <=? 0) = true) /\
    (forall n1 n2 n3, In n1 [1; 2] -> In n2 [1; 2] -> In n3 [1; 2] ->
       (n3 =? 0) = false ->
       (0 <? percentage_error (-1) (n1, n2, n3)) = false /\
       (percentage_error (-1) (n1, n2, n3) <? e) = false).
Proof.
  apply negative_target_error_sign. reflexivity.
Defined.

(** ** The cells the analyzer does not read *)

Section ReadProofs.

Variable float_of_str : string -> option float.

Lemma iloc_same (df df' : pd.DataFrame) (row k : nat) :
  same_read_cells df df' -> (k < 8)%nat ->
  row = CSVIndex.TARGET_ROW \/ (CSVIndex.DATA_START_ROW <= row)%nat ->
  pd.iloc df row (2 * k) = pd.iloc df' row (2 * k).
Proof.
  intros (Hrows & Hc & Hc' & Hcells) Hk Hrow. unfold pd.iloc.
  rewrite <- Hrows, (Hcells row k Hk Hrow).
  destruct (Nat.ltb_spec (2 * k) (snd (pd.shape df))); [|lia].
  destruct (Nat.ltb_spec (2 * k) (snd (pd.shape df'))); [|lia].
  reflexivity.
Qed.

Lemma parse_column_same (df df' : pd.DataFrame) (k : nat) :
  same_read_cells df df' -> (k < 8)%nat ->
  parse_column float_of_str df (2 * k) = parse_column float_of_str df' (2 * k).
Proof.
  intros H Hk. unfold parse_column.
  rewrite (iloc_same df df' _ k H Hk) by (left; reflexivity).
  destruct (pd.iloc df' CSVIndex.TARGET_ROW (2 * k)) as [cell|]; cbn [bind];
    [|reflexivity].
  destruct (float_of float_of_str cell) as [t|]; cbn [bind]; [|reflexivity].
  destruct H as (Hrows & Hc & Hc' & Hcells). unfold pd.iloc_from.
  destruct (Nat.ltb_spec (2 * k) (snd (pd.shape df))); [|lia].
  destruct (Nat.ltb_spec (2 * k) (snd (pd.shape df'))); [|lia].
  rewrite <- Hrows.
  rewrite (map_ext_in _ (fun row => pd.values df' row (2 * k))); [reflexivity|].
  intros row Hrow. apply in_seq in Hrow. apply Hcells; [assumption|right; lia].
Qed.

Lemma shown_cell_same (df df' : pd.DataFrame) (row k : nat) :
  same_read_cells df df' -> (k < 8)%nat -> (CSVIndex.DATA_START_ROW <= row)%nat ->
  shown_cell float_of_str df row (2 * k) = shown_cell float_of_str df' row (2 * k).
Proof.
  intros H Hk Hrow. unfold shown_cell.
  rewrite (iloc_same df df' row k H Hk) by (right; assumption). reflexivity.
Qed.

(** X28.  The analyzer reads the set columns only, in the target row and
    from row 6 on: two frames of the same height that agree on these cells
    (whatever their headings, their rows 4 and 5, their separator columns
    and their columns after the fifteenth hold) give the same parsing, the
    same display and the same run of [analyze]. *)
Theorem unread_cells_ignored (df df' : pd.DataFrame) :
  same_read_cells df df' ->
  _parse_dataset float_of_str df = _parse_dataset float_of_str df' /\
  _display_input_data float_of_str df = _display_input_data float_of_str df' /\
  analyze float_of_str df = analyze float_of_str df'.
Proof.
  intros H.
  assert (_parse_dataset float_of_str df = _parse_dataset float_of_str df') as Hp.
  { rewrite !parse_dataset_loop. apply for_each_ext. intros s i Hi.
    apply in_columns in Hi as (k & Hk & ->).
    rewrite (parse_column_same df df' k H Hk). reflexivity. }
  assert (_display_input_data float_of_str df = _display_input_data float_of_str df')
    as Hd.
  { rewrite !display_loops.
    rewrite (for_each_ext
               (fun target_row i =>
                  bind (target_value float_of_str df i) _)
               (fun target_row i =>
                  bind (target_value float_of_str df' i) (fun x =>
                    Ok (target_row ++ [[Fixed DisplaySettings.DECIMAL_PLACES x]; [Lit ""]])))).
    2: { intros s i Hi. apply in_columns in Hi as (k & Hk & ->).
         unfold target_value.
         rewrite (iloc_same df df' _ k H Hk) by (left; reflexivity). reflexivity. }
    destruct (for_each _ [0; 2; 4; 6; 8; 10; 12; 14]%nat []) as [target_row|];
      cbn [bind]; [|reflexivity].
    destruct H as (Hrows & Hrest). rewrite <- Hrows.
    rewrite (for_each_ext
               (fun number_rows row_idx =>
                  bind (display_row float_of_str df row_idx) _)
               (fun number_rows row_idx =>
                  bind (display_row float_of_str df' row_idx) (fun row_data =>
                    Ok (number_rows ++ [row_data])))); [reflexivity|].
    intros s row Hrow. apply in_rows in Hrow.
    unfold display_row.
    rewrite (for_each_ext
               (fun row_data col =>
                  bind (shown_cell float_of_str df row col) _)
               (fun row_data col =>
                  bind (shown_cell float_of_str df' row col) (fun shown =>
                    Ok (row_data ++ cell_text shown)))); [reflexivity|].
    intros r col Hcol. apply in_columns in Hcol as (k & Hk & ->).
    rewrite (shown_cell_same df df' row k (conj Hrows Hrest) Hk) by lia.
    reflexivity. }
  split; [exact Hp|]. split; [exact Hd|].
  unfold analyze. rewrite Hp, Hd. reflexivity.
Qed.

End ReadProofs.

Lemma unread_cells_ignored_witness :
  _parse_dataset example_float_of_str example_frame
  = _parse_dataset example_float_of_str example_frame_annotated /\
  _display_input_data example_float_of_str example_frame
  = _display_input_data example_float_of_str example_frame_annotated /\
  analyze example_float_of_str example_frame
  = analyze example_float_of_str example_frame_annotated.
Proof.
  apply unread_cells_ignored. split; [reflexivity|].
  split; [apply Nat.ltb_lt; reflexivity|]. split; [apply Nat.ltb_lt; reflexivity|].
  intros row k Hk Hrow. cbn [example_frame_annotated pd.values].
  assert (Nat.even (2 * k) = true) as -> by (rewrite Nat.even_mul; reflexivity).
  destruct (Nat.ltb_spec (2 * k) 15); [|lia].
  destruct Hrow as [->|Hrow]; [reflexivity|].
  destruct (Nat.leb_spec CSVIndex.DATA_START_ROW row); [|lia].
  rewrite orb_true_r. reflexivity.
Defined.
